(** * Samsung Health Dashboard: the parsing and aggregation pipeline

    A shallow embedding of [src/utils/healthParser.ts] and the properties
    its specification states about it.

    Conventions of the embedding.
    - A JavaScript string is a [string] of the Standard Library: a sequence
      of 8-bit code units.  Every text the parser looks at (CSV structure,
      keywords, ISO dates) is ASCII.
    - A JavaScript number that only goes through [+ - * /], comparisons,
      [Math.floor] and [Math.round] is a rational [Q]; the values [NaN] and
      [Infinity] are added explicitly ([number]) where the code can
      produce them.  Where the code calls [Math.sin], [Math.cos],
      [Math.atan2] or [Math.sqrt] a number is a real [R].  In these
      two models the rounding of IEEE-754 doubles is left out; where a
      property depends on it ([calculateCorrelation], the wrap-around of
      [calculateCircularAverage]) the numbers are the primitive binary64
      floats, in [Doubles].
    - [Array.prototype.sort] is stable (ECMAScript 2019), so with a
      consistent comparator its result is the one of any stable sort; it
      is embedded as an insertion sort. *)

From Stdlib Require Import Bool List Arith ZArith Lia.
From Stdlib Require Import QArith Qround Qabs Qminmax.
From Stdlib Require Import Reals.
From Stdlib Require Lra Lqa.
From Stdlib Require Import String Ascii DecimalString.
From Stdlib Require DecimalPos DecimalZ.
From Stdlib Require Floats Uint63.
From Stdlib Require Import Permutation Sorted.
Import ListNotations.

Close Scope Q_scope.
Close Scope R_scope.
Close Scope Z_scope.

(** ** JavaScript strings *)

Module JsString.

Local Open Scope string_scope.
Local Open Scope bool_scope.

Definition dquote : ascii := "034"%char.
Definition comma : ascii := ","%char.
Definition newline : ascii := "010"%char.

(** [WhiteSpace] and [LineTerminator] code units below 256. *)
Definition isWhitespace (c : ascii) : bool :=
  let n := nat_of_ascii c in
  ((9 <=? n)%nat && (n <=? 13)%nat) || (n =? 32)%nat || (n =? 160)%nat.

(** [String.prototype.trim]. *)
Fixpoint trimStart (s : string) : string :=
  match s with
  | EmptyString => EmptyString
  | String c rest => if isWhitespace c then trimStart rest else s
  end.

Fixpoint trimEnd (s : string) : string :=
  match s with
  | EmptyString => EmptyString
  | String c rest =>
      match trimEnd rest with
      | EmptyString => if isWhitespace c then EmptyString else String c EmptyString
      | rest' => String c rest'
      end
  end.

Definition trim (s : string) : string := trimEnd (trimStart s).

(** [String.prototype.toLowerCase] on ASCII letters. *)
Definition lowerChar (c : ascii) : ascii :=
  let n := nat_of_ascii c in
  if ((65 <=? n)%nat && (n <=? 90)%nat) then ascii_of_nat (n + 32) else c.

Fixpoint toLowerCase (s : string) : string :=
  match s with
  | EmptyString => EmptyString
  | String c rest => String (lowerChar c) (toLowerCase rest)
  end.

(** [String.prototype.includes]. *)
Fixpoint includes (s sub : string) : bool :=
  prefix sub s ||
  match s with
  | EmptyString => false
  | String _ rest => includes rest sub
  end.

(** [s.split('\n')]: never empty, the last piece is what follows the last
    newline. *)
Fixpoint splitLines (s : string) : list string :=
  match s with
  | EmptyString => [EmptyString]
  | String c rest =>
      if Ascii.eqb c newline then EmptyString :: splitLines rest
      else match splitLines rest with
           | [] => [String c EmptyString]
           | l :: ls => String c l :: ls
           end
  end.

(** The first [replace] of a field (pattern: a double quote at the start of
    the string, or a double quote at its end; global flag): a double quote
    at the very start and a double quote at the very end are removed. *)
Definition stripLeadingQuote (s : string) : string :=
  match s with
  | String c rest => if Ascii.eqb c dquote then rest else s
  | EmptyString => EmptyString
  end.

Fixpoint stripTrailingQuote (s : string) : string :=
  match s with
  | EmptyString => EmptyString
  | String c EmptyString => if Ascii.eqb c dquote then EmptyString else s
  | String c rest => String c (stripTrailingQuote rest)
  end.

Definition stripQuotes (s : string) : string :=
  stripTrailingQuote (stripLeadingQuote s).

(** The second [replace] of a field (pattern: two double quotes; global
    flag): every pair of adjacent double quotes, scanning from the left
    without overlap, becomes one double quote. *)
Fixpoint collapseQuotes (s : string) : string :=
  match s with
  | EmptyString => EmptyString
  | String c rest =>
      match rest with
      | String c' rest' =>
          if Ascii.eqb c dquote && Ascii.eqb c' dquote
          then String dquote (collapseQuotes rest')
          else String c (collapseQuotes rest)
      | EmptyString => s
      end
  end.

(** Membership of a code unit in a string. *)
Fixpoint hasChar (c : ascii) (s : string) : bool :=
  match s with
  | EmptyString => false
  | String c' rest => Ascii.eqb c' c || hasChar c rest
  end.

End JsString.

(** ** TabularRecordParser: [splitCSVLine] and [parseCSV] *)

Module Csv.

Import JsString.
Local Open Scope string_scope.
Local Open Scope bool_scope.

(** The expression pushed for every field: [current.trim()] followed by
    the two [replace] calls. *)
Definition cleanField (current : string) : string :=
  collapseQuotes (stripQuotes (trim current)).

(** The [for] loop of [splitCSVLine] over the remaining characters, with
    its three variables. *)
Fixpoint splitLoop (line : string) (result : list string) (current : string)
    (inQuotes : bool) : list string :=
  match line with
  | EmptyString => (result ++ [cleanField current])%list
  | String char rest =>
      if Ascii.eqb char dquote then
        splitLoop rest result current (negb inQuotes)
      else if Ascii.eqb char comma && negb inQuotes then
        splitLoop rest (result ++ [cleanField current])%list EmptyString inQuotes
      else
        splitLoop rest result (current ++ String char EmptyString) inQuotes
  end.

Definition splitCSVLine (line : string) : list string :=
  splitLoop line [] EmptyString false.

(** A parsed row: the object [obj] as the list of its own (key, value)
    properties in creation order; setting a property that exists
    overwrites it in place. *)
Definition row := list (string * string).

Fixpoint setProp (obj : row) (k v : string) : row :=
  match obj with
  | [] => [(k, v)]
  | (k', v') :: obj' =>
      if String.eqb k' k then (k, v) :: obj' else (k', v') :: setProp obj' k v
  end.

Fixpoint getProp (obj : row) (k : string) : option string :=
  match obj with
  | [] => None
  | (k', v) :: obj' => if String.eqb k' k then Some v else getProp obj' k
  end.

(** The assignment [obj[header] = value] of a string to a plain object:
    the key [__proto__] is the accessor of [Object.prototype], whose setter
    ignores a value that is not an object, so that no property is created;
    every other key creates or overwrites an own property. *)
Definition protoKey : string := "__proto__".

Definition assign (obj : row) (k v : string) : row :=
  if String.eqb k protoKey then obj else setProp obj k v.

(** [headers.forEach((header, index) => obj[header] = values[index])];
    only called with at least as many values as headers. *)
Fixpoint fillRow (obj : row) (headers values : list string) : row :=
  match headers, values with
  | h :: hs, v :: vs => fillRow (assign obj h v) hs vs
  | _, _ => obj
  end.

(** [Array.prototype.findIndex], [None] for [-1]. *)
Fixpoint findIndex {A : Type} (p : A -> bool) (l : list A) : option nat :=
  match l with
  | [] => None
  | x :: l' => if p x then Some 0 else option_map S (findIndex p l')
  end.

Definition hasKeyword (lowerLine : string) : bool :=
  includes lowerLine "date" || includes lowerLine "time" ||
  includes lowerLine "count" || includes lowerLine "efficiency" ||
  includes lowerLine "duration" || includes lowerLine "step".

Definition isWide (line : string) : bool :=
  (5 <? List.length (splitCSVLine line))%nat.

(** The test of the header loop on one line. *)
Definition isHeaderLine (line : string) : bool :=
  let lowerLine := toLowerCase line in
  let columns := splitCSVLine line in
  (5 <? List.length columns)%nat && hasKeyword lowerLine.

(** [headerLineIndex] after the loop over the first [min(lines.length, 12)]
    lines and the fallback [lines.findIndex]. *)
Definition headerLineIndex (lines : list string) : option nat :=
  match findIndex isHeaderLine (firstn 12 lines) with
  | Some i => Some i
  | None => findIndex isWide lines
  end.

(** The body of the row loop for one line after the header. *)
Definition parseRow (headers : list string) (rawLine : string) : list row :=
  let line := trim rawLine in
  if String.eqb line EmptyString then []
  else
    let values := splitCSVLine line in
    if (List.length values <? List.length headers)%nat then []
    else [fillRow [] headers values].

(** [parseCSV] once [lines] is bound. *)
Definition parseLines (lines : list string) : list row :=
  if (List.length lines <? 2)%nat then []
  else
    match headerLineIndex lines with
    | None => []
    | Some h =>
        let headers := splitCSVLine (nth h lines EmptyString) in
        flat_map (parseRow headers) (skipn (S h) lines)
    end.

Definition parseCSV (csvText : string) : list row :=
  parseLines (splitLines csvText).

(** Notions for the statements: a text without double quote, a text put
    between double quotes, and lines joined by newlines. *)
Definition quoteFree (s : string) : Prop := hasChar dquote s = false.

Definition quoted (s : string) : string :=
  String dquote (s ++ String dquote EmptyString).

(** The two lines of the quote-aware split examples and the header line of
    the header detection example. *)
Definition quotedCommaLine : string := "a," ++ quoted "b,c" ++ ",d".

Definition escapedQuoteLine : string :=
  quoted ("he said " ++ quoted (quoted "hi")).

Definition exampleHeaderLine : string :=
  "Date,Count,Calorie,Distance,Speed,Source".

Definition exampleHeaders : list string :=
  ["Date"; "Count"; "Calorie"; "Distance"; "Speed"; "Source"].

Definition exampleJunk : list string :=
  ["com.samsung.shealth.step_daily_trend,6314003,5"; "exported file"; EmptyString].

Definition exampleRows : list string :=
  ["2024-01-01,100,5,80,1,-2"; "oops,7"; "2024-01-02,200,9,150,1,-2,extra"].

Fixpoint joinLines (lines : list string) : string :=
  match lines with
  | [] => EmptyString
  | [l] => l
  | l :: ls => l ++ String newline (joinLines ls)
  end.

Definition exampleBlob : string :=
  joinLines (exampleJunk ++ exampleHeaderLine :: exampleRows).

End Csv.

(** ** Arrays and numbers *)

Module JsArray.

Local Open Scope Q_scope.

Definition Qltb (x y : Q) : bool := negb (Qle_bool y x).

(** [Array.prototype.sort(compare)]: [a] goes before [b] when
    [compare(a, b) < 0] and elements that compare equal keep their order. *)
Fixpoint insertBy {A : Type} (compare : A -> A -> Q) (x : A) (l : list A)
    : list A :=
  match l with
  | [] => [x]
  | y :: l' =>
      if Qle_bool (compare x y) 0 then x :: l else y :: insertBy compare x l'
  end.

Definition sortBy {A : Type} (compare : A -> A -> Q) (l : list A) : list A :=
  fold_right (insertBy compare) [] l.

(** The order a comparator stands for: [a] is not placed after [b]. *)
Definition notAfter {A : Type} (compare : A -> A -> Q) (a b : A) : Prop :=
  compare a b <= 0.

(** [a.localeCompare(b)] on ASCII keys such as ISO dates: the sign of the
    lexicographic comparison of the code units. *)
Definition localeCompare (a b : string) : Q :=
  match String.compare a b with
  | Lt => -1
  | Eq => 0
  | Gt => 1
  end.

(** [Math.round]: the nearest integer, halves go up. *)
Definition mathRound (x : Q) : Q := inject_Z (Qfloor (x + (1 # 2))).

(** Conversion of a time value to an integral number of milliseconds
    ([new Date(t).getTime()]): truncation towards zero. *)
Definition toIntegerMs (t : Q) : Z :=
  if Qle_bool 0 t then Qfloor t else Qceiling t.

Definition Qsum (l : list Q) : Q := fold_left Qplus l 0.

End JsArray.

(** ** SleepReconciler *)

Module Sleep.

Import JsString JsArray.
Local Open Scope Q_scope.

(** A raw sleep row after field access and coercion.  The string-to-number
    and string-to-date conversions ([parseFloat], [new Date], [parseOffset])
    are taken as done.  The row has a start field; a row without one, on
    which the enrichment raises an exception, is in [Upload]. *)
Record SleepRow : Type := mkSleepRow {
  fileName : string;        (* s._fileName or the empty string *)
  offsetMinutes : Z;        (* parseOffset(offsetStr) *)
  startMs : option Z;       (* start.getTime(); None is NaN *)
  endMs : option Z;         (* end.getTime(): Some 0 when the row has no end
                               field, None when it does not parse *)
  durationField : Q;        (* the parseFloat chain for the duration, else 0 *)
  efficiencyField : Q;      (* the parseFloat chain for the efficiency, else 0 *)
  scoreField : Q            (* the parseFloat chain for the sleep score, else 0 *)
}.

(** The enriched record, fields named as in the source. *)
Record Session : Type := mkSession {
  _start : Z;
  _end : Z;
  _duration : Q;
  _rawDuration : Q;
  _efficiency : Q;
  _score : Q;
  _isCombined : bool
}.

Definition isCombinedFile (name : string) : bool :=
  includes (toLowerCase name) "combined".

(** [rawDuration] after the millisecond rescaling. *)
Definition rescaleDuration (d : Q) : Q :=
  if Qltb 1440 d then d / 60000 else d.

(** Is the end instant unusable ([NaN], or not after the start)? *)
Definition endUnusable (start : Z) (e : option Z) : bool :=
  match e with
  | None => true
  | Some e => (e <=? start)%Z
  end.

(** [rawDuration] after the whole [if / else if]. *)
Definition resolveRawDuration (start : Z) (e : option Z) (d : Q) : Q :=
  let rawDuration := rescaleDuration d in
  if endUnusable start e then rawDuration
  else if Qeq_bool rawDuration 0 then
    match e with
    | Some e => inject_Z (e - start) / 60000
    | None => rawDuration
    end
  else rawDuration.

Definition normalizeEfficiency (e : Q) : Q :=
  if Qltb 0 e && Qle_bool e 1 then e * 100 else e.

(** [(end.getTime() - start.getTime()) / 60000]; [None] is NaN. *)
Definition span (start : Z) (e : option Z) : option Q :=
  option_map (fun e => inject_Z (e - start) / 60000) e.

(** [Math.abs(span - rawDuration) < 5], false on NaN. *)
Definition spanMatches (sp : option Q) (rawDuration : Q) : bool :=
  match sp with
  | None => false
  | Some sp => Qltb (Qabs (sp - rawDuration)) 5
  end.

Definition resolveAsleepTime (isCombined : bool) (efficiency : Q)
    (sp : option Q) (rawDuration : Q) : Q :=
  if negb isCombined && Qltb 0 efficiency && Qltb efficiency 100 then
    if spanMatches sp rawDuration then rawDuration * (efficiency / 100)
    else rawDuration
  else rawDuration.

(** The callback of [data.sleep.map]; [None] is [null]. *)
Definition enrich (s : SleepRow) : option Session :=
  match startMs s with
  | None => None
  | Some start =>
      let isCombined := isCombinedFile (fileName s) in
      let rawDuration := resolveRawDuration start (endMs s) (durationField s) in
      let localStart := (start + offsetMinutes s * 60000)%Z in
      let localEnd :=
        if endUnusable start (endMs s) then
          toIntegerMs (inject_Z localStart + rawDuration * 60000)
        else
          match endMs s with
          | Some e => (e + offsetMinutes s * 60000)%Z
          | None => localStart
          end in
      let efficiency := normalizeEfficiency (efficiencyField s) in
      let asleepTime :=
        resolveAsleepTime isCombined efficiency (span start (endMs s)) rawDuration in
      Some {| _start := localStart; _end := localEnd;
              _duration := asleepTime; _rawDuration := rawDuration;
              _efficiency := efficiency; _score := scoreField s;
              _isCombined := isCombined |}
  end.

(** [.filter(s => s !== null && s._duration > 0)] after the [map]. *)
Definition enrichedSleep (rows : list SleepRow) : list Session :=
  flat_map (fun s => match enrich s with
                     | Some r => if Qltb 0 (_duration r) then [r] else []
                     | None => []
                     end) rows.

(** The comparator of [enrichedSleep.sort]. *)
Definition sleepCompare (a b : Session) : Q :=
  if _isCombined a && negb (_isCombined b) then -1
  else if negb (_isCombined a) && _isCombined b then 1
  else _duration b - _duration a.

(** Minutes of intersection of the two time ranges. *)
Definition overlapDuration (record kept : Session) : Q :=
  let overlapStart := Z.max (_start record) (_start kept) in
  let overlapEnd := Z.min (_end record) (_end kept) in
  inject_Z (Z.max 0 (overlapEnd - overlapStart)) / 60000.

(** The callback of [keptSleep.some]. *)
Definition covers (record kept : Session) : bool :=
  Qltb (8 # 10) (overlapDuration record kept / _duration record).

Definition isEncapsulated (keptSleep : list Session) (record : Session) : bool :=
  existsb (covers record) keptSleep.

(** One iteration of [enrichedSleep.forEach]. *)
Definition dedupStep (keptSleep : list Session) (record : Session)
    : list Session :=
  if isEncapsulated keptSleep record then keptSleep
  else keptSleep ++ [record].

(** [keptSleep] after sorting the candidates and running the loop. *)
Definition dedup (candidates : list Session) : list Session :=
  fold_left dedupStep (sortBy sleepCompare candidates) [].

Definition processedSleep (rows : list SleepRow) : list Session :=
  dedup (enrichedSleep rows).

(** The priority the sort gives: a combined session before any other, and
    among sessions of the same kind the longer asleep time first. *)
Definition hasPriority (a b : Session) : Prop :=
  (_isCombined a = true /\ _isCombined b = false) \/
  (_isCombined a = _isCombined b /\ _duration b <= _duration a).




(** The counterexample of the 80 percent boundary: a combined session of
    80 minutes and another session of 100 minutes starting together. *)
Definition combined80 : Session :=
  {| _start := 0; _end := 4800000; _duration := 80; _rawDuration := 80;
     _efficiency := 0; _score := 0; _isCombined := true |}.

Definition single100 : Session :=
  {| _start := 0; _end := 6000000; _duration := 100; _rawDuration := 100;
     _efficiency := 100; _score := 0; _isCombined := false |}.

(** The counterexample of the range: a session whose recorded duration of
    600 minutes exceeds its range of 100 minutes, and a combined session
    over the same range. *)
Definition single600 : Session :=
  {| _start := 0; _end := 6000000; _duration := 600; _rawDuration := 600;
     _efficiency := 0; _score := 0; _isCombined := false |}.

Definition combined100 : Session :=
  {| _start := 0; _end := 6000000; _duration := 100; _rawDuration := 100;
     _efficiency := 0; _score := 0; _isCombined := true |}.

(** The rows these four sessions are the enrichment of. *)
Definition sessionRow (name : string) (last : Z) (d efficiency : Q) : SleepRow :=
  {| fileName := name; offsetMinutes := 0;
     startMs := Some 0%Z; endMs := Some last;
     durationField := d; efficiencyField := efficiency; scoreField := 0 |}.

Definition counterexampleRows : list SleepRow :=
  [sessionRow "sleep_combined.csv" 4800000 80 0;
   sessionRow "sleep.csv" 6000000 100 100;
   sessionRow "sleep.csv" 6000000 600 0;
   sessionRow "sleep_combined.csv" 6000000 100 0].

(** A session of 100 minutes and a combined one covering 90 of them. *)
Definition combined90 : Session :=
  {| _start := 600000; _end := 6000000; _duration := 90; _rawDuration := 90;
     _efficiency := 0; _score := 0; _isCombined := true |}.

End Sleep.

(** ** Circular mean, clock formatting and Pearson correlation *)

Module Stats.

Local Open Scope R_scope.

(** [Math.atan2(y, x)]: the angle of the point [(x, y)], in the interval
    from [-PI] (excluded) to [PI] (included). *)
Definition atan2 (y x : R) : R :=
  if Rlt_dec 0 x then atan (y / x)
  else if Rlt_dec x 0 then
    if Rle_dec 0 y then atan (y / x) + PI else atan (y / x) - PI
  else if Rlt_dec 0 y then PI / 2
  else if Rlt_dec y 0 then - (PI / 2)
  else 0.

(** The body of [minutesArray.forEach] on the pair [(sinSum, cosSum)]. *)
Definition accumulateAngle (sums : R * R) (m : R) : R * R :=
  let angle := (m / 1440) * 2 * PI in
  (fst sums + sin angle, snd sums + cos angle).

Definition calculateCircularAverage (minutesArray : list R) : R :=
  match minutesArray with
  | [] => 0
  | _ =>
      let n := INR (List.length minutesArray) in
      let sums := fold_left accumulateAngle minutesArray (0, 0) in
      let sinSum := fst sums in
      let cosSum := snd sums in
      let avgAngle := atan2 (sinSum / n) (cosSum / n) in
      let avgAngle := if Rlt_dec avgAngle 0 then avgAngle + 2 * PI else avgAngle in
      (avgAngle / (2 * PI)) * 1440
  end.

(** The remainder operator on numbers: the result has the sign of the
    dividend. *)
Definition truncateR (x : R) : Z :=
  if Rle_dec 0 x then Zfloor x else Zceil x.

Definition remainder (x d : R) : R := x - d * IZR (truncateR (x / d)).

(** [Math.round] of a number, as an integer. *)
Definition roundR (x : R) : Z := Zfloor (x + / 2).

(** [n.toString()] of an integer. *)
Definition toString (n : Z) : string := NilZero.string_of_int (Z.to_int n).

(** [s.padStart(2, '0')]. *)
Definition padStart2 (s : string) : string :=
  match s with
  | EmptyString => "00"%string
  | String c EmptyString => String "0"%char s
  | _ => s
  end.

Definition placeholder : string := "--:--"%string.

Definition formatToHHmm (minutes : R) : string :=
  if Req_dec_T minutes 0 then placeholder
  else
    let h := Z.rem (Zfloor (minutes / 60)) 24 in
    let m := roundR (remainder minutes 60) in
    (padStart2 (toString h) ++ ":" ++ padStart2 (toString m))%string.

(** The shape of a clock string: two digits, a colon, two digits. *)
Definition isDigit (c : ascii) : bool :=
  let n := nat_of_ascii c in (48 <=? n)%nat && (n <=? 57)%nat.

Definition twoDigits (s : string) : bool :=
  match s with
  | String a (String b EmptyString) => isDigit a && isDigit b
  | _ => false
  end.

Definition clockShaped (s : string) : bool :=
  match s with
  | String a (String b (String c rest)) =>
      isDigit a && isDigit b && Ascii.eqb c ":"%char && twoDigits rest
  | _ => false
  end.

(** [avgBedTime] and [avgWakeTime] of a year: the formatted circular
    average of the bed times (wake times) of its sleep days. *)
Definition avgClockTime (samples : list R) : string :=
  formatToHHmm (calculateCircularAverage samples).

(** The reductions of [calculateCorrelation]. *)
Definition sumOf (x : list R) : R := fold_left (fun a b => a + b) x 0.

Definition sumOfProducts (x y : list R) : R :=
  fold_left (fun sum p => sum + fst p * snd p) (combine x y) 0.

Definition sumOfSquares (x : list R) : R :=
  fold_left (fun sum xi => sum + xi * xi) x 0.

Definition calculateCorrelation (x y : list R) : R :=
  if negb (List.length x =? List.length y)%nat || (List.length x =? 0)%nat then 0
  else
    let n := INR (List.length x) in
    let sumX := sumOf x in
    let sumY := sumOf y in
    let sumXY := sumOfProducts x y in
    let sumX2 := sumOfSquares x in
    let sumY2 := sumOfSquares y in
    let numerator := n * sumXY - sumX * sumY in
    let denominator :=
      sqrt ((n * sumX2 - sumX * sumX) * (n * sumY2 - sumY * sumY)) in
    if Req_dec_T denominator 0 then 0 else numerator / denominator.

(** The statistics the specification speaks of. *)
Fixpoint total (x : list R) : R :=
  match x with
  | [] => 0
  | a :: x' => a + total x'
  end.

Definition mean (x : list R) : R := total x / INR (List.length x).

Definition variance (x : list R) : R :=
  total (map (fun xi => (xi - mean x) * (xi - mean x)) x) / INR (List.length x).

End Stats.

(** ** WellnessAggregator: the per-day reductions of one year *)

Module Wellness.

Import JsArray.
Local Open Scope Q_scope.

(** A number that may be [NaN] or infinite. *)
Inductive number : Type :=
| Num (q : Q)
| NaN
| PosInfinity
| NegInfinity.

(** [a / b] of two finite numbers. *)
Definition divide (a b : Q) : number :=
  if Qeq_bool b 0 then
    if Qeq_bool a 0 then NaN
    else if Qltb 0 a then PosInfinity else NegInfinity
  else Num (a / b).

(** [Math.round] on a number. *)
Definition round (x : number) : number :=
  match x with
  | Num q => Num (mathRound q)
  | _ => x
  end.

(** [x > 0]. *)
Definition positive (x : number) : bool :=
  match x with
  | Num q => Qltb 0 q
  | PosInfinity => true
  | NaN | NegInfinity => false
  end.

Definition isFinite (x : number) : bool :=
  match x with
  | Num _ => true
  | _ => false
  end.

(** [Math.min] of two numbers and of an argument list; the minimum of no
    argument is [Infinity]. *)
Definition min2 (a b : number) : number :=
  match a, b with
  | NaN, _ | _, NaN => NaN
  | NegInfinity, _ | _, NegInfinity => NegInfinity
  | PosInfinity, x | x, PosInfinity => x
  | Num p, Num q => if Qle_bool p q then Num p else Num q
  end.

Definition mathMin (args : list number) : number :=
  fold_left min2 args PosInfinity.

(** One day bucket: the day key and the samples pushed for it. *)
Definition bucket : Type := string * list Q.

(** [if (!buckets[day]) buckets[day] = []] followed by the pushes of one
    record: keys keep their creation order. *)
Fixpoint pushSamples (buckets : list bucket) (day : string) (vals : list Q)
    : list bucket :=
  match buckets with
  | [] => [(day, vals)]
  | (d, vs) :: rest =>
      if String.eqb d day then (d, vs ++ vals) :: rest
      else (d, vs) :: pushSamples rest day vals
  end.

(** A wellness row of the year being built, after field access: its day
    key, the values of the samples of the bin file it references when that
    file was loaded (0 for a sample without the value), and its own flat
    value when the field is present. *)
Record WellnessRow : Type := mkWellnessRow {
  day : string;
  binValues : option (list Q);
  flatValue : option Q
}.

(** Only truthy values are pushed: [if (b.rmssd) ...push(b.rmssd)]. *)
Definition truthy (v : Q) : bool := negb (Qeq_bool v 0).

(** Heart rate and stress: the bin samples if there is a bin, else the flat
    value. *)
Definition samplesBinOrFlat (r : WellnessRow) : list Q :=
  match binValues r with
  | Some bin => filter truthy bin
  | None => match flatValue r with
            | Some v => [v]
            | None => []
            end
  end.

(** HRV: bin samples only. *)
Definition samplesBinOnly (r : WellnessRow) : list Q :=
  match binValues r with
  | Some bin => filter truthy bin
  | None => []
  end.

(** SpO2: the flat value only. *)
Definition samplesFlatOnly (r : WellnessRow) : list Q :=
  match flatValue r with
  | Some v => [v]
  | None => []
  end.

Definition collect (samples : WellnessRow -> list Q) (rows : list WellnessRow)
    : list bucket :=
  fold_left (fun buckets r => pushSamples buckets (day r) (samples r)) rows [].

(** The day value of heart rate: the sample at index [floor(length * 0.1)]
    of the sorted samples, 0 when there is none, rounded. *)
Definition restingValue (vals : list Q) : number :=
  let sorted := sortBy (fun a b => a - b) vals in
  let index := Z.to_nat (Qfloor (inject_Z (Z.of_nat (List.length vals)) * (1 # 10))) in
  Num (mathRound (nth index sorted 0)).

(** The day value of HRV and stress: [Math.round(sum / vals.length)]. *)
Definition meanValue (vals : list Q) : number :=
  round (divide (Qsum vals) (inject_Z (Z.of_nat (List.length vals)))).

(** The day value of SpO2: [Math.round(Math.min(...vals))]. *)
Definition lowestValue (vals : list Q) : number :=
  round (mathMin (map Num vals)).

(** A point of a per-day series. *)
Definition point : Type := string * number.

Definition byDate {V : Type} (a b : string * V) : Q :=
  localeCompare (fst a) (fst b).

(** [Object.entries(buckets).map(...).filter(d => d.value > 0).sort(...)]. *)
Definition dailySeries (value : list Q -> number) (buckets : list bucket)
    : list point :=
  sortBy byDate
    (filter (fun d => positive (snd d))
       (map (fun b => (fst b, value (snd b))) buckets)).

Definition dailyHRData (rows : list WellnessRow) : list point :=
  dailySeries restingValue (collect samplesBinOrFlat rows).
Definition dailyHRVData (rows : list WellnessRow) : list point :=
  dailySeries meanValue (collect samplesBinOnly rows).
Definition dailyStressData (rows : list WellnessRow) : list point :=
  dailySeries meanValue (collect samplesBinOrFlat rows).
Definition dailySpO2Data (rows : list WellnessRow) : list point :=
  dailySeries lowestValue (collect samplesFlatOnly rows).

(** Sum of the values of a series, starting from 0. *)
Definition plus (a b : number) : number :=
  match a, b with
  | NaN, _ | _, NaN => NaN
  | PosInfinity, NegInfinity | NegInfinity, PosInfinity => NaN
  | PosInfinity, _ | _, PosInfinity => PosInfinity
  | NegInfinity, _ | _, NegInfinity => NegInfinity
  | Num p, Num q => Num (p + q)
  end.

Definition over (a : number) (n : nat) : number :=
  match a with
  | Num p => divide p (inject_Z (Z.of_nat n))
  | _ => a
  end.

(** [series.length > 0 ? Math.round(sum / series.length) : 0]. *)
Definition seriesAverage (series : list point) : number :=
  match series with
  | [] => Num 0
  | _ => round (over (fold_left (fun s d => plus s (snd d)) series (Num 0))
                     (List.length series))
  end.

(** [series.length > 0 ? Math.min(...series.map(d => d.value)) : 0]. *)
Definition seriesMinimum (series : list point) : number :=
  match series with
  | [] => Num 0
  | _ => mathMin (map snd series)
  end.

(** The rows of the examples: an HRV row whose bin file was not loaded, and
    an oxygen-saturation row without value. *)
Definition hrvRowWithoutBin : WellnessRow :=
  mkWellnessRow "2024-03-01" None None.

Definition spo2RowWithoutValue : WellnessRow :=
  mkWellnessRow "2024-03-01" None None.

End Wellness.

(** ** AllTimeAggregator *)

Module Years.

Import JsArray Wellness.
Local Open Scope Q_scope.

(** [{ count, date }]: [bestDay] and [personalRecords.mostStepsDay]. *)
Record DayCount : Type := mkDayCount { count : Q; date : string }.

(** [{ name, steps }]: [bestMonth]. *)
Record MonthSteps : Type := mkMonthSteps { name : string; steps : Q }.

(** [{ duration, type, date }]: [personalRecords.longestWorkout]. *)
Record Workout : Type := mkWorkout {
  duration : Q; type : string; workoutDate : string
}.

(** [{ score, date }]: [personalRecords.bestSleepScore]. *)
Record SleepScore : Type := mkSleepScore { score : Q; scoreDate : string }.

Record PersonalRecords : Type := mkPersonalRecords {
  mostStepsDay : DayCount;
  longestWorkout : Workout;
  bestSleepScore : SleepScore
}.

(** The fields of [YearStats] the aggregation sums, averages, maximises or
    merges.  A per-day series is a list of (date, value) points; the value
    of a workout day is (duration, calories, distance). *)
Record YearStats : Type := mkYearStats {
  year : string;
  totalSteps : Q;
  dailyAvg : Q;
  totalCalories : Q;
  totalDistance : Q;
  avgSpeed : Q;
  bestDay : DayCount;
  bestMonth : MonthSteps;
  avgSleepDuration : Q;
  avgEfficiency : Q;
  avgSleepScore : Q;
  totalWorkouts : Q;
  avgRestingHR : Q;
  avgHRV : Q;
  avgStress : Q;
  minSpO2 : number;
  dailyStepData : list (string * Q);
  dailySleepData : list (string * Q);
  dailySleepScoreData : list (string * Q);
  dailyHRData : list point;
  dailyHRVData : list point;
  dailyStressData : list point;
  dailySpO2Data : list point;
  totalWorkoutDuration : Q;
  totalWorkoutCalories : Q;
  totalWorkoutDistance : Q;
  dailyWorkoutData : list (string * (Q * Q * Q));
  personalRecords : PersonalRecords
}.

(** [allYears.reduce((sum, y) => sum + y.f, 0)]. *)
Definition sumOver (f : YearStats -> Q) (allYears : list YearStats) : Q :=
  fold_left (fun sum y => sum + f y) allYears 0.

Definition lengthOf (allYears : list YearStats) : Q :=
  inject_Z (Z.of_nat (List.length allYears)).

(** [allYears.reduce((sum, y) => sum + y.f, 0) / allYears.length]. *)
Definition meanOver (f : YearStats -> Q) (allYears : list YearStats) : Q :=
  sumOver f allYears / lengthOf allYears.

(** [allYears.reduce((best, y) => y.f.key > best.key ? y.f : best, init)]. *)
Definition bestOver {B : Type} (key : B -> Q) (f : YearStats -> B) (init : B)
    (allYears : list YearStats) : B :=
  fold_left (fun best y => if Qltb (key best) (key (f y)) then f y else best)
            allYears init.

(** [allYears.flatMap(y => y.f).sort((a, b) => a.date.localeCompare(b.date))]. *)
Definition mergeSeries {V : Type} (f : YearStats -> list (string * V))
    (allYears : list YearStats) : list (string * V) :=
  sortBy byDate (flat_map f allYears).

(** The object stored under the key All Time. *)
Definition allTime (allYears : list YearStats) : YearStats :=
  {| year := "All Time";
     totalSteps := sumOver totalSteps allYears;
     dailyAvg := mathRound (meanOver dailyAvg allYears);
     totalCalories := sumOver totalCalories allYears;
     totalDistance := sumOver totalDistance allYears;
     avgSpeed := mathRound (meanOver avgSpeed allYears * 10) / 10;
     bestDay := bestOver count bestDay (mkDayCount 0 EmptyString) allYears;
     bestMonth := bestOver steps bestMonth (mkMonthSteps EmptyString 0) allYears;
     avgSleepDuration := meanOver avgSleepDuration allYears;
     avgEfficiency := mathRound (meanOver avgEfficiency allYears);
     avgSleepScore := mathRound (meanOver avgSleepScore allYears);
     totalWorkouts := sumOver totalWorkouts allYears;
     avgRestingHR := mathRound (meanOver avgRestingHR allYears);
     avgHRV := mathRound (meanOver avgHRV allYears);
     avgStress := mathRound (meanOver avgStress allYears);
     minSpO2 := mathMin (filter positive (map minSpO2 allYears));
     dailyStepData := mergeSeries dailyStepData allYears;
     dailySleepData := mergeSeries dailySleepData allYears;
     dailySleepScoreData := mergeSeries dailySleepScoreData allYears;
     dailyHRData := mergeSeries dailyHRData allYears;
     dailyHRVData := mergeSeries dailyHRVData allYears;
     dailyStressData := mergeSeries dailyStressData allYears;
     dailySpO2Data := mergeSeries dailySpO2Data allYears;
     totalWorkoutDuration := sumOver totalWorkoutDuration allYears;
     totalWorkoutCalories := sumOver totalWorkoutCalories allYears;
     totalWorkoutDistance := sumOver totalWorkoutDistance allYears;
     dailyWorkoutData := mergeSeries dailyWorkoutData allYears;
     personalRecords :=
       {| mostStepsDay :=
            bestOver count (fun y => mostStepsDay (personalRecords y))
                     (mkDayCount 0 EmptyString) allYears;
          longestWorkout :=
            bestOver duration (fun y => longestWorkout (personalRecords y))
                     (mkWorkout 0 EmptyString EmptyString) allYears;
          bestSleepScore :=
            bestOver score (fun y => bestSleepScore (personalRecords y))
                     (mkSleepScore 0 EmptyString) allYears |} |}.

(** Notions for the statements: the sum and the arithmetic mean of a list
    of values, and the order of two points of a series by date. *)
Fixpoint total (l : list Q) : Q :=
  match l with
  | [] => 0
  | a :: l' => a + total l'
  end.

Definition average (l : list Q) : Q :=
  total l / inject_Z (Z.of_nat (List.length l)).

Definition dateOrder {V : Type} (a b : string * V) : Prop :=
  String.compare (fst a) (fst b) <> Gt.

(** [best] is a best-of value of the years: no year has a larger key, and
    [best] is the starting value or the value of one of the years. *)
Definition bestOf {B : Type} (key : B -> Q) (f : YearStats -> B) (init : B)
    (allYears : list YearStats) (best : B) : Prop :=
  (forall y, In y allYears -> key (f y) <= key best) /\
  key init <= key best /\
  (best = init \/ exists y, In y allYears /\ best = f y).

(** A merged series: sorted by date and made of the points of the years. *)
Definition merged {V : Type} (f : YearStats -> list (string * V))
    (allYears : list YearStats) (series : list (string * V)) : Prop :=
  StronglySorted dateOrder series /\
  Permutation (flat_map f allYears) series.

(** A year of which only the step counts, the sleep efficiency and the SpO2
    minimum are given, everything else being zero or empty. *)
Definition yearOf (label : string) (stepCounts : list Q) (efficiency : Q)
    (spo2 : number) : YearStats :=
  {| year := label;
     totalSteps := fold_left Qplus stepCounts 0;
     dailyAvg := 0; totalCalories := 0; totalDistance := 0; avgSpeed := 0;
     bestDay := mkDayCount 0 EmptyString; bestMonth := mkMonthSteps EmptyString 0;
     avgSleepDuration := 0; avgEfficiency := efficiency; avgSleepScore := 0;
     totalWorkouts := 0;
     avgRestingHR := 0; avgHRV := 0; avgStress := 0;
     minSpO2 := spo2;
     dailyStepData := []; dailySleepData := []; dailySleepScoreData := [];
     dailyHRData := []; dailyHRVData := []; dailyStressData := [];
     dailySpO2Data := [];
     totalWorkoutDuration := 0; totalWorkoutCalories := 0;
     totalWorkoutDistance := 0;
     dailyWorkoutData := [];
     personalRecords :=
       mkPersonalRecords (mkDayCount 0 EmptyString) (mkWorkout 0 EmptyString EmptyString)
                         (mkSleepScore 0 EmptyString) |}.

(** Two years with step counts 100, 200 and 300, efficiencies 85 and 90,
    and no SpO2 data. *)
Definition exampleYears : list YearStats :=
  [yearOf "2023" [100; 200] 85 (Num 0); yearOf "2024" [300] 90 (Num 0)].

End Years.

(** ** The pipeline: year discovery, one result per year, All Time *)

Module Pipeline.

Import JsArray Wellness.
Local Open Scope Q_scope.

(** The rows of [HealthData] with the calendar year their timestamp falls
    in; [None] is a [NaN] year (no or unparseable timestamp). *)
Record StepRow : Type := mkStepRow {
  stepYear : option Z;      (* the year of day_time, else of update_time *)
  deviceSource : bool;      (* source_type is '-2' or absent *)
  stepCount : Q             (* parseInt(s.count) || 0 *)
}.

Record TimedRow : Type := mkTimedRow {
  startYear : option Z;     (* new Date(start_time).getFullYear() *)
  sample : WellnessRow
}.

Record HealthData : Type := mkHealthData {
  steps : list StepRow;
  exercises : list (option Z);   (* the year of each exercise row's start *)
  sleep : list Sleep.SleepRow;
  heartRate : list TimedRow;
  stress : list TimedRow;
  oxygenSaturation : list TimedRow;
  hrv : list TimedRow
}.

(** [yearSteps] of one year and its [totalSteps]. *)
Definition yearSteps (data : HealthData) (yearInt : Z) : list StepRow :=
  filter (fun s => match stepYear s with
                   | Some y => (y =? yearInt)%Z && deviceSource s
                   | None => false
                   end) (steps data).

Definition totalStepsOf (rows : list StepRow) : Q :=
  fold_left (fun sum s => sum + stepCount s) rows 0.

(** [if (!isNaN(y)) yearSet.add(y)]: a [Set] keeps insertion order and no
    duplicate. *)
Definition addYear (yearSet : list Z) (y : option Z) : list Z :=
  match y with
  | None => yearSet
  | Some y => if existsb (Z.eqb y) yearSet then yearSet else yearSet ++ [y]
  end.

Definition yearLabel (y : Z) : string := NilZero.string_of_int (Z.to_int y).

(** What a call returns to its caller: a value, or an exception. *)
Inductive completion (A : Type) : Type :=
| Returns (v : A)
| Throws.
Arguments Returns {A} v.
Arguments Throws {A}.

Section Transform.

(** The calendar year of a time value in the ambient time zone. *)
Variable getFullYear : Z -> Z.

(** The body of [years.forEach]: the statistics of one year. *)
Variable buildYear : HealthData -> Z -> Years.YearStats.

Definition discoverYears (data : HealthData) : list Z :=
  let yearSet := fold_left (fun set s => addYear set (stepYear s)) (steps data) [] in
  let yearSet :=
    fold_left (fun set s => addYear set (Some (getFullYear (Sleep._start s))))
              (Sleep.processedSleep (sleep data)) yearSet in
  let yearSet := fold_left (fun set r => addYear set (startYear r)) (heartRate data) yearSet in
  let yearSet := fold_left (fun set r => addYear set (startYear r)) (hrv data) yearSet in
  fold_left addYear (exercises data) yearSet.

(** [Array.from(yearSet).sort()]: the default order, on the labels. *)
Definition years (data : HealthData) : list Z :=
  sortBy (fun a b => localeCompare (yearLabel a) (yearLabel b))
         (discoverYears data).

(** The mapping from year label to statistics, as the list of its entries;
    for four-digit years the entries are in the order [Object.values]
    enumerates them.  Every sleep row of [data] has a start field here: the
    exception that a row without one raises, and the warning logged when
    there is no year, are in [Upload.transformHealthData]. *)
Definition transformHealthData (data : HealthData)
    : completion (list (string * Years.YearStats)) :=
  match years data with
  | [] => Returns []
  | ys =>
      let result := map (fun y => (yearLabel y, buildYear data y)) ys in
      let allYears := map snd result in
      Returns (result ++ [("All Time"%string, Years.allTime allYears)])
  end.

End Transform.



Definition stepsOnlyData : HealthData :=
  {| steps := [mkStepRow (Some 2024%Z) true 100];
     exercises := []; sleep := []; heartRate := []; stress := [];
     oxygenSaturation := []; hrv := [] |}.

(** A builder that only fills the step total of the year. *)
Definition stepsOnlyYear (data : HealthData) (yearInt : Z) : Years.YearStats :=
  Years.yearOf (yearLabel yearInt)
               (map stepCount (yearSteps data yearInt)) 0 (Num 0).

(** The year of a time value in UTC, on the mean Gregorian year. *)
Definition utcYearApprox (ms : Z) : Z := (1970 + ms / 31556952000)%Z.

End Pipeline.

(** ** Notions for further properties of the parser *)

Module CsvNotions.

Import JsString.

(** The number of occurrences of a code unit in a string. *)
Fixpoint countChar (c : ascii) (s : string) : nat :=
  match s with
  | EmptyString => 0
  | String c' rest => (if Ascii.eqb c' c then 1 else 0) + countChar c rest
  end.

(** A string that does not start with white space. *)
Definition startsClean (s : string) : Prop :=
  match s with
  | EmptyString => True
  | String c _ => isWhitespace c = false
  end.

(** A line of four fields, one of them empty, and a line with a quoted
    field between two plain fields. *)
Definition fourFieldLine : string := "a,b,,c"%string.

Definition paddedQuotedLine : string :=
  (" a" ++ String comma (Csv.quoted "b, c" ++ String comma "d "))%string.

End CsvNotions.

(** ** Time-zone offsets *)

Module Offset.

Import JsString.
Local Open Scope Z_scope.

Definition plusSign : ascii := "+"%char.
Definition minusSign : ascii := "-"%char.
Definition colon : ascii := ":"%char.

Definition isSign (c : ascii) : bool :=
  Ascii.eqb c plusSign || Ascii.eqb c minusSign.

(** The value of a decimal digit, [None] for any other code unit. *)
Definition digitValue (c : ascii) : option Z :=
  let n := Z.of_nat (nat_of_ascii c) in
  if (48 <=? n) && (n <=? 57) then Some (n - 48) else None.

(** [parseInt] of a group of two digits. *)
Definition twoDigitValue (a b : ascii) : option Z :=
  match digitValue a, digitValue b with
  | Some x, Some y => Some (10 * x + y)
  | _, _ => None
  end.

(** The pattern of [parseOffset] tried at the start of a string: a sign,
    two digits, an optional colon, two digits.  The result is the values of
    the two groups. *)
Definition matchHere (s : string) : option (Z * Z) :=
  match s with
  | String sign (String h1 (String h2 rest)) =>
      if isSign sign then
        match twoDigitValue h1 h2 with
        | Some hours =>
            let afterColon :=
              match rest with
              | String c rest' => if Ascii.eqb c colon then rest' else rest
              | EmptyString => rest
              end in
            match afterColon with
            | String m1 (String m2 _) =>
                match twoDigitValue m1 m2 with
                | Some minutes => Some (hours, minutes)
                | None => None
                end
            | _ => None
            end
        | None => None
        end
      else None
  | _ => None
  end.

(** [offsetStr.match(pattern)]: the leftmost match. *)
Fixpoint firstMatch (s : string) : option (Z * Z) :=
  match matchHere s with
  | Some groups => Some groups
  | None =>
      match s with
      | EmptyString => None
      | String _ rest => firstMatch rest
      end
  end.

Definition parseOffset (offsetStr : string) : Z :=
  if String.eqb offsetStr EmptyString then 0
  else
    match firstMatch offsetStr with
    | None => 0
    | Some (hours, minutes) =>
        let sign := if includes offsetStr "-" then -1 else 1 in
        sign * (hours * 60 + minutes)
    end.

(** A two-digit group written for a number below 100. *)
Definition twoDigitText (n : Z) : string :=
  Stats.padStart2 (Stats.toString n).

(** An offset text: a prefix, a sign, the hours, a colon or not, the
    minutes. *)
Definition offsetText (prefix : string) (sign : ascii) (hours : Z)
    (withColon : bool) (minutes : Z) : string :=
  (prefix ++ String sign (twoDigitText hours ++
     (if withColon then String colon EmptyString else EmptyString) ++
     twoDigitText minutes))%string.

(** A text with a hyphen before a positive offset. *)
Definition hyphenatedText : string := "Etc-x+0530"%string.

End Offset.

(** ** Streaks, calendar lengths and daily average *)

Module Calendar.

Import JsArray.
Local Open Scope Q_scope.

(** [1000 * 60 * 60 * 24] milliseconds. *)
Definition msPerDay : Z := (1000 * 60 * 60 * 24)%Z.

(** The variables of the streak loop: the date of index [i - 1],
    [longestStreak] and [currentStreak]. *)
Record StreakState : Type := mkStreakState {
  previousDate : Z;
  longestSoFar : Z;
  currentStreak : Z
}.

(** One iteration of the loop, on the date of index [i]. *)
Definition streakStep (st : StreakState) (date : Z) : StreakState :=
  let dayDiff := inject_Z (date - previousDate st) / inject_Z msPerDay in
  if Qle_bool dayDiff 1 then
    let current := (currentStreak st + 1)%Z in
    mkStreakState date (Z.max (longestSoFar st) current) current
  else
    mkStreakState date (longestSoFar st) 0.

(** The loop over already sorted dates. *)
Definition streakOfSorted (sortedStepDates : list Z) : Z :=
  match sortedStepDates with
  | [] => 0%Z
  | first :: rest =>
      longestSoFar (fold_left streakStep rest (mkStreakState first 0 0))
  end.

(** The comparator [a.getTime() - b.getTime()]. *)
Definition dateCompare (a b : Z) : Q := inject_Z (a - b).

(** [longestStreak] of the time values of the step records of a year. *)
Definition longestStreak (stepDates : list Z) : Z :=
  streakOfSorted (sortBy dateCompare stepDates).

(** Dates in ascending order in which every date is at most one day after
    the one before. *)
Fixpoint dailyRun (previous : Z) (dates : list Z) : Prop :=
  match dates with
  | [] => True
  | date :: rest =>
      (previous <= date <= previous + msPerDay)%Z /\ dailyRun date rest
  end.

Definition isDailyRun (dates : list Z) : Prop :=
  match dates with
  | [] => True
  | first :: rest => dailyRun first rest
  end.

Fixpoint lastDate (first : Z) (rest : list Z) : Z :=
  match rest with
  | [] => first
  | date :: rest' => lastDate date rest'
  end.

(** The leap-year test and the number of days the daily average divides
    by: the days elapsed since January 1st for the current year (given by
    the clock), else the length of the year. *)
Definition isLeap (yearInt : Z) : bool :=
  ((Z.rem yearInt 4 =? 0)%Z && negb (Z.rem yearInt 100 =? 0)%Z)
  || (Z.rem yearInt 400 =? 0)%Z.

Definition yearLength (yearInt : Z) : Z :=
  if isLeap yearInt then 366%Z else 365%Z.

Definition daysInYear (currentYear msSinceJanuaryFirst yearInt : Z) : Z :=
  if (yearInt =? currentYear)%Z then (msSinceJanuaryFirst / msPerDay)%Z
  else yearLength yearInt.

(** [Math.round(totalSteps / Math.max(daysInYear, 1))]. *)
Definition dailyAvg (totalSteps : Q) (days : Z) : Q :=
  mathRound (totalSteps / inject_Z (Z.max days 1)).

(** The days of a range of years that are all in the past. *)
Fixpoint daysOfYears (currentYear msSinceJanuaryFirst first : Z) (count : nat)
    : Z :=
  match count with
  | O => 0%Z
  | S count' =>
      (daysInYear currentYear msSinceJanuaryFirst first
       + daysOfYears currentYear msSinceJanuaryFirst (first + 1) count')%Z
  end.

(** The lengths of [count] successive years from [first]. *)
Fixpoint calendarDays (first : Z) (count : nat) : Z :=
  match count with
  | O => 0%Z
  | S count' => (yearLength first + calendarDays (first + 1) count')%Z
  end.

(** Four days of January 2024, the fourth missing: 1st, 2nd, 3rd, 5th. *)
Definition januaryDates : list Z :=
  [1704067200000; 1704153600000; 1704240000000; 1704412800000]%Z.

(** The first three of them. *)
Definition januaryRun : list Z :=
  [1704067200000; 1704153600000; 1704240000000]%Z.

End Calendar.

(** ** Daily sleep and the sleep insights *)

Module SleepStats.

Import JsArray Sleep.
Local Open Scope Q_scope.

(** An entry of [dailySleep]. *)
Record DailySleep : Type := mkDailySleep {
  duration : Q;
  efficiency : list Q;
  score : list Q;
  bedTimes : list Z;
  wakeTimes : list Z;
  count : Z
}.

Definition emptyDay : DailySleep := mkDailySleep 0 [] [] [] [] 0.

(** The key [toISOString().split('T')[0]] of a time value: its UTC calendar
    day, kept as the number of the day since the epoch (the text is a
    one-to-one rendering of it). *)
Definition dayOf (t : Z) : Z := (t / Calendar.msPerDay)%Z.

(** [getUTCHours() * 60 + getUTCMinutes()] of a time value. *)
Definition minutesOfDay (t : Z) : Z :=
  let ms := (t mod Calendar.msPerDay)%Z in
  (ms / 3600000 * 60 + (ms mod 3600000) / 60000)%Z.

(** The updates of one session to the entry of its day. *)
Definition addSession (s : Session) (d : DailySleep) : DailySleep :=
  mkDailySleep
    (duration d + _duration s)
    (if Qltb 0 (_efficiency s) then efficiency d ++ [_efficiency s]
     else efficiency d)
    (if Qltb 0 (_score s) then score d ++ [_score s] else score d)
    (bedTimes d ++ [minutesOfDay (_start s)])
    (wakeTimes d ++ [minutesOfDay (_end s)])
    (count d + 1).

(** [dailySleep] is an object: its entries are in the order in which their
    keys were first set. *)
Fixpoint updateDay (day : Z) (s : Session) (dailySleep : list (Z * DailySleep))
    : list (Z * DailySleep) :=
  match dailySleep with
  | [] => [(day, addSession s emptyDay)]
  | (key, d) :: rest =>
      if (key =? day)%Z then (key, addSession s d) :: rest
      else (key, d) :: updateDay day s rest
  end.

(** The callback of [sleepRecords.forEach]. *)
Definition recordSleep (dailySleep : list (Z * DailySleep)) (s : Session)
    : list (Z * DailySleep) :=
  if Qltb 0 (_duration s) then updateDay (dayOf (_start s)) s dailySleep
  else dailySleep.

Definition dailySleep (sleepRecords : list Session) : list (Z * DailySleep) :=
  fold_left recordSleep sleepRecords [].

(** [Object.values(dailySleep)]. *)
Definition sleepDays (sleepRecords : list Session) : list DailySleep :=
  map snd (dailySleep sleepRecords).

Definition lengthQ {A : Type} (l : list A) : Q :=
  inject_Z (Z.of_nat (List.length l)).

(** [l.length > 0 ? l.reduce((sum, d) => sum + f(d), 0) / l.length : default]. *)
Definition averageOr {A : Type} (default : Q) (f : A -> Q) (l : list A) : Q :=
  match l with
  | [] => default
  | _ => fold_left (fun sum d => sum + f d) l 0 / lengthQ l
  end.

Definition avgSleepMinutes (sleepRecords : list Session) : Q :=
  averageOr 0 duration (sleepDays sleepRecords).

Definition avgEfficiency (sleepRecords : list Session) : Q :=
  averageOr 0 (fun d => averageOr 0 (fun e => e) (efficiency d))
            (sleepDays sleepRecords).

Definition avgSleepScore (sleepRecords : list Session) : Q :=
  averageOr 0 (fun d => averageOr 0 (fun e => e) (score d))
            (sleepDays sleepRecords).

Definition bedtimeHours (sleepRecords : list Session) : list Z :=
  map (fun m => (m / 60)%Z) (flat_map bedTimes (sleepDays sleepRecords)).

Definition avgBedtimeHour (sleepRecords : list Session) : Q :=
  averageOr 23 inject_Z (bedtimeHours sleepRecords).

Inductive SleepArchetype : Type :=
  | ConsistentSleeper | NightOwl | EarlyRiser | VariableSleeper.

Definition sleepArchetype (sleepRecords : list Session) : SleepArchetype :=
  if Qltb 85 (avgEfficiency sleepRecords) then ConsistentSleeper
  else if Qltb 23 (avgBedtimeHour sleepRecords) then NightOwl
  else if Qltb (avgBedtimeHour sleepRecords) 22 then EarlyRiser
  else VariableSleeper.

Inductive Trend : Type := Improving | Stable | Declining.

Definition half {A : Type} (l : list A) : nat := Nat.div (List.length l) 2.

Definition firstHalfAvg (sleepRecords : list Session) : Q :=
  let days := sleepDays sleepRecords in
  averageOr 0 duration (firstn (half days) days).

Definition secondHalfAvg (sleepRecords : list Session) : Q :=
  let days := sleepDays sleepRecords in
  averageOr 0 duration (skipn (half days) days).

Definition sleepQualityTrend (sleepRecords : list Session) : Trend :=
  if Qltb (firstHalfAvg sleepRecords * (105 # 100)) (secondHalfAvg sleepRecords)
  then Improving
  else if Qltb (secondHalfAvg sleepRecords)
                (firstHalfAvg sleepRecords * (95 # 100))
  then Declining
  else Stable.

(** The sessions of one year: [processedSleep.filter] by the year of the
    start field of the row, a test on the session here. *)
Definition sleepRecords (inYear : Session -> bool) (candidates : list Session)
    : list Session :=
  filter inYear (dedup candidates).

(** The sessions the loop does not skip, and the bed times of all entries. *)
Definition asleep (s : Session) : bool := Qltb 0 (_duration s).

Definition allBedTimes (entries : list (Z * DailySleep)) : list Z :=
  flat_map bedTimes (map snd entries).

(** The sessions with some asleep time that start on a day, and the entry
    of a day in [dailySleep] (the empty entry when the day has none). *)
Definition sessionsOf (day : Z) (records : list Session) : list Session :=
  filter (fun s => asleep s && (dayOf (_start s) =? day)%Z) records.

Definition entryOf (day : Z) (entries : list (Z * DailySleep)) : DailySleep :=
  match find (fun e => (fst e =? day)%Z) entries with
  | Some e => snd e
  | None => emptyDay
  end.

(** The order of numbers from the largest to the smallest. *)
Definition descending (a b : Q) : Prop := b <= a.

(** A session of five hours that starts at 01:00 UTC, and three sessions of
    8, 7 and 6 hours on three successive nights in that order. *)
Definition lateSession : Session :=
  {| _start := 1704070800000; _end := 1704088800000; _duration := 300;
     _rawDuration := 300; _efficiency := 80; _score := 0;
     _isCombined := false |}.

Definition night (day : Z) (minutes : Q) : Session :=
  {| _start := 1704067200000 + day * 86400000 - 7200000;
     _end := 1704067200000 + day * 86400000 + 21600000;
     _duration := minutes; _rawDuration := minutes; _efficiency := 0;
     _score := 0; _isCombined := true |}.

Definition threeNights : list Session := [night 1 360; night 2 420; night 3 480].

End SleepStats.

(** ** Notions for the wellness series *)

Module Series.

Import Wellness.
Local Open Scope Q_scope.

(** A whole number that is at least 1. *)
Definition wholeAndPositive (x : number) : Prop :=
  exists z, (1 <= z)%Z /\ x = Num (inject_Z z).

(** A heart-rate row with its own value of 61.4 and no bin file, and a
    second row on the day before. *)
Definition heartRateRows : list WellnessRow :=
  [mkWellnessRow "2024-03-02" None (Some (614 # 10));
   mkWellnessRow "2024-03-01" None (Some 58)].

End Series.

(** ** Samples of one day *)

Module Samples.

Local Open Scope Q_scope.

(** Twelve heart-rate samples of a day. *)
Definition heartRateSamples : list Q :=
  [72; 58; 64; 90; 61; 55; 70; 66; 80; 75; 59; 63].

End Samples.

(** ** The call of the transformation by the upload handler *)

Module Upload.

Import JsArray Pipeline.
Local Open Scope string_scope.

(** The data as parsed.  A sleep row is [None] when none of its three start
    fields is set, so that [startTime] is [undefined]; else it is the row
    after field access.  [rows] holds the other record types. *)
Record ParsedData : Type := mkParsedData {
  sleepRows : list (option Sleep.SleepRow);
  rows : HealthData
}.

Definition hasStart (s : option Sleep.SleepRow) : bool :=
  match s with
  | Some _ => true
  | None => false
  end.

Definition withStart (parsed : list (option Sleep.SleepRow))
    : list Sleep.SleepRow :=
  flat_map (fun s => match s with
                     | Some r => [r]
                     | None => []
                     end) parsed.

(** The data of [Pipeline], with the sleep rows that have a start field. *)
Definition healthData (p : ParsedData) : HealthData :=
  {| steps := steps (rows p);
     exercises := exercises (rows p);
     sleep := withStart (sleepRows p);
     heartRate := heartRate (rows p);
     stress := stress (rows p);
     oxygenSaturation := oxygenSaturation (rows p);
     hrv := hrv (rows p) |}.

(** What a call leaves behind: the texts given to [console.warn] and the
    mapping returned. *)
Record Outcome : Type := mkOutcome {
  warnings : list string;
  mapping : list (string * Years.YearStats)
}.

Definition noYearsWarning : string :=
  "No years discovered from data. Check date formats.".

Section Call.

Variable getFullYear : Z -> Z.
Variable buildYear : HealthData -> Z -> Years.YearStats.

(** [transformHealthData] on the parsed data.  The callback of
    [data.sleep.map] evaluates [startTime.includes] for every row: a row
    without start field raises a TypeError, before any year is looked
    for.  Without year the warning is logged and the empty object
    returned. *)
Definition transformHealthData (p : ParsedData) : completion Outcome :=
  if forallb hasStart (sleepRows p) then
    match years getFullYear (healthData p) with
    | [] => Returns (mkOutcome [noYearsWarning] [])
    | _ =>
        match Pipeline.transformHealthData getFullYear buildYear (healthData p) with
        | Returns result => Returns (mkOutcome [] result)
        | Throws => Throws
        end
    end
  else Throws.





End Call.



End Upload.

(** ** Statistics on IEEE doubles

    The numbers of [calculateCorrelation] and of the last step of
    [calculateCircularAverage] as the binary64 values they are at run
    time: [+ - * /] and [Math.sqrt] are correctly rounded, as the
    primitive operations here.  [Math.sin], [Math.cos] and [Math.atan2]
    are left to the engine by the language; they are a parameter. *)

Module Doubles.

Import PrimFloat.
#[local] Set Warnings "-inexact-float".
Local Open Scope float_scope.

(** [x.length] as a number. *)
Definition lengthOf {A : Type} (x : list A) : float :=
  of_uint63 (Uint63.of_Z (Z.of_nat (List.length x))).

(** [x.reduce((a, b) => a + b, 0)]. *)
Definition sumOf (x : list float) : float := fold_left add x 0.

(** [x.reduce((sum, xi, i) => sum + xi * y[i], 0)] for [y] as long as [x]. *)
Definition sumOfProducts (x y : list float) : float :=
  fold_left (fun sum p => sum + fst p * snd p) (combine x y) 0.

(** [x.reduce((sum, xi) => sum + xi * xi, 0)]. *)
Definition sumOfSquares (x : list float) : float :=
  fold_left (fun sum xi => sum + xi * xi) x 0.

(** The factor [n * sumX2 - sumX * sumX] of the denominator. *)
Definition varianceTerm (x : list float) : float :=
  lengthOf x * sumOfSquares x - sumOf x * sumOf x.

Definition calculateCorrelation (x y : list float) : float :=
  if negb (Nat.eqb (List.length x) (List.length y))
     || Nat.eqb (List.length x) 0
  then 0
  else
    let n := lengthOf x in
    let sumX := sumOf x in
    let sumY := sumOf y in
    let sumXY := sumOfProducts x y in
    let numerator := n * sumXY - sumX * sumY in
    let denominator := sqrt (varianceTerm x * varianceTerm y) in
    if eqb denominator 0 then 0 else numerator / denominator.

(** [Math.PI]. *)
Definition PI : float := 0x1.921fb54442d18p+1.

(** The functions of [Math] the circular average calls. *)
Record MathLibrary : Type := mkMathLibrary {
  sin : float -> float;
  cos : float -> float;
  atan2 : float -> float -> float
}.

(** The body of [minutesArray.forEach] on the pair [(sinSum, cosSum)]. *)
Definition accumulateAngle (math : MathLibrary) (sums : float * float)
    (m : float) : float * float :=
  let angle := (m / 1440) * 2 * PI in
  (fst sums + sin math angle, snd sums + cos math angle).

(** [avgAngle] as [Math.atan2] returns it. *)
Definition resultantAngle (math : MathLibrary) (minutesArray : list float)
    : float :=
  let sums := fold_left (accumulateAngle math) minutesArray (0, 0) in
  atan2 math (fst sums / lengthOf minutesArray)
             (snd sums / lengthOf minutesArray).

(** [if (avgAngle < 0) avgAngle += 2 * Math.PI] and the [return]. *)
Definition toMinutes (avgAngle : float) : float :=
  let avgAngle := if ltb avgAngle 0 then avgAngle + 2 * PI else avgAngle in
  (avgAngle / (2 * PI)) * 1440.

Definition calculateCircularAverage (math : MathLibrary)
    (minutesArray : list float) : float :=
  match minutesArray with
  | [] => 0
  | _ => toMinutes (resultantAngle math minutesArray)
  end.

(** The series of the examples: a constant series, 0 1 2, two large
    neighbours, and two series that are nearly proportional. *)
Definition constantSeries : list float := [6.9; 6.9; 6.9].
Definition risingSeries : list float := [0; 1; 2].
Definition largeSeries : list float := [100000000; 100000001].
Definition shortSeries : list float := [9.8; 10.4].
Definition longSeries : list float := [9123; 13608].

(** A negative angle within rounding of 0: the one [Math.atan2] returns
    for the samples 1430 and 10 when the sines and cosines are rounded to
    nearest (the sines then add up to about -1.9e-16). *)
Definition straddlingAngle : float := -9.723706279251065e-17.

End Doubles.

(** * Properties *)

(** ** The field splitter *)

Section CsvFacts.

Import JsString Csv.
Local Open Scope string_scope.

Lemma hasChar_append c s t :
  hasChar c (s ++ t) = hasChar c s || hasChar c t.
Proof.
  induction s as [|a s IH]; simpl; [reflexivity|].
  now rewrite IH, orb_assoc.
Qed.

Lemma trimStart_quoteFree s : quoteFree s -> quoteFree (trimStart s).
Proof.
  unfold quoteFree. induction s as [|a s IH]; simpl; intros H; [reflexivity|].
  destruct (isWhitespace a); [|exact H].
  apply orb_false_iff in H. now apply IH.
Qed.

Lemma trimEnd_quoteFree s : quoteFree s -> quoteFree (trimEnd s).
Proof.
  unfold quoteFree. induction s as [|a s IH]; simpl; intros H; [reflexivity|].
  apply orb_false_iff in H. destruct H as [Ha Hs].
  specialize (IH Hs).
  destruct (trimEnd s) as [|b t].
  - destruct (isWhitespace a); simpl; [reflexivity|now rewrite Ha].
  - simpl in *. now rewrite Ha, IH.
Qed.

Lemma stripTrailingQuote_quoteFree s : quoteFree s -> stripTrailingQuote s = s.
Proof.
  unfold quoteFree. induction s as [|a s IH]; simpl; intros H; [reflexivity|].
  apply orb_false_iff in H. destruct H as [Ha Hs].
  destruct s as [|b t].
  - now rewrite Ha.
  - now rewrite (IH Hs).
Qed.

Lemma stripQuotes_quoteFree s : quoteFree s -> stripQuotes s = s.
Proof.
  intros H. unfold stripQuotes.
  assert (E : stripLeadingQuote s = s).
  { destruct s as [|a s]; simpl; [reflexivity|].
    unfold quoteFree in H. simpl in H. apply orb_false_iff in H.
    now rewrite (proj1 H). }
  rewrite E. now apply stripTrailingQuote_quoteFree.
Qed.

Lemma collapseQuotes_quoteFree s : quoteFree s -> collapseQuotes s = s.
Proof.
  unfold quoteFree. induction s as [|a s IH]; intros H; [reflexivity|].
  simpl in H. apply orb_false_iff in H. destruct H as [Ha Hs].
  specialize (IH Hs).
  destruct s as [|b t]; [reflexivity|].
  change (collapseQuotes (String a (String b t)))
    with (if Ascii.eqb a dquote && Ascii.eqb b dquote
          then String dquote (collapseQuotes t)
          else String a (collapseQuotes (String b t))).
  rewrite Ha. simpl andb. cbv iota. now rewrite IH.
Qed.

Lemma cleanField_quoteFree s : quoteFree s -> cleanField s = trim s.
Proof.
  intros H. unfold cleanField.
  assert (Ht : quoteFree (trim s)).
  { unfold trim. now apply trimEnd_quoteFree, trimStart_quoteFree. }
  now rewrite (stripQuotes_quoteFree _ Ht), (collapseQuotes_quoteFree _ Ht).
Qed.

Lemma trim_quoteFree s : quoteFree s -> quoteFree (trim s).
Proof. intros H. unfold trim. now apply trimEnd_quoteFree, trimStart_quoteFree. Qed.

Lemma splitLoop_quoteFree line : forall result current inQuotes,
  Forall quoteFree result -> quoteFree current ->
  Forall quoteFree (splitLoop line result current inQuotes).
Proof.
  induction line as [|c rest IH]; simpl; intros result current inQuotes Hr Hc.
  - apply Forall_app. split; [exact Hr|].
    constructor; [|constructor].
    rewrite (cleanField_quoteFree _ Hc). now apply trim_quoteFree.
  - destruct (Ascii.eqb c dquote) eqn:Eq.
    + now apply IH.
    + destruct (Ascii.eqb c comma && negb inQuotes).
      * apply IH; [|reflexivity].
        apply Forall_app. split; [exact Hr|].
        constructor; [|constructor].
        rewrite (cleanField_quoteFree _ Hc). now apply trim_quoteFree.
      * apply IH; [exact Hr|].
        unfold quoteFree. rewrite hasChar_append. simpl.
        unfold quoteFree in Hc. now rewrite Hc, Eq.
Qed.

Lemma splitCSVLine_fields_quoteFree line field :
  In field (splitCSVLine line) -> hasChar dquote field = false.
Proof.
  intros H.
  assert (F : Forall quoteFree (splitCSVLine line)).
  { apply splitLoop_quoteFree; [constructor|reflexivity]. }
  rewrite Forall_forall in F. now apply F.
Qed.

Lemma splitLoop_quoted s : forall rest result current,
  quoteFree s ->
  splitLoop (s ++ rest) result current true =
  splitLoop rest result (current ++ s) true.
Proof.
  induction s as [|c s IH]; simpl; intros rest result current H.
  - f_equal. clear. induction current; simpl; congruence.
  - unfold quoteFree in H. simpl in H. apply orb_false_iff in H.
    destruct H as [Hc Hs]. rewrite Hc, andb_false_r.
    rewrite IH by exact Hs. f_equal.
    clear. induction current; simpl; congruence.
Qed.

Lemma splitCSVLine_quoted s :
  quoteFree s -> splitCSVLine (quoted s) = [trim s].
Proof.
  intros H. unfold splitCSVLine, quoted. simpl.
  rewrite splitLoop_quoted by exact H. simpl.
  now rewrite cleanField_quoteFree.
Qed.


Example splitCSVLine_quoted_comma :
  splitCSVLine quotedCommaLine = ["a"; "b,c"; "d"].
Proof. reflexivity. Qed.

(** C4 (fails on the code).  A comma between double quotes stays in its
    field, but an escaped double quote does not become one double quote:
    every double quote of the line only toggles [inQuotes] and is dropped,
    so the line whose text is he said, then hi between two pairs of double
    quotes, the whole between double quotes, yields the field he said hi
    and not he said followed by hi between double quotes.  No field of any
    line contains a double quote. *)
Theorem splitCSVLine_drops_escaped_quotes :
  splitCSVLine quotedCommaLine = ["a"; "b,c"; "d"] /\
  splitCSVLine escapedQuoteLine = ["he said hi"] /\
  splitCSVLine escapedQuoteLine <> ["he said " ++ quoted "hi"] /\
  (forall line field,
      In field (splitCSVLine line) -> hasChar dquote field = false).
Proof.
  split; [reflexivity|]. split; [reflexivity|]. split.
  - intros H. vm_compute in H. discriminate H.
  - exact splitCSVLine_fields_quoteFree.
Qed.

End CsvFacts.

(** ** Header-row detection *)

Section HeaderFacts.

Import JsString Csv.
Local Open Scope string_scope.

Lemma findIndex_Some {A} (p : A -> bool) (d : A) l : forall i,
  findIndex p l = Some i ->
  i < List.length l /\ p (nth i l d) = true /\
  forall j, j < i -> p (nth j l d) = false.
Proof.
  induction l as [|x l IH]; simpl; intros i H; [discriminate|].
  destruct (p x) eqn:Px.
  - injection H as <-. repeat split; [lia|exact Px|lia].
  - destruct (findIndex p l) as [k|]; [|discriminate].
    injection H as <-. destruct (IH k eq_refl) as (Hk & Hp & Hj).
    repeat split; [lia|exact Hp|].
    intros [|j] Hlt; [exact Px|]. apply Hj. lia.
Qed.

Lemma findIndex_None {A} (p : A -> bool) l :
  findIndex p l = None <-> forall x, In x l -> p x = false.
Proof.
  induction l as [|x l IH]; simpl.
  - split; [intros _ y []|reflexivity].
  - destruct (p x) eqn:Px.
    + split; [discriminate|]. intros H. specialize (H x (or_introl eq_refl)). congruence.
    + destruct (findIndex p l) as [k|].
      * split; [discriminate|]. intros H. exfalso.
        assert (E : Some k = None); [|discriminate E].
        apply IH. intros y Hy. apply H. now right.
      * split; [|reflexivity]. intros _ y [<-|Hy]; [exact Px|].
        now apply (proj1 IH).
Qed.

Lemma findIndex_first {A} (p : A -> bool) (d : A) l : forall i,
  i < List.length l -> p (nth i l d) = true ->
  (forall j, j < i -> p (nth j l d) = false) ->
  findIndex p l = Some i.
Proof.
  induction l as [|x l IH]; simpl; intros i Hi Hp Hj; [lia|].
  destruct i as [|i].
  - now rewrite Hp.
  - rewrite (Hj 0) by lia.
    rewrite (IH i); [reflexivity|lia|exact Hp|].
    intros j Hlt. apply (Hj (S j)). lia.
Qed.

Lemma nth_firstn {A} (d : A) n l i : i < n -> nth i (firstn n l) d = nth i l d.
Proof.
  revert n i. induction l as [|x l IH]; intros n i H.
  - rewrite firstn_nil. reflexivity.
  - destruct n; [lia|]. destruct i; simpl; [reflexivity|]. apply IH. lia.
Qed.

Lemma isHeaderLine_isWide line : isHeaderLine line = true -> isWide line = true.
Proof. unfold isHeaderLine, isWide. intros H. now apply andb_true_iff in H. Qed.

Lemma headerLineIndex_keyword lines i :
  i < 12 -> i < List.length lines ->
  isHeaderLine (nth i lines EmptyString) = true ->
  (forall j, j < i -> isHeaderLine (nth j lines EmptyString) = false) ->
  headerLineIndex lines = Some i.
Proof.
  intros H12 Hi Hp Hj. unfold headerLineIndex.
  rewrite (findIndex_first isHeaderLine EmptyString (firstn 12 lines) i); [reflexivity| | |].
  - rewrite length_firstn. lia.
  - now rewrite nth_firstn.
  - intros j Hlt. rewrite nth_firstn by lia. now apply Hj.
Qed.

Lemma headerLineIndex_fallback lines i :
  (forall l, In l (firstn 12 lines) -> isHeaderLine l = false) ->
  i < List.length lines ->
  isWide (nth i lines EmptyString) = true ->
  (forall j, j < i -> isWide (nth j lines EmptyString) = false) ->
  headerLineIndex lines = Some i.
Proof.
  intros Hnone Hi Hp Hj. unfold headerLineIndex.
  rewrite (proj2 (findIndex_None isHeaderLine (firstn 12 lines)) Hnone).
  now apply (findIndex_first isWide EmptyString).
Qed.

Lemma headerLineIndex_none lines :
  (forall l, In l lines -> isWide l = false) ->
  headerLineIndex lines = None.
Proof.
  intros H. unfold headerLineIndex.
  assert (E : findIndex isHeaderLine (firstn 12 lines) = None).
  { apply findIndex_None. intros l Hl.
    destruct (isHeaderLine l) eqn:E; [|reflexivity].
    apply isHeaderLine_isWide in E.
    rewrite (H l) in E; [discriminate|].
    rewrite <- (firstn_skipn 12 lines). apply in_or_app. now left. }
  rewrite E. now apply findIndex_None.
Qed.

Lemma parseLines_none lines :
  headerLineIndex lines = None -> parseLines lines = [].
Proof. intros H. unfold parseLines. rewrite H. now destruct (Nat.ltb _ _). Qed.

Lemma headerLineIndex_sound lines i :
  headerLineIndex lines = Some i ->
  i < List.length lines /\
  ((i < 12 /\ isHeaderLine (nth i lines EmptyString) = true /\
    forall j, j < i -> isHeaderLine (nth j lines EmptyString) = false)
   \/
   ((forall l, In l (firstn 12 lines) -> isHeaderLine l = false) /\
    isWide (nth i lines EmptyString) = true /\
    forall j, j < i -> isWide (nth j lines EmptyString) = false)).
Proof.
  unfold headerLineIndex.
  destruct (findIndex isHeaderLine (firstn 12 lines)) as [k|] eqn:E.
  - intros H. injection H as <-.
    destruct (findIndex_Some _ EmptyString _ _ E) as (Hk & Hp & Hj).
    rewrite length_firstn in Hk.
    split; [lia|]. left. split; [lia|].
    rewrite nth_firstn in Hp by lia. split; [exact Hp|].
    intros j Hlt. rewrite <- (nth_firstn EmptyString 12) by lia. now apply Hj.
  - intros H. destruct (findIndex_Some _ EmptyString _ _ H) as (Hk & Hp & Hj).
    split; [exact Hk|]. right. split; [|split; assumption].
    now apply findIndex_None.
Qed.


Lemma splitLines_line l rest :
  hasChar newline l = false ->
  splitLines (l ++ String newline rest) = l :: splitLines rest.
Proof.
  induction l as [|c l IH]; simpl; intros H.
  - reflexivity.
  - apply orb_false_iff in H. destruct H as [Hc Hl].
    rewrite Hc. now rewrite (IH Hl).
Qed.

Lemma splitLines_last l :
  hasChar newline l = false -> splitLines l = [l].
Proof.
  induction l as [|c l IH]; simpl; intros H.
  - reflexivity.
  - apply orb_false_iff in H. destruct H as [Hc Hl].
    rewrite Hc. now rewrite (IH Hl).
Qed.

Lemma splitLines_joinLines lines :
  lines <> [] ->
  Forall (fun l => hasChar newline l = false) lines ->
  splitLines (joinLines lines) = lines.
Proof.
  induction lines as [|l ls IH]; intros Hne H; [congruence|].
  inversion H as [|? ? Hl Hls]; subst.
  destruct ls as [|l' ls'].
  - simpl. now apply splitLines_last.
  - change (joinLines (l :: l' :: ls'))
      with (l ++ String newline (joinLines (l' :: ls'))).
    rewrite splitLines_line by exact Hl.
    rewrite IH; [reflexivity|discriminate|exact Hls].
Qed.

Lemma header_after_three_junk_lines j1 j2 j3 rows :
  isHeaderLine j1 = false -> isHeaderLine j2 = false ->
  isHeaderLine j3 = false ->
  headerLineIndex ([j1; j2; j3; exampleHeaderLine] ++ rows) = Some 3 /\
  parseLines ([j1; j2; j3; exampleHeaderLine] ++ rows) =
    flat_map (parseRow exampleHeaders) rows.
Proof.
  intros H1 H2 H3.
  assert (E : headerLineIndex ([j1; j2; j3; exampleHeaderLine] ++ rows) = Some 3).
  { apply headerLineIndex_keyword.
    - lia.
    - simpl. lia.
    - reflexivity.
    - intros [|[|[|j]]] Hj; simpl; try assumption. lia. }
  split; [exact E|].
  unfold parseLines. rewrite E. reflexivity.
Qed.


(** C7.  Header-row detection.  Among the first 12 lines the first one with
    more than 5 fields and one of the keywords date, time, count,
    efficiency, duration, step in its lower-cased text is the header; when
    no such line exists the first line of the whole text with more than 5
    fields is; the selected index is always of one of these two kinds; when
    no line has more than 5 fields the parser returns the empty list.  For
    three lines that are not header lines followed by the line
    Date,Count,Calorie,Distance,Speed,Source and data rows, the fourth line
    is the header and the result is the data rows read against its six
    fields, whatever the three lines are. *)
Theorem header_row_detection (csvText : string) :
  let lines := splitLines csvText in
  (forall i, i < 12 -> i < List.length lines ->
     isHeaderLine (nth i lines EmptyString) = true ->
     (forall j, j < i -> isHeaderLine (nth j lines EmptyString) = false) ->
     headerLineIndex lines = Some i) /\
  (forall i,
     (forall l, In l (firstn 12 lines) -> isHeaderLine l = false) ->
     i < List.length lines ->
     isWide (nth i lines EmptyString) = true ->
     (forall j, j < i -> isWide (nth j lines EmptyString) = false) ->
     headerLineIndex lines = Some i) /\
  (forall i, headerLineIndex lines = Some i ->
     i < List.length lines /\
     ((i < 12 /\ isHeaderLine (nth i lines EmptyString) = true /\
       forall j, j < i -> isHeaderLine (nth j lines EmptyString) = false)
      \/
      ((forall l, In l (firstn 12 lines) -> isHeaderLine l = false) /\
       isWide (nth i lines EmptyString) = true /\
       forall j, j < i -> isWide (nth j lines EmptyString) = false))) /\
  ((forall l, In l lines -> isWide l = false) ->
     headerLineIndex lines = None /\ parseCSV csvText = []) /\
  (forall j1 j2 j3 rows,
     lines = ([j1; j2; j3; exampleHeaderLine] ++ rows)%list ->
     isHeaderLine j1 = false -> isHeaderLine j2 = false ->
     isHeaderLine j3 = false ->
     headerLineIndex lines = Some 3 /\
     nth 3 lines EmptyString = exampleHeaderLine /\
     parseCSV csvText = flat_map (parseRow exampleHeaders) rows).
Proof.
  intros lines. repeat split.
  - apply headerLineIndex_keyword.
  - apply headerLineIndex_fallback.
  - now apply headerLineIndex_sound.
  - now apply headerLineIndex_sound.
  - now apply headerLineIndex_none.
  - unfold parseCSV. fold lines. now apply parseLines_none, headerLineIndex_none.
  - subst lines. rewrite H. now apply header_after_three_junk_lines.
  - rewrite H. reflexivity.
  - unfold parseCSV. fold lines. rewrite H.
    now apply header_after_three_junk_lines.
Qed.

Lemma header_row_detection_witness :
  parseCSV exampleBlob =
    [ [("Date", "2024-01-01"); ("Count", "100"); ("Calorie", "5");
       ("Distance", "80"); ("Speed", "1"); ("Source", "-2")];
      [("Date", "2024-01-02"); ("Count", "200"); ("Calorie", "9");
       ("Distance", "150"); ("Speed", "1"); ("Source", "-2")] ].
Proof.
  destruct (header_row_detection exampleBlob) as (_ & _ & _ & _ & H).
  destruct (H (nth 0 exampleJunk EmptyString) (nth 1 exampleJunk EmptyString)
              (nth 2 exampleJunk EmptyString) exampleRows
              eq_refl eq_refl eq_refl eq_refl) as (_ & _ & E).
  rewrite E. reflexivity.
Defined.

End HeaderFacts.

(** ** Sorting with a comparator *)

Section SortFacts.

Import JsArray Lqa.
Local Open Scope Q_scope.

Context {A : Type} (compare : A -> A -> Q).

Hypothesis compare_total : forall a b, notAfter compare a b \/ notAfter compare b a.
Hypothesis compare_trans :
  forall a b c, notAfter compare a b -> notAfter compare b c -> notAfter compare a c.

Lemma Qle_bool_false x y : Qle_bool x y = false -> ~ x <= y.
Proof. intros H L. apply Qle_bool_iff in L. congruence. Qed.

Lemma insertBy_perm x l : Permutation (x :: l) (insertBy compare x l).
Proof.
  induction l as [|y l IH]; simpl; [reflexivity|].
  destruct (Qle_bool (compare x y) 0); [reflexivity|].
  rewrite perm_swap. now constructor.
Qed.

Lemma sortBy_perm l : Permutation l (sortBy compare l).
Proof.
  induction l as [|x l IH]; simpl; [constructor|].
  rewrite <- insertBy_perm. now constructor.
Qed.

Lemma insertBy_sorted x l :
  StronglySorted (notAfter compare) l -> StronglySorted (notAfter compare) (insertBy compare x l).
Proof.
  induction 1 as [|y l Hs IH Hy]; simpl.
  - repeat constructor.
  - destruct (Qle_bool (compare x y) 0) eqn:E.
    + apply Qle_bool_iff in E.
      constructor; [now constructor|].
      constructor; [exact E|].
      eapply Forall_impl; [|exact Hy]. intros z. now apply compare_trans.
    + apply Qle_bool_false in E.
      constructor; [exact IH|].
      rewrite <- insertBy_perm. constructor; [|exact Hy].
      destruct (compare_total x y) as [H|H]; [contradiction|exact H].
Qed.

Lemma sortBy_sorted l : StronglySorted (notAfter compare) (sortBy compare l).
Proof.
  induction l as [|x l IH]; simpl; [constructor|]. now apply insertBy_sorted.
Qed.

End SortFacts.

(** ** Sleep dedup *)

Section SleepFacts.

Import JsString JsArray Sleep Lqa.
Local Open Scope Q_scope.

Lemma Qltb_lt x y : Qltb x y = true <-> x < y.
Proof.
  unfold Qltb. rewrite negb_true_iff. split.
  - intros H. apply Qnot_le_lt. intros L. apply Qle_bool_iff in L. congruence.
  - intros H. destruct (Qle_bool y x) eqn:E; [|reflexivity].
    apply Qle_bool_iff in E. lra.
Qed.

Lemma Qltb_ge x y : Qltb x y = false <-> y <= x.
Proof.
  unfold Qltb. rewrite negb_false_iff. apply Qle_bool_iff.
Qed.

Lemma sleepCompare_priority a b :
  notAfter sleepCompare a b <-> hasPriority a b.
Proof.
  unfold notAfter, sleepCompare, hasPriority.
  destruct (_isCombined a), (_isCombined b); simpl; split; intros H.
  - right. split; [reflexivity|lra].
  - destruct H as [[_ H]|[_ H]]; [discriminate|lra].
  - left. now split.
  - lra.
  - lra.
  - destruct H as [[H _]|[H _]]; discriminate.
  - right. split; [reflexivity|lra].
  - destruct H as [[H _]|[_ H]]; [discriminate|lra].
Qed.

Lemma sleepCompare_total a b :
  notAfter sleepCompare a b \/ notAfter sleepCompare b a.
Proof.
  unfold notAfter, sleepCompare.
  destruct (_isCombined a), (_isCombined b); simpl; lra.
Qed.

Lemma sleepCompare_trans a b c :
  notAfter sleepCompare a b -> notAfter sleepCompare b c ->
  notAfter sleepCompare a c.
Proof.
  unfold notAfter, sleepCompare.
  destruct (_isCombined a), (_isCombined b), (_isCombined c); simpl; lra.
Qed.







Lemma dedupStep_keeps keptSleep record x :
  In x keptSleep -> In x (dedupStep keptSleep record).
Proof.
  intros H. unfold dedupStep.
  destruct (isEncapsulated keptSleep record); [exact H|].
  apply in_or_app. now left.
Qed.

Lemma dedup_loop_keeps records : forall keptSleep x,
  In x keptSleep -> In x (fold_left dedupStep records keptSleep).
Proof.
  induction records as [|r records IH]; simpl; intros keptSleep x H; [exact H|].
  now apply IH, dedupStep_keeps.
Qed.

(** Whatever is kept at the end was kept at the start or was accepted when
    its turn came. *)
Lemma dedup_loop_origin records : forall keptSleep x,
  In x (fold_left dedupStep records keptSleep) ->
  In x keptSleep \/
  exists before after,
    records = before ++ x :: after /\
    isEncapsulated (fold_left dedupStep before keptSleep) x = false.
Proof.
  induction records as [|r records IH]; simpl; intros keptSleep x H.
  - now left.
  - destruct (IH _ _ H) as [Hin|(before & after & E & Hn)].
    + unfold dedupStep in Hin.
      destruct (isEncapsulated keptSleep r) eqn:Enc; [now left|].
      apply in_app_or in Hin. destruct Hin as [Hin|[<-|[]]]; [now left|].
      right. exists [], records. split; [reflexivity|exact Enc].
    + right. exists (r :: before), after. split; [now rewrite E|exact Hn].
Qed.

Lemma dedup_loop_subset records keptSleep x :
  In x (fold_left dedupStep records keptSleep) ->
  In x keptSleep \/ In x records.
Proof.
  intros H. destruct (dedup_loop_origin _ _ _ H) as [Hin|(b & a & E & _)].
  - now left.
  - right. rewrite E. apply in_or_app. right. now left.
Qed.



Example counterexample_sessions_are_enriched :
  enrichedSleep counterexampleRows
  = [combined80; single100; single600; combined100].
Proof. reflexivity. Qed.

Lemma sleep_sort_priority candidates :
  StronglySorted hasPriority (sortBy sleepCompare candidates).
Proof.
  assert (H := sortBy_sorted sleepCompare sleepCompare_total
                             sleepCompare_trans candidates).
  induction H as [|a l Hs IH Ha]; constructor; [exact IH|].
  eapply Forall_impl; [|exact Ha]. intros b. apply sleepCompare_priority.
Qed.




End SleepFacts.

(** ** Asleep time *)

Section AsleepFacts.

Import JsString JsArray Sleep Lqa.
Local Open Scope Q_scope.











End AsleepFacts.

(** ** Pearson correlation *)

Section CorrelationFacts.

Import Stats Lra.
Local Open Scope R_scope.

Lemma fold_left_total {A} (f : A -> R) l : forall acc,
  fold_left (fun sum a => sum + f a) l acc = acc + total (map f l).
Proof.
  induction l as [|a l IH]; simpl; intros acc; [lra|].
  rewrite IH. lra.
Qed.

Lemma sumOf_total x : sumOf x = total x.
Proof.
  unfold sumOf. rewrite (fold_left_total (fun a => a)), map_id. lra.
Qed.

Lemma sumOfSquares_total x :
  sumOfSquares x = total (map (fun xi => xi * xi) x).
Proof. unfold sumOfSquares. rewrite fold_left_total. lra. Qed.

Lemma sumOfProducts_total x y :
  sumOfProducts x y = total (map (fun p => fst p * snd p) (combine x y)).
Proof. unfold sumOfProducts. rewrite fold_left_total. lra. Qed.

Lemma total_deviations m x :
  total (map (fun xi => (xi - m) * (xi - m)) x)
  = total (map (fun xi => xi * xi) x) - 2 * m * total x
    + INR (List.length x) * m * m.
Proof.
  induction x as [|a x IH]; [simpl; lra|].
  cbn [map total List.length]. rewrite IH, S_INR. lra.
Qed.

Lemma length_pos {A} (x : list A) : x <> [] -> 0 < INR (List.length x).
Proof.
  destruct x; [congruence|]. intros _. apply lt_0_INR. simpl. lia.
Qed.

(** The factor of the denominator is the variance up to the square of the
    length. *)
Lemma variance_term x :
  x <> [] ->
  INR (List.length x) * sumOfSquares x - sumOf x * sumOf x
  = INR (List.length x) * INR (List.length x) * variance x.
Proof.
  intros Hx. pose proof (length_pos x Hx) as Hn.
  unfold variance. rewrite total_deviations.
  rewrite sumOfSquares_total, sumOf_total. unfold mean. field. lra.
Qed.

Lemma calculateCorrelation_unfold x y :
  x <> [] -> List.length x = List.length y ->
  calculateCorrelation x y =
  let n := INR (List.length x) in
  let denominator :=
    sqrt ((n * sumOfSquares x - sumOf x * sumOf x)
          * (n * sumOfSquares y - sumOf y * sumOf y)) in
  if Req_dec_T denominator 0 then 0
  else (n * sumOfProducts x y - sumOf x * sumOf y) / denominator.
Proof.
  intros Hx Hl. unfold calculateCorrelation.
  rewrite <- Hl, Nat.eqb_refl.
  destruct x; [congruence|]. reflexivity.
Qed.

Lemma correlation_degenerate x y :
  x = [] \/ y = [] \/ List.length x <> List.length y \/
  variance x = 0 \/ variance y = 0 ->
  calculateCorrelation x y = 0.
Proof.
  intros H.
  destruct (Nat.eq_dec (List.length x) (List.length y)) as [Hl|Hl].
  2:{ unfold calculateCorrelation.
      apply Nat.eqb_neq in Hl. now rewrite Hl. }
  destruct x as [|a x].
  { unfold calculateCorrelation. cbn [List.length].
    now rewrite Nat.eqb_refl, orb_true_r. }
  assert (Hx : a :: x <> []) by discriminate.
  assert (Hy : y <> []) by (intros ->; discriminate).
  rewrite (calculateCorrelation_unfold _ _ Hx Hl). cbv zeta.
  assert (Z : (INR (List.length (a :: x)) * sumOfSquares (a :: x)
               - sumOf (a :: x) * sumOf (a :: x))
              * (INR (List.length (a :: x)) * sumOfSquares y
                 - sumOf y * sumOf y) = 0).
  { destruct H as [H|[H|[H|[H|H]]]]; try congruence.
    - rewrite (variance_term _ Hx), H. lra.
    - rewrite Hl, (variance_term _ Hy), H. lra. }
  rewrite Z, sqrt_0. now destruct (Req_dec_T 0 0).
Qed.

End CorrelationFacts.

(** ** Circular mean *)

Section CircularFacts.

Import Stats Lra.
Local Open Scope R_scope.

Lemma fold_accumulateAngle l : forall s c,
  fold_left accumulateAngle l (s, c)
  = (s + total (map (fun m => sin (m / 1440 * 2 * PI)) l),
     c + total (map (fun m => cos (m / 1440 * 2 * PI)) l)).
Proof.
  induction l as [|m l IH]; simpl; intros s c.
  - f_equal; lra.
  - unfold accumulateAngle at 2. simpl. rewrite IH. f_equal; lra.
Qed.

(** The mean sine and the mean cosine of the angles of the samples. *)
Lemma calculateCircularAverage_unfold l :
  l <> [] ->
  calculateCircularAverage l =
  let n := INR (List.length l) in
  let avgAngle :=
    atan2 (total (map (fun m => sin (m / 1440 * 2 * PI)) l) / n)
          (total (map (fun m => cos (m / 1440 * 2 * PI)) l) / n) in
  (if Rlt_dec avgAngle 0 then avgAngle + 2 * PI else avgAngle)
  / (2 * PI) * 1440.
Proof.
  intros H. destruct l as [|m l]; [congruence|].
  unfold calculateCircularAverage.
  rewrite fold_accumulateAngle. cbn [fst snd]. cbv zeta.
  now rewrite !Rplus_0_l.
Qed.

End CircularFacts.

(** ** Clock formatting *)

Section ClockFacts.

Import Stats Lra.
Local Open Scope R_scope.

Lemma padStart2_twoDigits z :
  (0 <= z <= 99)%Z -> twoDigits (padStart2 (toString z)) = true.
Proof.
  intros H.
  rewrite <- (Z2Nat.id z) by lia.
  assert (B : (Z.to_nat z < 100)%nat) by lia.
  revert B. generalize (Z.to_nat z). clear. intros n B.
  do 100 (destruct n as [|n]; [reflexivity|]). lia.
Qed.

Lemma clockShaped_join h m :
  twoDigits h = true -> twoDigits m = true ->
  clockShaped (h ++ ":" ++ m)%string = true.
Proof.
  intros Hh Hm.
  destruct h as [|a [|b [|c h]]]; try discriminate.
  simpl in Hh. simpl. now rewrite Hh, Hm.
Qed.

Lemma clockShaped_not_placeholder s : clockShaped s = true -> s <> placeholder.
Proof. intros H ->. vm_compute in H. discriminate H. Qed.

Lemma formatToHHmm_zero : formatToHHmm 0 = placeholder.
Proof. unfold formatToHHmm. now destruct (Req_dec_T 0 0). Qed.

Lemma hours_range minutes :
  0 < minutes < 1440 -> (0 <= Zfloor (minutes / 60) <= 23)%Z.
Proof.
  intros H. split.
  - apply Zfloor_lub. simpl. lra.
  - assert (Zfloor (minutes / 60) < 24)%Z; [|lia].
    apply lt_IZR. pose proof (Zfloor_bound (minutes / 60)). lra.
Qed.

Lemma minutes_range minutes :
  0 < minutes ->
  (0 <= roundR (remainder minutes 60) <= 60)%Z.
Proof.
  intros H. unfold roundR, remainder, truncateR.
  destruct (Rle_dec 0 (minutes / 60)) as [_|N]; [|exfalso; apply N; lra].
  pose proof (Zfloor_bound (minutes / 60)) as B.
  set (q := IZR (Zfloor (minutes / 60))) in *.
  split.
  - apply Zfloor_lub. simpl. lra.
  - assert (Zfloor (minutes - 60 * q + / 2) < 61)%Z; [|lia].
    apply lt_IZR. pose proof (Zfloor_bound (minutes - 60 * q + / 2)). lra.
Qed.

Lemma formatToHHmm_clock minutes :
  0 < minutes < 1440 -> clockShaped (formatToHHmm minutes) = true.
Proof.
  intros H. unfold formatToHHmm.
  destruct (Req_dec_T minutes 0) as [E|_]; [lra|].
  pose proof (hours_range minutes H) as Hh.
  pose proof (minutes_range minutes (proj1 H)) as Hm.
  apply clockShaped_join; apply padStart2_twoDigits.
  - rewrite Z.rem_small; lia.
  - lia.
Qed.

Lemma midnight_sample : calculateCircularAverage [0] = 0.
Proof.
  rewrite calculateCircularAverage_unfold by discriminate. cbv zeta.
  cbn [map total List.length].
  replace (0 / 1440 * 2 * PI) with 0 by lra.
  rewrite sin_0, cos_0.
  replace (INR 1) with 1 by (simpl; lra).
  unfold atan2.
  destruct (Rlt_dec 0 ((1 + 0) / 1)) as [_|N]; [|lra].
  replace ((0 + 0) / 1 / ((1 + 0) / 1)) with 0 by lra.
  rewrite atan_0. pose proof PI_RGT_0.
  destruct (Rlt_dec 0 0); [lra|]. field. lra.
Qed.


Example formatToHHmm_half_past_seven : formatToHHmm 450 = "07:30"%string.
Proof.
  unfold formatToHHmm.
  destruct (Req_dec_T 450 0) as [E|_]; [lra|].
  assert (Eh : Zfloor (450 / 60) = 7%Z) by (apply Zfloor_eq; simpl; lra).
  assert (Em : roundR (remainder 450 60) = 30%Z).
  { unfold roundR, remainder, truncateR.
    destruct (Rle_dec 0 (450 / 60)) as [_|N]; [|exfalso; apply N; lra].
    rewrite Eh. apply Zfloor_eq. simpl. lra. }
  rewrite Eh, Em. reflexivity.
Qed.

(** C10.  A circular average of exactly 0 minutes is rendered as the
    placeholder of missing data: the formatter maps 0 to the placeholder,
    which is what a year without sleep sample gets and also what a year
    whose only bed time is midnight gets, while every value strictly between
    0 and 1440 is rendered as two digits, a colon and two digits, which is
    never the placeholder. *)
Theorem midnight_is_rendered_as_no_data :
  formatToHHmm 0 = placeholder /\
  avgClockTime [] = placeholder /\
  avgClockTime [0] = placeholder /\
  (forall samples,
      calculateCircularAverage samples = 0 ->
      avgClockTime samples = avgClockTime []) /\
  (forall minutes,
      0 < minutes < 1440 ->
      clockShaped (formatToHHmm minutes) = true /\
      formatToHHmm minutes <> placeholder).
Proof.
  split; [exact formatToHHmm_zero|].
  split; [exact formatToHHmm_zero|].
  split; [unfold avgClockTime; rewrite midnight_sample; exact formatToHHmm_zero|].
  split.
  - intros samples H. unfold avgClockTime. now rewrite H.
  - intros minutes H. pose proof (formatToHHmm_clock minutes H) as C.
    split; [exact C|]. now apply clockShaped_not_placeholder.
Qed.

Lemma midnight_is_rendered_as_no_data_witness :
  avgClockTime [0] = avgClockTime [] /\
  formatToHHmm 450 <> placeholder.
Proof.
  destruct midnight_is_rendered_as_no_data as (_ & _ & _ & Z & C).
  split.
  - apply Z. exact midnight_sample.
  - apply C. lra.
Defined.

End ClockFacts.

(** ** Order of dates *)

Section DateOrderFacts.

Import JsArray Wellness Lqa.

Lemma ascii_compare_cases a b :
  match Ascii.compare a b with
  | Eq => a = b
  | Lt => (N_of_ascii a < N_of_ascii b)%N
  | Gt => (N_of_ascii b < N_of_ascii a)%N
  end.
Proof.
  destruct (Ascii.compare a b) eqn:E.
  - now apply Ascii.compare_eq_iff.
  - unfold Ascii.compare in E. now apply N.compare_lt_iff.
  - unfold Ascii.compare in E. now apply N.compare_gt_iff.
Qed.

Lemma string_compare_trans s : forall t u,
  String.compare s t <> Gt -> String.compare t u <> Gt ->
  String.compare s u <> Gt.
Proof.
  induction s as [|a s IH]; intros [|b t] [|c u]; simpl; try congruence.
  pose proof (ascii_compare_cases a b) as Hab.
  pose proof (ascii_compare_cases b c) as Hbc.
  pose proof (ascii_compare_cases a c) as Hac.
  destruct (Ascii.compare a b) eqn:Eab; try congruence;
  destruct (Ascii.compare b c) eqn:Ebc; try congruence;
  destruct (Ascii.compare a c) eqn:Eac; try congruence;
  subst; try lia; try (now apply IH);
  try (rewrite Eab in Eac; discriminate);
  try (rewrite Ebc in Eac; discriminate).
Qed.

Lemma string_compare_total s t :
  String.compare s t <> Gt \/ String.compare t s <> Gt.
Proof.
  rewrite (String.compare_antisym t s).
  destruct (String.compare s t); simpl; [left|left|right]; congruence.
Qed.

Local Open Scope Q_scope.

Lemma localeCompare_order a b :
  notAfter localeCompare a b <-> String.compare a b <> Gt.
Proof.
  unfold notAfter, localeCompare.
  destruct (String.compare a b); split; intros H; try congruence; try lra.
Qed.

Lemma byDate_order {V} (a b : string * V) :
  notAfter byDate a b <-> Years.dateOrder a b.
Proof. apply localeCompare_order. Qed.

Lemma byDate_total {V} (a b : string * V) :
  notAfter byDate a b \/ notAfter byDate b a.
Proof. rewrite !byDate_order. apply string_compare_total. Qed.

Lemma byDate_trans {V} (a b c : string * V) :
  notAfter byDate a b -> notAfter byDate b c -> notAfter byDate a c.
Proof. rewrite !byDate_order. apply string_compare_trans. Qed.

Lemma sortBy_byDate_sorted {V} (l : list (string * V)) :
  StronglySorted Years.dateOrder (sortBy byDate l).
Proof.
  assert (H := sortBy_sorted byDate byDate_total byDate_trans l).
  induction H as [|a l' Hs IH Ha]; constructor; [exact IH|].
  eapply Forall_impl; [|exact Ha]. intros b. apply byDate_order.
Qed.


End DateOrderFacts.

(** ** The All Time entry *)

Section AllTimeFacts.

Import JsArray Wellness Years Lqa.
Local Open Scope Q_scope.

Lemma fold_left_Qtotal {A} (f : A -> Q) l : forall acc,
  fold_left (fun sum a => sum + f a) l acc == acc + total (map f l).
Proof.
  induction l as [|a l IH]; simpl; intros acc; [lra|].
  rewrite IH. lra.
Qed.

Lemma sumOver_total f allYears :
  sumOver f allYears == total (map f allYears).
Proof. unfold sumOver. rewrite fold_left_Qtotal. lra. Qed.

Lemma total_perm l l' : Permutation l l' -> total l == total l'.
Proof.
  induction 1 as [|a l l' _ IH|a b l|l l' l'' _ IH1 _ IH2]; simpl.
  - reflexivity.
  - now rewrite IH.
  - lra.
  - now rewrite IH1.
Qed.

Lemma sumOver_perm f allYears allYears' :
  Permutation allYears allYears' ->
  sumOver f allYears == sumOver f allYears'.
Proof.
  intros H. rewrite !sumOver_total. now apply total_perm, Permutation_map.
Qed.

Lemma meanOver_average f allYears :
  meanOver f allYears == average (map f allYears).
Proof.
  unfold meanOver, average, lengthOf.
  now rewrite sumOver_total, length_map.
Qed.

Lemma mathRound_comp x y : x == y -> mathRound x = mathRound y.
Proof.
  intros H. unfold mathRound. f_equal. apply Qfloor_comp. now rewrite H.
Qed.

Lemma rounded_mean f allYears :
  mathRound (meanOver f allYears) = mathRound (average (map f allYears)).
Proof. apply mathRound_comp, meanOver_average. Qed.

Section Best.

Context {B : Type} (key : B -> Q) (f : YearStats -> B).

Lemma bestOver_grows allYears : forall init,
  key init <= key (bestOver key f init allYears).
Proof.
  unfold bestOver.
  induction allYears as [|y ys IH]; simpl; intros init; [lra|].
  destruct (Qltb (key init) (key (f y))) eqn:E.
  - apply Qltb_lt in E. specialize (IH (f y)). lra.
  - apply IH.
Qed.

Lemma bestOver_bound allYears : forall init y,
  In y allYears -> key (f y) <= key (bestOver key f init allYears).
Proof.
  unfold bestOver.
  induction allYears as [|z ys IH]; simpl; intros init y H; [contradiction|].
  destruct H as [<-|H]; [|now apply IH].
  destruct (Qltb (key init) (key (f z))) eqn:E.
  - apply (bestOver_grows ys (f z)).
  - apply Qltb_ge in E.
    pose proof (bestOver_grows ys init) as G. unfold bestOver in G. lra.
Qed.

Lemma bestOver_member allYears : forall init,
  bestOver key f init allYears = init \/
  exists y, In y allYears /\ bestOver key f init allYears = f y.
Proof.
  unfold bestOver.
  induction allYears as [|z ys IH]; simpl; intros init; [now left|].
  destruct (Qltb (key init) (key (f z))) eqn:E.
  - right. destruct (IH (f z)) as [H|(y & Hy & H)].
    + exists z. split; [now left|exact H].
    + exists y. split; [now right|exact H].
  - destruct (IH init) as [H|(y & Hy & H)]; [now left|].
    right. exists y. split; [now right|exact H].
Qed.

End Best.

Lemma mergeSeries_sorted {V} (f : YearStats -> list (string * V)) allYears :
  StronglySorted dateOrder (mergeSeries f allYears).
Proof. apply sortBy_byDate_sorted. Qed.

Lemma mergeSeries_perm {V} (f : YearStats -> list (string * V)) allYears :
  Permutation (flat_map f allYears) (mergeSeries f allYears).
Proof. apply sortBy_perm. Qed.

Lemma mergeSeries_order_independent {V} (f : YearStats -> list (string * V))
    allYears allYears' :
  Permutation allYears allYears' ->
  Permutation (mergeSeries f allYears) (mergeSeries f allYears').
Proof.
  intros H. rewrite <- !mergeSeries_perm. now apply Permutation_flat_map.
Qed.

Lemma allTime_minSpO2_without_data allYears :
  (forall y, In y allYears -> positive (minSpO2 y) = false) ->
  minSpO2 (allTime allYears) = PosInfinity.
Proof.
  intros H. cbn [allTime minSpO2].
  assert (E : filter positive (map minSpO2 allYears) = []).
  { induction allYears as [|y ys IH]; [reflexivity|]. simpl.
    rewrite (H y (or_introl eq_refl)). apply IH.
    intros z Hz. apply H. now right. }
  now rewrite E.
Qed.


Lemma bestOver_bestOf {B} (key : B -> Q) (f : YearStats -> B) init allYears :
  bestOf key f init allYears (bestOver key f init allYears).
Proof.
  split; [|split].
  - intros y. apply bestOver_bound.
  - apply bestOver_grows.
  - apply bestOver_member.
Qed.

Lemma mergeSeries_merged {V} (f : YearStats -> list (string * V)) allYears :
  merged f allYears (mergeSeries f allYears).
Proof. split; [apply mergeSeries_sorted|apply mergeSeries_perm]. Qed.

(** C9 as the specification states it fails: the All Time efficiency of two
    years with efficiencies 85 and 90 is 88, not their mean 87.5. *)
Lemma all_time_rate_is_not_the_plain_mean :
  ~ (forall allYears,
        allYears <> [] ->
        avgEfficiency (allTime allYears)
        == average (map avgEfficiency allYears)).
Proof.
  intros H.
  assert (E : avgEfficiency (allTime exampleYears)
              == average (map avgEfficiency exampleYears)).
  { apply H. discriminate. }
  vm_compute in E. discriminate E.
Qed.

(** C9 (amended).  The All Time entry, computed when there is at least one
    year, is a function of the per-year results in which the total fields are the sums over the years, the rate fields
    (daily average, efficiency, resting HR, HRV, stress) are the arithmetic
    means over the years rounded to the nearest integer, the best-of fields
    are maximal among the years' own best values, and every merged per-day
    series is sorted by date and made of the points of the years; permuting
    the years changes neither the totals nor the points of a series.  Two
    years with steps 100, 200 and 300 have 600 total steps. *)
Theorem all_time_aggregation (allYears : list YearStats) :
  allYears <> [] ->
  Forall (fun f => f (allTime allYears) == total (map f allYears))
    [totalSteps; totalCalories; totalDistance; totalWorkouts;
     totalWorkoutDuration; totalWorkoutCalories; totalWorkoutDistance] /\
  Forall (fun f => f (allTime allYears) = mathRound (average (map f allYears)))
    [dailyAvg; avgEfficiency; avgRestingHR; avgHRV; avgStress] /\
  bestOf count bestDay (mkDayCount 0 EmptyString) allYears (bestDay (allTime allYears)) /\
  bestOf steps bestMonth (mkMonthSteps EmptyString 0) allYears
         (bestMonth (allTime allYears)) /\
  bestOf count (fun y => mostStepsDay (personalRecords y)) (mkDayCount 0 EmptyString)
         allYears (mostStepsDay (personalRecords (allTime allYears))) /\
  bestOf duration (fun y => longestWorkout (personalRecords y))
         (mkWorkout 0 EmptyString EmptyString) allYears
         (longestWorkout (personalRecords (allTime allYears))) /\
  bestOf score (fun y => bestSleepScore (personalRecords y))
         (mkSleepScore 0 EmptyString) allYears
         (bestSleepScore (personalRecords (allTime allYears))) /\
  Forall (fun f => merged f allYears (f (allTime allYears)))
    [dailyStepData; dailySleepData; dailySleepScoreData] /\
  Forall (fun f => merged f allYears (f (allTime allYears)))
    [dailyHRData; dailyHRVData; dailyStressData; dailySpO2Data] /\
  merged dailyWorkoutData allYears (dailyWorkoutData (allTime allYears)) /\
  (forall allYears',
      Permutation allYears allYears' ->
      Forall (fun f => f (allTime allYears) == f (allTime allYears'))
        [totalSteps; totalCalories; totalDistance; totalWorkouts;
         totalWorkoutDuration; totalWorkoutCalories; totalWorkoutDistance] /\
      Forall (fun f => Permutation (f (allTime allYears))
                                   (f (allTime allYears')))
        [dailyStepData; dailySleepData; dailySleepScoreData] /\
      Forall (fun f => Permutation (f (allTime allYears))
                                   (f (allTime allYears')))
        [dailyHRData; dailyHRVData; dailyStressData; dailySpO2Data] /\
      Permutation (dailyWorkoutData (allTime allYears))
                  (dailyWorkoutData (allTime allYears'))) /\
  totalSteps (allTime exampleYears) == 600.
Proof.
  intros _.
  split; [repeat constructor; apply sumOver_total|].
  split; [repeat constructor; apply rounded_mean|].
  do 5 (split; [apply bestOver_bestOf|]).
  split; [repeat constructor; apply mergeSeries_merged|].
  split; [repeat constructor; apply mergeSeries_merged|].
  split; [apply mergeSeries_merged|].
  split; [|reflexivity].
  intros allYears' P.
  split; [repeat constructor; now apply sumOver_perm|].
  split; [repeat constructor; now apply mergeSeries_order_independent|].
  split; [repeat constructor; now apply mergeSeries_order_independent|].
  now apply mergeSeries_order_independent.
Qed.

Lemma all_time_aggregation_witness :
  totalSteps (allTime exampleYears) == totalSteps (allTime (rev exampleYears)).
Proof.
  assert (N : exampleYears <> []) by discriminate.
  destruct (all_time_aggregation exampleYears N)
    as (_ & _ & _ & _ & _ & _ & _ & _ & _ & _ & H & _).
  destruct (H (rev exampleYears) (Permutation_rev exampleYears)) as (T & _).
  now inversion T.
Defined.

(** C8 (fails on the code).  The day value of HRV and of stress divides by
    the number of samples without a guard, so a day bucket without sample
    gets NaN (the day is then dropped by the filter); the day value of SpO2
    of a bucket without sample is the minimum of nothing, Infinity, which
    passes the filter and becomes the minimum of the year; and the All Time
    minimum over years without SpO2 data is Infinity.  The reductions next
    to them are guarded and give 0. *)
Theorem empty_reductions_are_not_all_guarded :
  meanValue [] = NaN /\
  Wellness.dailyHRVData [hrvRowWithoutBin] = [] /\
  lowestValue [] = PosInfinity /\
  Wellness.dailySpO2Data [spo2RowWithoutValue]
    = [("2024-03-01"%string, PosInfinity)] /\
  seriesMinimum (Wellness.dailySpO2Data [spo2RowWithoutValue]) = PosInfinity /\
  (forall allYears,
      (forall y, In y allYears -> positive (minSpO2 y) = false) ->
      minSpO2 (allTime allYears) = PosInfinity) /\
  minSpO2 (allTime exampleYears) = PosInfinity /\
  restingValue [] = Num 0 /\
  seriesAverage [] = Num 0 /\
  seriesMinimum [] = Num 0.
Proof.
  repeat split; try reflexivity.
  exact allTime_minSpO2_without_data.
Qed.

Lemma empty_reductions_are_not_all_guarded_witness :
  minSpO2 (allTime exampleYears) = PosInfinity.
Proof.
  destruct empty_reductions_are_not_all_guarded as (_ & _ & _ & _ & _ & H & _).
  apply H. intros y [<-|[<-|[]]]; reflexivity.
Defined.

End AllTimeFacts.

(** ** Year discovery and the result of the pipeline *)

Section PipelineFacts.

Import JsArray Wellness Pipeline Lqa.
Local Open Scope Q_scope.



Section WithCalendar.

Variable getFullYear : Z -> Z.
Variable buildYear : HealthData -> Z -> Years.YearStats.





End WithCalendar.





End PipelineFacts.

(** ** Rounding in the statistics *)

Section DoublesFacts.

Import PrimFloat Doubles.
Local Open Scope float_scope.

Lemma calculateCorrelation_guard x y :
  List.length x <> List.length y \/ x = [] -> calculateCorrelation x y = 0.
Proof.
  intros H. unfold calculateCorrelation.
  destruct (Nat.eqb (List.length x) (List.length y)) eqn:E; [|reflexivity].
  apply Nat.eqb_eq in E. destruct H as [H| ->]; [contradiction|reflexivity].
Qed.

(** C6 (fails on the code).  The result is 0 when the lengths differ or
    the series are empty, and when the denominator is exactly 0, as for the
    constant series 3, 3.  But the guard compares a rounded number with 0:
    for the constant series 6.9, 6.9, 6.9 the factor [n * sumX2 - sumX *
    sumX] is a negative rounding residue instead of 0, so that the
    correlation with 0, 1, 2 is NaN, where the claim has 0, and the one
    with itself is -1, where the claim has 1 or 0; and for the series
    100000000, 100000001, which is not constant, the factor rounds to 0,
    so that the correlation with itself is 0, where the claim has 1. *)
Theorem correlation_guard_misses_rounded_zero_variance :
  (forall x y, List.length x <> List.length y \/ x = [] ->
               calculateCorrelation x y = 0) /\
  (forall x y, eqb (sqrt (varianceTerm x * varianceTerm y)) 0 = true ->
               calculateCorrelation x y = 0) /\
  calculateCorrelation [3; 3] [3; 3] = 0 /\
  ltb (varianceTerm constantSeries) 0 = true /\
  is_nan (calculateCorrelation constantSeries risingSeries) = true /\
  calculateCorrelation constantSeries constantSeries = -1 /\
  varianceTerm largeSeries = 0 /\
  calculateCorrelation largeSeries largeSeries = 0.
Proof.
  split; [exact calculateCorrelation_guard|].
  split.
  { intros x y H. unfold calculateCorrelation.
    destruct (negb _ || _); [reflexivity|]. cbn zeta. now rewrite H. }
  repeat split; vm_compute; reflexivity.
Qed.

Lemma correlation_guard_misses_rounded_zero_variance_witness :
  calculateCorrelation [1] [] = 0.
Proof.
  apply (proj1 correlation_guard_misses_rounded_zero_variance).
  left. discriminate.
Defined.

Lemma toMinutes_rounded_wrap avgAngle :
  ltb avgAngle 0 = true -> avgAngle + 2 * PI = 2 * PI ->
  toMinutes avgAngle = 1440.
Proof.
  intros N E. unfold toMinutes. rewrite N. cbn zeta. rewrite E.
  vm_compute. reflexivity.
Qed.

(** C5 (fails on the code).  The circular average of a non-empty list
    is the conversion [toMinutes] of the angle [Math.atan2] returns.  The
    conversion adds [2 * PI] to a negative angle; when the angle is within
    rounding of 0 the sum is [2 * PI] itself and the result is exactly
    1440, which is not below 1440: so it is for the angle of the samples
    1430 and 10, an angle between [- PI] and 0. *)
Theorem circular_average_wraps_to_1440 :
  (forall math m rest,
      calculateCircularAverage math (m :: rest)
      = toMinutes (resultantAngle math (m :: rest))) /\
  (forall avgAngle,
      ltb avgAngle 0 = true -> avgAngle + 2 * PI = 2 * PI ->
      toMinutes avgAngle = 1440) /\
  leb (- PI) straddlingAngle = true /\
  ltb straddlingAngle 0 = true /\
  straddlingAngle + 2 * PI = 2 * PI /\
  toMinutes straddlingAngle = 1440 /\
  ltb (toMinutes straddlingAngle) 1440 = false.
Proof.
  split; [reflexivity|].
  split; [exact toMinutes_rounded_wrap|].
  repeat split; vm_compute; reflexivity.
Qed.

Lemma circular_average_wraps_to_1440_witness :
  toMinutes straddlingAngle = 1440.
Proof.
  destruct circular_average_wraps_to_1440 as (_ & H & _).
  apply H; vm_compute; reflexivity.
Defined.

End DoublesFacts.

(** * Further properties *)

(** ** The field splitter and the rows of the parser *)

Section CsvMoreFacts.

Import JsString Csv CsvNotions.
Local Open Scope string_scope.

Lemma splitLoop_length line : forall result current,
  quoteFree line ->
  List.length (splitLoop line result current false)
  = List.length result + S (countChar comma line).
Proof.
  induction line as [|c rest IH]; simpl; intros result current H.
  - rewrite length_app. simpl. lia.
  - unfold quoteFree in H. simpl in H. apply orb_false_iff in H.
    destruct H as [Hc Hr]. rewrite Hc.
    destruct (Ascii.eqb c comma) eqn:E; simpl.
    + rewrite IH by exact Hr. rewrite length_app. simpl. lia.
    + rewrite IH by exact Hr. lia.
Qed.

(** X2.  A line without double quote has one field more than it has
    commas; in particular a line is never split into zero fields. *)
Theorem splitCSVLine_field_count line :
  quoteFree line ->
  List.length (splitCSVLine line) = S (countChar comma line).
Proof. intros H. unfold splitCSVLine. now rewrite splitLoop_length. Qed.

Lemma splitLoop_nonempty line : forall result current inQuotes,
  splitLoop line result current inQuotes <> [].
Proof.
  induction line as [|c rest IH]; simpl; intros result current inQuotes.
  - intros H. apply app_eq_nil in H. destruct H as [_ H]. discriminate.
  - destruct (Ascii.eqb c dquote); [apply IH|].
    destruct (Ascii.eqb c comma && negb inQuotes); apply IH.
Qed.

Lemma trimEnd_cons c r :
  trimEnd (String c r) =
  match trimEnd r with
  | EmptyString => if isWhitespace c then EmptyString else String c EmptyString
  | rest => String c rest
  end.
Proof. reflexivity. Qed.

Lemma trimEnd_idempotent s : trimEnd (trimEnd s) = trimEnd s.
Proof.
  induction s as [|c r IH]; [reflexivity|]. rewrite trimEnd_cons.
  destruct (trimEnd r) as [|c' r'] eqn:E.
  - destruct (isWhitespace c) eqn:W; [reflexivity|].
    rewrite trimEnd_cons. cbn [trimEnd]. now rewrite W.
  - rewrite trimEnd_cons, IH. reflexivity.
Qed.

Lemma trimStart_startsClean s : startsClean (trimStart s).
Proof.
  induction s as [|c r IH]; simpl; [exact I|].
  destruct (isWhitespace c) eqn:W; [exact IH|exact W].
Qed.

Lemma trimStart_clean s : startsClean s -> trimStart s = s.
Proof. destruct s as [|c r]; simpl; [reflexivity|]. now intros ->. Qed.

Lemma trimEnd_startsClean s : startsClean s -> startsClean (trimEnd s).
Proof.
  destruct s as [|c r]; simpl; [exact (fun H => H)|]. intros W.
  destruct (trimEnd r); [rewrite W|]; exact W.
Qed.

Lemma trim_idempotent s : trim (trim s) = trim s.
Proof.
  unfold trim.
  rewrite (trimStart_clean (trimEnd (trimStart s))).
  - apply trimEnd_idempotent.
  - apply trimEnd_startsClean, trimStart_startsClean.
Qed.

Lemma splitLoop_trimmed line : forall result current inQuotes,
  Forall (fun f => trim f = f) result -> quoteFree current ->
  Forall (fun f => trim f = f) (splitLoop line result current inQuotes).
Proof.
  induction line as [|c rest IH]; simpl; intros result current inQuotes Hr Hc.
  - apply Forall_app. split; [exact Hr|].
    constructor; [|constructor].
    rewrite (cleanField_quoteFree _ Hc). apply trim_idempotent.
  - destruct (Ascii.eqb c dquote) eqn:Eq.
    + now apply IH.
    + destruct (Ascii.eqb c comma && negb inQuotes).
      * apply IH; [|reflexivity].
        apply Forall_app. split; [exact Hr|].
        constructor; [|constructor].
        rewrite (cleanField_quoteFree _ Hc). apply trim_idempotent.
      * apply IH; [exact Hr|].
        unfold quoteFree. rewrite hasChar_append. simpl.
        unfold quoteFree in Hc. now rewrite Hc, Eq.
Qed.

(** X3.  No field of a line starts or ends with white space: trimming a
    field again changes nothing. *)
Theorem splitCSVLine_fields_trimmed line field :
  In field (splitCSVLine line) -> trim field = field.
Proof.
  intros H.
  assert (F : Forall (fun f => trim f = f) (splitCSVLine line)).
  { apply splitLoop_trimmed; [constructor|reflexivity]. }
  rewrite Forall_forall in F. now apply F.
Qed.


Lemma splitCSVLine_field_count_witness :
  List.length (splitCSVLine fourFieldLine) = 4.
Proof. apply (splitCSVLine_field_count fourFieldLine). reflexivity. Defined.

Lemma splitCSVLine_fields_trimmed_witness : trim "b,c" = "b,c".
Proof.
  apply (splitCSVLine_fields_trimmed quotedCommaLine).
  right. left. reflexivity.
Defined.

Lemma getProp_setProp_same obj k v : getProp (setProp obj k v) k = Some v.
Proof.
  induction obj as [|[k' v'] obj IH]; simpl.
  - now rewrite String.eqb_refl.
  - destruct (String.eqb k' k) eqn:E; simpl.
    + now rewrite String.eqb_refl.
    + now rewrite E.
Qed.

Lemma getProp_setProp_other obj k v k' :
  k <> k' -> getProp (setProp obj k v) k' = getProp obj k'.
Proof.
  intros N. induction obj as [|[k0 v0] obj IH]; simpl.
  - apply String.eqb_neq in N. now rewrite N.
  - destruct (String.eqb k0 k) eqn:E; simpl.
    + apply String.eqb_eq in E. subst k0.
      apply String.eqb_neq in N. now rewrite N.
    + destruct (String.eqb k0 k'); [reflexivity|exact IH].
Qed.

Lemma getProp_assign_same obj k v :
  k <> protoKey -> getProp (assign obj k v) k = Some v.
Proof.
  intros N. unfold assign. apply String.eqb_neq in N. rewrite N.
  apply getProp_setProp_same.
Qed.

Lemma getProp_assign_other obj k v k' :
  k <> k' -> getProp (assign obj k v) k' = getProp obj k'.
Proof.
  intros N. unfold assign. destruct (String.eqb k protoKey); [reflexivity|].
  now apply getProp_setProp_other.
Qed.

Lemma getProp_assign_proto obj k v :
  getProp (assign obj k v) protoKey = getProp obj protoKey.
Proof.
  unfold assign. destruct (String.eqb k protoKey) eqn:E; [reflexivity|].
  apply getProp_setProp_other. now apply String.eqb_neq.
Qed.

Lemma fillRow_untouched headers : forall obj values k,
  ~ In k headers -> getProp (fillRow obj headers values) k = getProp obj k.
Proof.
  induction headers as [|h hs IH]; intros obj values k N; [reflexivity|].
  destruct values as [|v vs]; [reflexivity|]. simpl.
  rewrite IH by (intros H; apply N; now right).
  apply getProp_assign_other. intros ->. apply N. now left.
Qed.

Lemma fillRow_proto headers : forall obj values,
  getProp (fillRow obj headers values) protoKey = getProp obj protoKey.
Proof.
  induction headers as [|h hs IH]; intros obj values; [reflexivity|].
  destruct values as [|v vs]; [reflexivity|]. simpl.
  rewrite IH. apply getProp_assign_proto.
Qed.

Lemma fillRow_lookup headers : forall obj values i,
  List.length headers <= List.length values ->
  i < List.length headers ->
  nth i headers EmptyString <> protoKey ->
  (forall j, i < j < List.length headers ->
             nth j headers EmptyString <> nth i headers EmptyString) ->
  getProp (fillRow obj headers values) (nth i headers EmptyString)
  = Some (nth i values EmptyString).
Proof.
  induction headers as [|h hs IH]; intros obj values i Hl Hi Hp Hlast;
    [simpl in Hi; lia|].
  destruct values as [|v vs]; [simpl in Hl; lia|].
  simpl in Hl, Hi. destruct i as [|i]; cbn [fillRow nth].
  - rewrite fillRow_untouched.
    + now apply getProp_assign_same.
    + intros Hin. apply (In_nth _ _ EmptyString) in Hin.
      destruct Hin as (j & Hj & E).
      apply (Hlast (S j)); [simpl; lia|exact E].
  - apply IH; [lia|lia|exact Hp|].
    intros j Hj. apply (Hlast (S j)). simpl. lia.
Qed.

Lemma setProp_length obj k v :
  List.length (setProp obj k v) <= S (List.length obj).
Proof.
  induction obj as [|[k' w] obj IH]; simpl; [lia|].
  destruct (String.eqb k' k); simpl; lia.
Qed.

Lemma assign_length obj k v :
  List.length (assign obj k v) <= S (List.length obj).
Proof.
  unfold assign. destruct (String.eqb k protoKey); [lia|].
  apply setProp_length.
Qed.

Lemma fillRow_length headers : forall values obj,
  List.length (fillRow obj headers values)
  <= List.length obj + List.length headers.
Proof.
  induction headers as [|h hs IH]; intros values obj; simpl; [lia|].
  destruct values as [|v vs]; [lia|].
  etransitivity; [apply IH|]. pose proof (assign_length obj h v). lia.
Qed.

Lemma parseRow_cases headers raw row :
  In row (parseRow headers raw) ->
  trim raw <> EmptyString /\
  List.length headers <= List.length (splitCSVLine (trim raw)) /\
  row = fillRow [] headers (splitCSVLine (trim raw)).
Proof.
  unfold parseRow.
  destruct (String.eqb (trim raw) EmptyString) eqn:E; [intros []|].
  destruct (Nat.ltb _ _) eqn:L; [intros []|].
  intros [<-|[]]. apply String.eqb_neq in E. apply Nat.ltb_ge in L.
  now repeat split.
Qed.

Lemma parseRow_length headers raw : List.length (parseRow headers raw) <= 1.
Proof.
  unfold parseRow. destruct (String.eqb _ _); [simpl; lia|].
  destruct (Nat.ltb _ _); simpl; lia.
Qed.

Lemma flat_map_parseRow_length headers lines :
  List.length (flat_map (parseRow headers) lines) <= List.length lines.
Proof.
  induction lines as [|l ls IH]; simpl; [lia|].
  rewrite length_app. pose proof (parseRow_length headers l). lia.
Qed.

Lemma splitLines_length s :
  List.length (splitLines s) = S (countChar newline s).
Proof.
  induction s as [|c r IH]; simpl; [reflexivity|].
  destruct (Ascii.eqb c newline); simpl; [now rewrite IH|].
  destruct (splitLines r); simpl in *; lia.
Qed.

(** X5.  The rows are at most as many as the line breaks of the text: a
    text of one line gives no row, whatever the line. *)
Theorem parseCSV_row_count csvText :
  List.length (parseCSV csvText) <= countChar newline csvText /\
  (hasChar newline csvText = false -> parseCSV csvText = []).
Proof.
  assert (B : List.length (parseCSV csvText) <= countChar newline csvText).
  { unfold parseCSV, parseLines.
    pose proof (splitLines_length csvText) as L.
    destruct (Nat.ltb _ 2); [simpl; lia|].
    destruct (headerLineIndex (splitLines csvText)) as [h|]; [|simpl; lia].
    etransitivity; [apply flat_map_parseRow_length|].
    rewrite length_skipn. lia. }
  split; [exact B|].
  intros H.
  assert (Z : countChar newline csvText = 0).
  { clear B. induction csvText as [|c r IH]; [reflexivity|].
    simpl in *. apply orb_false_iff in H. destruct H as [Hc Hr].
    rewrite Hc. now apply IH. }
  rewrite Z in B. destruct (parseCSV csvText); [reflexivity|simpl in B; lia].
Qed.

(** X4.  Every returned row comes from a non-blank line after the header
    that has at least as many fields as the header; it has no property of
    its own under the key [__proto__], whatever the header; and reading in
    it a header name other than [__proto__] gives the field of the same
    column (of the last column of that name when the header repeats a
    name); fields beyond the header are not kept. *)
Theorem parseCSV_row_lookup csvText row :
  In row (parseCSV csvText) ->
  let lines := splitLines csvText in
  exists h raw,
    headerLineIndex lines = Some h /\
    In raw (skipn (S h) lines) /\
    trim raw <> EmptyString /\
    let headers := splitCSVLine (nth h lines EmptyString) in
    let values := splitCSVLine (trim raw) in
    List.length headers <= List.length values /\
    List.length row <= List.length headers /\
    getProp row protoKey = None /\
    forall i,
      i < List.length headers ->
      nth i headers EmptyString <> protoKey ->
      (forall j, i < j < List.length headers ->
                 nth j headers EmptyString <> nth i headers EmptyString) ->
      getProp row (nth i headers EmptyString)
      = Some (nth i values EmptyString).
Proof.
  intros H lines. unfold parseCSV, parseLines in H. fold lines in H.
  destruct (Nat.ltb _ 2); [destruct H|].
  destruct (headerLineIndex lines) as [h|] eqn:E; [|destruct H].
  apply in_flat_map in H. destruct H as (raw & Hraw & Hrow).
  apply parseRow_cases in Hrow. destruct Hrow as (Hne & Hlen & ->).
  exists h, raw. repeat split; try assumption.
  - apply (fillRow_length _ _ []).
  - apply fillRow_proto.
  - intros i Hi Hp Hlast. now apply fillRow_lookup.
Qed.


Lemma parseCSV_row_count_witness : parseCSV exampleHeaderLine = [].
Proof. apply (parseCSV_row_count exampleHeaderLine). reflexivity. Defined.

Lemma parseCSV_row_lookup_witness :
  exists row h raw,
    In row (parseCSV exampleBlob) /\
    headerLineIndex (splitLines exampleBlob) = Some h /\
    In raw (skipn (S h) (splitLines exampleBlob)) /\
    trim raw <> EmptyString.
Proof.
  set (row := [("Date", "2024-01-01"); ("Count", "100"); ("Calorie", "5");
               ("Distance", "80"); ("Speed", "1"); ("Source", "-2")]).
  assert (H : In row (parseCSV exampleBlob)) by (left; reflexivity).
  destruct (parseCSV_row_lookup exampleBlob row H)
    as (h & raw & E & Hraw & Hne & _).
  exists row, h, raw. repeat split; assumption.
Defined.

Lemma append_assoc_char (current : string) c s :
  (current ++ String c EmptyString) ++ s = current ++ String c s.
Proof. induction current; simpl; congruence. Qed.

Lemma append_empty_r (s : string) : s ++ EmptyString = s.
Proof. induction s; simpl; congruence. Qed.

Lemma splitLoop_plain s : forall rest result current,
  quoteFree s -> hasChar comma s = false ->
  splitLoop (s ++ rest) result current false =
  splitLoop rest result (current ++ s) false.
Proof.
  induction s as [|c s IH]; simpl; intros rest result current Hq Hc.
  - now rewrite append_empty_r.
  - unfold quoteFree in Hq. simpl in Hq.
    apply orb_false_iff in Hq. destruct Hq as [Hq Hqs].
    apply orb_false_iff in Hc. destruct Hc as [Hc Hcs].
    rewrite Hq, Hc. simpl.
    rewrite IH by assumption. now rewrite append_assoc_char.
Qed.

Lemma splitLoop_quoted_segment s rest result current :
  quoteFree s ->
  splitLoop (quoted s ++ rest) result current false =
  splitLoop rest result (current ++ s) false.
Proof.
  intros H. unfold quoted. cbn [append splitLoop].
  rewrite Ascii.eqb_refl. cbn [negb].
  rewrite append_assoc_char, splitLoop_quoted by exact H.
  cbn [splitLoop]. now rewrite Ascii.eqb_refl.
Qed.

(** X1.  A quoted field between two plain fields: its commas stay in it,
    and the three fields come out trimmed. *)
Theorem splitCSVLine_quoted_field before inside after :
  quoteFree before -> hasChar comma before = false ->
  quoteFree inside ->
  quoteFree after -> hasChar comma after = false ->
  splitCSVLine (before ++ String comma (quoted inside ++ String comma after))
  = [trim before; trim inside; trim after].
Proof.
  intros Hb Hbc Hi Ha Hac. unfold splitCSVLine.
  rewrite splitLoop_plain by assumption.
  assert (Comma : forall rest result current,
             splitLoop (String comma rest) result current false
             = splitLoop rest (result ++ [cleanField current])%list
                         EmptyString false) by reflexivity.
  rewrite Comma, splitLoop_quoted_segment, Comma by assumption.
  rewrite <- (append_empty_r after) at 1.
  rewrite splitLoop_plain by assumption. cbn [splitLoop append app].
  rewrite !cleanField_quoteFree by assumption. reflexivity.
Qed.


Lemma splitCSVLine_quoted_field_witness :
  splitCSVLine paddedQuotedLine = ["a"; "b, c"; "d"].
Proof.
  apply (splitCSVLine_quoted_field " a" "b, c" "d "); reflexivity.
Defined.

End CsvMoreFacts.

(** ** Sleep candidates and the dedup loop *)

Section SleepMoreFacts.

Import JsString JsArray Sleep Lqa.
Local Open Scope Q_scope.

Lemma toIntegerMs_after z q : 0 <= q -> (z <= toIntegerMs (inject_Z z + q))%Z.
Proof.
  intros Hq. unfold toIntegerMs.
  destruct (Qle_bool 0 (inject_Z z + q)).
  - rewrite <- (Qfloor_Z z) at 1. apply Qfloor_resp_le. lra.
  - rewrite Zle_Qle.
    pose proof (Qle_ceiling (inject_Z z + q)). lra.
Qed.

Lemma resolveAsleepTime_bound isCombined efficiency sp rawDuration :
  0 < resolveAsleepTime isCombined efficiency sp rawDuration ->
  0 < rawDuration /\
  resolveAsleepTime isCombined efficiency sp rawDuration <= rawDuration.
Proof.
  unfold resolveAsleepTime.
  destruct (negb isCombined && Qltb 0 efficiency && Qltb efficiency 100) eqn:E;
    [|intros H; split; lra].
  destruct (spanMatches sp rawDuration); [|intros H; split; lra].
  apply andb_true_iff in E. destruct E as [E E100].
  apply andb_true_iff in E. destruct E as [_ E0].
  apply Qltb_lt in E0, E100. intros H.
  assert (F : 0 < efficiency / 100) by (apply Qlt_shift_div_l; lra).
  assert (G : efficiency / 100 < 1) by (apply Qlt_shift_div_r; lra).
  assert (P : 0 < rawDuration) by nra.
  split; [exact P|]. nra.
Qed.

(** X6.  Every candidate that reaches the dedup step has a positive asleep
    time, not larger than its raw duration, and a time range that does not
    end before it starts. *)
Theorem enrichedSleep_invariant rows r :
  In r (enrichedSleep rows) ->
  0 < _duration r /\ _duration r <= _rawDuration r /\
  (_start r <= _end r)%Z.
Proof.
  unfold enrichedSleep. rewrite in_flat_map. intros (s & _ & H).
  destruct (enrich s) as [r'|] eqn:E; [|destruct H].
  destruct (Qltb 0 (_duration r')) eqn:P; [|destruct H].
  destruct H as [<-|[]]. apply Qltb_lt in P.
  unfold enrich in E. destruct (startMs s) as [start|]; [|discriminate].
  injection E as <-. cbn [_duration _rawDuration _start _end] in *.
  destruct (resolveAsleepTime_bound _ _ _ _ P) as [Hr Hle].
  repeat split; try assumption.
  destruct (endUnusable start (endMs s)) eqn:U.
  - apply toIntegerMs_after. lra.
  - unfold endUnusable in U. destruct (endMs s) as [e|]; [|discriminate].
    apply Z.leb_gt in U. lia.
Qed.

Lemma StronglySorted_remove {A} (R : A -> A -> Prop) a x b :
  StronglySorted R (a ++ x :: b) -> StronglySorted R (a ++ b).
Proof.
  induction a as [|y a IH]; simpl; intros H.
  - now apply StronglySorted_inv in H.
  - apply StronglySorted_inv in H. destruct H as [Hs Hf].
    constructor; [now apply IH|].
    apply Forall_app in Hf. destruct Hf as [Ha Hb].
    apply Forall_app. split; [exact Ha|].
    now inversion Hb.
Qed.

Lemma StronglySorted_before {A} (R : A -> A -> Prop) p x q k :
  StronglySorted R (p ++ x :: q) -> In k p -> R k x.
Proof.
  induction p as [|y p IH]; simpl; intros H Hk; [destruct Hk|].
  apply StronglySorted_inv in H. destruct H as [Hs Hf].
  destruct Hk as [<-|Hk]; [|now apply IH].
  rewrite Forall_forall in Hf. apply Hf. apply in_or_app. right. now left.
Qed.

Lemma dedup_loop_sorted (R : Session -> Session -> Prop) records :
  forall keptSleep,
    StronglySorted R (keptSleep ++ records) ->
    StronglySorted R (fold_left dedupStep records keptSleep).
Proof.
  induction records as [|r records IH]; simpl; intros keptSleep H.
  - now rewrite app_nil_r in H.
  - apply IH. unfold dedupStep.
    destruct (isEncapsulated keptSleep r).
    + now apply StronglySorted_remove in H.
    + now rewrite <- app_assoc.
Qed.

Lemma dedup_loop_length records : forall keptSleep,
  (List.length (fold_left dedupStep records keptSleep)
   <= List.length keptSleep + List.length records)%nat.
Proof.
  induction records as [|r records IH]; simpl; intros keptSleep; [lia|].
  etransitivity; [apply IH|]. unfold dedupStep.
  destruct (isEncapsulated keptSleep r); [lia|].
  rewrite length_app. simpl. lia.
Qed.

Lemma dedup_loop_head records : forall k keptSleep,
  exists rest, fold_left dedupStep records (k :: keptSleep) = k :: rest.
Proof.
  induction records as [|r records IH]; simpl; intros k keptSleep.
  - now exists keptSleep.
  - unfold dedupStep. destruct (isEncapsulated (k :: keptSleep) r).
    + apply IH.
    + simpl. apply IH.
Qed.

(** X7.  The kept sessions are candidates, they are in priority order,
    they are not more than the candidates, and the candidate of highest
    priority is always kept, first. *)
Theorem dedup_keeps_candidates_in_priority_order candidates :
  (forall r, In r (dedup candidates) -> In r candidates) /\
  StronglySorted hasPriority (dedup candidates) /\
  (List.length (dedup candidates) <= List.length candidates)%nat /\
  (candidates <> [] ->
   exists first rest,
     sortBy sleepCompare candidates = first :: rest /\
     exists others, dedup candidates = first :: others).
Proof.
  split; [|split; [|split]].
  - intros r H. unfold dedup in H.
    apply dedup_loop_subset in H. destruct H as [[]|H].
    eapply Permutation_in; [symmetry; apply sortBy_perm|exact H].
  - unfold dedup. apply dedup_loop_sorted. simpl. apply sleep_sort_priority.
  - unfold dedup. etransitivity; [apply dedup_loop_length|]. simpl.
    now rewrite <- (Permutation_length (sortBy_perm sleepCompare candidates)).
  - intros Hne. unfold dedup.
    destruct (sortBy sleepCompare candidates) as [|first rest] eqn:E.
    + exfalso. apply Hne. apply Permutation_nil.
      rewrite <- E. symmetry. apply sortBy_perm.
    + exists first, rest. split; [reflexivity|].
      simpl. unfold dedupStep at 2. simpl. apply dedup_loop_head.
Qed.

(** X8.  A candidate is only dropped when a kept session of at least its
    priority covers it: every candidate is kept or fails the 80 percent test
    against a kept session that the sort places before it. *)
Theorem dedup_rejects_only_covered candidates r :
  In r candidates ->
  In r (dedup candidates) \/
  exists kept,
    In kept (dedup candidates) /\ hasPriority kept r /\
    covers r kept = true.
Proof.
  intros H. unfold dedup.
  assert (Hs := sortBy_sorted sleepCompare sleepCompare_total
                              sleepCompare_trans candidates).
  assert (Hin : In r (sortBy sleepCompare candidates)).
  { eapply Permutation_in; [apply sortBy_perm|exact H]. }
  apply in_split in Hin. destruct Hin as (p & q & E).
  rewrite E in *. rewrite fold_left_app. cbn [fold_left].
  set (before := fold_left dedupStep p []) in *.
  destruct (isEncapsulated before r) eqn:Enc.
  - right. unfold isEncapsulated in Enc. apply existsb_exists in Enc.
    destruct Enc as (k & Hk & Hc). exists k. repeat split.
    + apply dedup_loop_keeps. now apply dedupStep_keeps.
    + apply sleepCompare_priority.
      apply (StronglySorted_before _ p r q); [exact Hs|].
      apply dedup_loop_subset in Hk. now destruct Hk as [[]|Hk].
    + exact Hc.
  - left. apply dedup_loop_keeps. unfold dedupStep. rewrite Enc.
    apply in_or_app. right. now left.
Qed.




Lemma insertBy_head {A} (compare : A -> A -> Q) x l :
  Forall (notAfter compare x) l -> insertBy compare x l = x :: l.
Proof.
  destruct l as [|y l]; [reflexivity|]. intros H. simpl.
  inversion H as [|? ? Hy _]; subst.
  unfold notAfter in Hy. apply Qle_bool_iff in Hy. now rewrite Hy.
Qed.

Lemma sortBy_sorted_id {A} (compare : A -> A -> Q) l :
  StronglySorted (notAfter compare) l -> sortBy compare l = l.
Proof.
  induction 1 as [|x l Hs IH Hx]; [reflexivity|].
  simpl. rewrite IH. now apply insertBy_head.
Qed.

Lemma dedup_loop_replay records : forall keptSleep,
  exists accepted,
    fold_left dedupStep records keptSleep = keptSleep ++ accepted /\
    fold_left dedupStep accepted keptSleep = keptSleep ++ accepted.
Proof.
  induction records as [|r records IH]; simpl; intros keptSleep.
  - exists []. simpl. now rewrite app_nil_r.
  - unfold dedupStep at 2.
    destruct (isEncapsulated keptSleep r) eqn:Enc.
    + apply IH.
    + destruct (IH (keptSleep ++ [r])) as (acc & E1 & E2).
      exists (r :: acc). rewrite <- app_assoc in E1, E2. simpl in E1, E2.
      split; [exact E1|].
      simpl. unfold dedupStep at 2. now rewrite Enc.
Qed.

(** X10.  Running the dedup on its own result changes nothing. *)
Theorem dedup_idempotent candidates :
  dedup (dedup candidates) = dedup candidates.
Proof.
  assert (S : StronglySorted (notAfter sleepCompare) (dedup candidates)).
  { unfold dedup. apply dedup_loop_sorted. simpl.
    apply sortBy_sorted; [apply sleepCompare_total|apply sleepCompare_trans]. }
  unfold dedup at 1. rewrite (sortBy_sorted_id _ _ S).
  unfold dedup.
  destruct (dedup_loop_replay (sortBy sleepCompare candidates) [])
    as (acc & E1 & E2).
  simpl in E1, E2. now rewrite E1, E2.
Qed.


Lemma enrichedSleep_invariant_witness :
  0 < _duration combined80 /\ _duration combined80 <= _rawDuration combined80 /\
  (_start combined80 <= _end combined80)%Z.
Proof.
  apply (enrichedSleep_invariant counterexampleRows). left. reflexivity.
Defined.

Lemma dedup_keeps_candidates_in_priority_order_witness :
  exists first rest,
    sortBy sleepCompare [single100; combined90] = first :: rest /\
    exists others, dedup [single100; combined90] = first :: others.
Proof.
  apply (dedup_keeps_candidates_in_priority_order [single100; combined90]).
  discriminate.
Defined.

Lemma dedup_rejects_only_covered_witness :
  In single100 (dedup [single100; combined90]) \/
  exists kept,
    In kept (dedup [single100; combined90]) /\ hasPriority kept single100 /\
    covers single100 kept = true.
Proof.
  apply (dedup_rejects_only_covered [single100; combined90]). left. reflexivity.
Defined.

End SleepMoreFacts.

(** ** Time-zone offsets *)

Section OffsetFacts.

Import JsString Offset.
Local Open Scope Z_scope.

Lemma digitValue_range c v : digitValue c = Some v -> 0 <= v <= 9.
Proof.
  unfold digitValue.
  destruct ((48 <=? Z.of_nat (nat_of_ascii c))
            && (Z.of_nat (nat_of_ascii c) <=? 57)) eqn:E; [|discriminate].
  intros H. injection H as <-.
  apply andb_true_iff in E. destruct E as [A B].
  apply Z.leb_le in A, B. lia.
Qed.

Lemma twoDigitValue_range a b v : twoDigitValue a b = Some v -> 0 <= v <= 99.
Proof.
  unfold twoDigitValue.
  destruct (digitValue a) as [x|] eqn:Ea; [|discriminate].
  destruct (digitValue b) as [y|] eqn:Eb; [|discriminate].
  intros H. assert (E : v = 10 * x + y) by congruence.
  apply digitValue_range in Ea, Eb. lia.
Qed.

Lemma matchHere_range s hours minutes :
  matchHere s = Some (hours, minutes) ->
  0 <= hours <= 99 /\ 0 <= minutes <= 99.
Proof.
  unfold matchHere.
  destruct s as [|sign [|h1 [|h2 rest]]]; try discriminate.
  destruct (isSign sign); [|discriminate].
  destruct (twoDigitValue h1 h2) as [h|] eqn:Eh; [|discriminate].
  match goal with |- match ?t with _ => _ end = _ -> _ =>
    destruct t as [|m1 [|m2 r]]; try discriminate end.
  destruct (twoDigitValue m1 m2) as [m|] eqn:Em; [|discriminate].
  intros H. injection H as <- <-.
  apply twoDigitValue_range in Eh, Em. lia.
Qed.

Lemma firstMatch_range s : forall hours minutes,
  firstMatch s = Some (hours, minutes) ->
  0 <= hours <= 99 /\ 0 <= minutes <= 99.
Proof.
  induction s as [|c s IH]; intros hours minutes; cbn [firstMatch].
  - destruct (matchHere EmptyString) as [[h m]|] eqn:E; [|discriminate].
    intros H. injection H as <- <-. now apply (matchHere_range EmptyString).
  - destruct (matchHere (String c s)) as [[h m]|] eqn:E.
    + intros H. injection H as <- <-. now apply (matchHere_range (String c s)).
    + apply IH.
Qed.

Lemma includes_single c s :
  includes s (String c EmptyString) = hasChar c s.
Proof.
  induction s as [|a s IH]; [reflexivity|].
  cbn [includes hasChar prefix]. rewrite IH.
  destruct (ascii_dec c a) as [->|N].
  - rewrite Ascii.eqb_refl. now destruct s.
  - assert (E : Ascii.eqb a c = false) by (apply Ascii.eqb_neq; congruence).
    now rewrite E.
Qed.

(** X11.  The offset is between -6039 and 6039 minutes; it is 0 when the
    text has no sign followed by two digits, an optional colon and two
    digits; and its sign is decided by the presence of a hyphen anywhere in
    the text: never positive with one, never negative without. *)
Theorem parseOffset_range_and_sign offsetStr :
  -6039 <= parseOffset offsetStr <= 6039 /\
  (hasChar minusSign offsetStr = true -> parseOffset offsetStr <= 0) /\
  (hasChar minusSign offsetStr = false -> 0 <= parseOffset offsetStr) /\
  (firstMatch offsetStr = None -> parseOffset offsetStr = 0).
Proof.
  unfold parseOffset.
  destruct (String.eqb offsetStr EmptyString); [repeat split; intros; lia|].
  destruct (firstMatch offsetStr) as [[h m]|] eqn:E;
    [|repeat split; intros; lia].
  apply firstMatch_range in E.
  change "-"%string with (String minusSign EmptyString).
  rewrite includes_single.
  destruct (hasChar minusSign offsetStr);
    repeat split; intros; try discriminate; lia.
Qed.

Lemma twoDigitText_value n :
  0 <= n <= 99 ->
  exists a b,
    twoDigitText n = String a (String b EmptyString) /\
    twoDigitValue a b = Some n.
Proof.
  intros H. rewrite <- (Z2Nat.id n) by lia.
  assert (B : (Z.to_nat n < 100)%nat) by lia.
  revert B. generalize (Z.to_nat n). clear. intros k B.
  do 100 (destruct k as [|k]; [eexists; eexists; split; reflexivity|]). lia.
Qed.

Lemma firstMatch_skip prefix s :
  hasChar plusSign prefix = false -> hasChar minusSign prefix = false ->
  firstMatch (prefix ++ s) = firstMatch s.
Proof.
  induction prefix as [|c p IH]; intros Hp Hm; [reflexivity|].
  cbn [hasChar] in Hp, Hm.
  apply orb_false_iff in Hp, Hm. destruct Hp as [Hp Hp'], Hm as [Hm Hm'].
  cbn [append firstMatch].
  assert (E : matchHere (String c (p ++ s)) = None).
  { unfold matchHere. destruct (p ++ s)%string as [|h1 [|h2 r]]; try reflexivity.
    unfold isSign. now rewrite Hp, Hm. }
  rewrite E. now apply IH.
Qed.

Lemma hasChar_app c s t : hasChar c (s ++ t) = hasChar c s || hasChar c t.
Proof.
  induction s as [|a s IH]; simpl; [reflexivity|].
  now rewrite IH, orb_assoc.
Qed.

Lemma twoDigitText_no_minus n :
  0 <= n <= 99 -> hasChar minusSign (twoDigitText n) = false.
Proof.
  intros H. rewrite <- (Z2Nat.id n) by lia.
  assert (B : (Z.to_nat n < 100)%nat) by lia.
  revert B. generalize (Z.to_nat n). clear. intros k B.
  do 100 (destruct k as [|k]; [reflexivity|]). lia.
Qed.

(** X12.  A text made of a prefix without sign, a sign, two digits of
    hours, a colon or not, and two digits of minutes is read back as hours
    times 60 plus minutes, negated when the sign is a hyphen. *)
Theorem parseOffset_reads_offset_text prefix hours withColon minutes :
  hasChar plusSign prefix = false -> hasChar minusSign prefix = false ->
  0 <= hours <= 99 -> 0 <= minutes <= 99 ->
  parseOffset (offsetText prefix plusSign hours withColon minutes)
  = hours * 60 + minutes /\
  parseOffset (offsetText prefix minusSign hours withColon minutes)
  = - (hours * 60 + minutes).
Proof.
  intros Hp Hm Hh Hmin.
  destruct (twoDigitText_value hours Hh) as (a & b & Eh & Vh).
  destruct (twoDigitText_value minutes Hmin) as (c & d & Em & Vm).
  pose proof (twoDigitText_no_minus hours Hh) as Nh.
  pose proof (twoDigitText_no_minus minutes Hmin) as Nm.
  assert (M : forall sign, isSign sign = true ->
             firstMatch (offsetText prefix sign hours withColon minutes)
             = Some (hours, minutes)).
  { intros sign Hs. unfold offsetText. rewrite firstMatch_skip by assumption.
    rewrite Eh, Em. cbn [append firstMatch matchHere].
    rewrite Hs, Vh. destruct withColon; cbn [append].
    - rewrite Ascii.eqb_refl. now rewrite Vm.
    - destruct (Ascii.eqb c colon) eqn:Ec.
      + apply Ascii.eqb_eq in Ec. subst c.
        unfold twoDigitValue in Vm. discriminate Vm.
      + now rewrite Vm. }
  assert (NE : forall sign,
             String.eqb (offsetText prefix sign hours withColon minutes)
                        EmptyString = false).
  { intros sign. unfold offsetText. now destruct prefix. }
  assert (I : forall sign,
             includes (offsetText prefix sign hours withColon minutes) "-"
             = Ascii.eqb sign minusSign).
  { intros sign. change "-"%string with (String minusSign EmptyString).
    rewrite includes_single. unfold offsetText.
    rewrite hasChar_app, Hm. cbn [hasChar orb].
    rewrite !hasChar_app, Nh, Nm.
    destruct withColon; cbn [hasChar orb];
      destruct (Ascii.eqb sign minusSign); reflexivity. }
  unfold parseOffset. rewrite !NE, !M by reflexivity. rewrite !I.
  split; cbn [Ascii.eqb]; [|rewrite Ascii.eqb_refl]; cbv iota; try lia.
  change (Ascii.eqb plusSign minusSign) with false. cbv iota. lia.
Qed.


Lemma parseOffset_range_and_sign_witness : parseOffset hyphenatedText <= 0.
Proof. apply (parseOffset_range_and_sign hyphenatedText). reflexivity. Defined.

Lemma parseOffset_reads_offset_text_witness :
  parseOffset (offsetText "UTC" plusSign 5 false 30) = 5 * 60 + 30 /\
  parseOffset (offsetText "UTC" minusSign 5 false 30) = - (5 * 60 + 30).
Proof.
  apply (parseOffset_reads_offset_text "UTC" 5 false 30);
    [reflexivity|reflexivity|lia|lia].
Defined.

End OffsetFacts.

(** ** Correlation: bounds and symmetry *)

Section StatsMoreFacts.

Import Stats Lra.
Local Open Scope R_scope.

Lemma sumOfProducts_comm x : forall y,
  sumOfProducts x y = sumOfProducts y x.
Proof.
  intros y. rewrite !sumOfProducts_total. revert y.
  induction x as [|a x IH]; intros [|b y]; simpl; try reflexivity.
  rewrite IH. lra.
Qed.

(** X14.  The correlation does not depend on the order of its two
    arguments. *)
Theorem correlation_symmetric x y :
  calculateCorrelation x y = calculateCorrelation y x.
Proof.
  destruct (Nat.eq_dec (List.length x) (List.length y)) as [Hl|Hl].
  2:{ rewrite !correlation_degenerate; [reflexivity| |];
      do 2 right; left; congruence. }
  destruct x as [|x0 x].
  { destruct y; [reflexivity|discriminate]. }
  assert (Hx : x0 :: x <> []) by discriminate.
  assert (Hy : y <> []) by (intros ->; discriminate).
  rewrite (calculateCorrelation_unfold _ _ Hx Hl).
  rewrite (calculateCorrelation_unfold _ _ Hy (eq_sym Hl)). cbv zeta.
  rewrite <- Hl, (sumOfProducts_comm y).
  set (n := INR (List.length (x0 :: x))).
  set (a := n * sumOfSquares (x0 :: x) - sumOf (x0 :: x) * sumOf (x0 :: x)).
  set (b := n * sumOfSquares y - sumOf y * sumOf y).
  rewrite (Rmult_comm b a), (Rmult_comm (sumOf y) (sumOf (x0 :: x))).
  reflexivity.
Qed.


End StatsMoreFacts.

(** ** Clock strings *)

Section ClockMoreFacts.

Import Stats Lra.
Local Open Scope R_scope.

Lemma Zfloor_div60 m : (0 <= m)%Z -> Zfloor (IZR m / 60) = (m / 60)%Z.
Proof.
  intros H. apply Zfloor_eq.
  pose proof (Z.div_mod m 60 ltac:(lia)) as E.
  pose proof (Z.mod_pos_bound m 60 ltac:(lia)) as B.
  assert (I : IZR m = 60 * IZR (m / 60) + IZR (m mod 60)).
  { rewrite E at 1. rewrite plus_IZR, mult_IZR. reflexivity. }
  assert (B1 : 0 <= IZR (m mod 60)) by (apply IZR_le; lia).
  assert (B2 : IZR (m mod 60) < 60) by (apply IZR_lt; lia).
  lra.
Qed.

(** X15.  A whole number of minutes strictly between 0 and 1440 is rendered
    as its hour and its minute, each on two digits. *)
Theorem formatToHHmm_whole_minutes m :
  (0 < m < 1440)%Z ->
  formatToHHmm (IZR m)
  = (padStart2 (toString (m / 60)) ++ ":" ++ padStart2 (toString (m mod 60)))%string.
Proof.
  intros H. unfold formatToHHmm.
  destruct (Req_dec_T (IZR m) 0) as [E|_].
  { apply eq_IZR in E. lia. }
  rewrite Zfloor_div60 by lia.
  assert (Hq : (0 <= m / 60 < 24)%Z).
  { split; [apply Z.div_pos; lia|apply Z.div_lt_upper_bound; lia]. }
  rewrite Z.rem_small by lia.
  assert (Em : roundR (remainder (IZR m) 60) = (m mod 60)%Z).
  { unfold roundR, remainder, truncateR.
    assert (P : 0 <= IZR m / 60).
    { assert (0 < IZR m) by (apply IZR_lt; lia). lra. }
    destruct (Rle_dec 0 (IZR m / 60)) as [_|N]; [|contradiction].
    rewrite Zfloor_div60 by lia.
    apply Zfloor_eq.
    pose proof (Z.div_mod m 60 ltac:(lia)) as E.
    assert (I : IZR m = 60 * IZR (m / 60) + IZR (m mod 60)).
    { rewrite E at 1. rewrite plus_IZR, mult_IZR. reflexivity. }
    lra. }
  now rewrite Em.
Qed.

(** X16.  The minute field can read 60: a value in the last half minute of
    an hour is rendered with the hour it belongs to and 60 minutes. *)
Theorem formatToHHmm_can_show_sixty_minutes h x :
  (0 <= h <= 23)%Z ->
  60 * IZR h + 59 + / 2 <= x < 60 * IZR h + 60 ->
  formatToHHmm x = (padStart2 (toString h) ++ ":60")%string.
Proof.
  intros Hh Hx.
  assert (Ph : 0 <= IZR h) by (apply IZR_le; lia).
  unfold formatToHHmm.
  destruct (Req_dec_T x 0) as [E|_]; [lra|].
  assert (Fl : Zfloor (x / 60) = h) by (apply Zfloor_eq; lra).
  rewrite Fl, Z.rem_small by lia.
  assert (Em : roundR (remainder x 60) = 60%Z).
  { unfold roundR, remainder, truncateR.
    destruct (Rle_dec 0 (x / 60)) as [_|N]; [|exfalso; apply N; lra].
    rewrite Fl. apply Zfloor_eq. lra. }
  now rewrite Em.
Qed.

Lemma formatToHHmm_whole_minutes_witness :
  formatToHHmm (IZR 450) = "07:30"%string.
Proof. apply (formatToHHmm_whole_minutes 450). lia. Defined.

Lemma formatToHHmm_can_show_sixty_minutes_witness :
  formatToHHmm (60 * IZR 0 + 59 + / 2) = "00:60"%string.
Proof.
  apply (formatToHHmm_can_show_sixty_minutes 0); [lia|lra].
Defined.

End ClockMoreFacts.

Section CalendarFacts.

Import JsArray Calendar Lqa.
Local Open Scope Z_scope.

Lemma dayDiff_test previous date :
  Qle_bool (inject_Z (date - previous) / inject_Z msPerDay) 1
  = (date - previous <=? msPerDay).
Proof.
  assert (P : (0 < inject_Z msPerDay)%Q) by reflexivity.
  destruct (date - previous <=? msPerDay) eqn:E.
  - apply Z.leb_le in E. apply Qle_bool_iff.
    apply Qle_shift_div_r; [exact P|].
    rewrite Qmult_1_l. now rewrite <- Zle_Qle.
  - apply Z.leb_gt in E.
    destruct (Qle_bool _ 1) eqn:Q; [|reflexivity].
    apply Qle_bool_iff in Q.
    apply (Qmult_le_r _ _ (inject_Z msPerDay) P) in Q.
    rewrite Qmult_1_l in Q.
    assert (X : (inject_Z (date - previous) / inject_Z msPerDay
                 * inject_Z msPerDay == inject_Z (date - previous))%Q).
    { field. intros H. discriminate H. }
    rewrite X in Q. rewrite <- Zle_Qle in Q. lia.
Qed.

Lemma streakStep_cases st date :
  streakStep st date =
  if date - previousDate st <=? msPerDay then
    mkStreakState date (Z.max (longestSoFar st) (currentStreak st + 1))
                  (currentStreak st + 1)
  else mkStreakState date (longestSoFar st) 0.
Proof. unfold streakStep. now rewrite dayDiff_test. Qed.

(** The loop keeps [0 <= currentStreak <= longestStreak] and both grow by
    at most one per date. *)
Lemma streak_loop_bounds dates : forall st,
  0 <= currentStreak st <= longestSoFar st ->
  let final := fold_left streakStep dates st in
  0 <= currentStreak final <= longestSoFar final /\
  longestSoFar st <= longestSoFar final /\
  longestSoFar final
  <= Z.max (longestSoFar st) (currentStreak st + Z.of_nat (List.length dates)).
Proof.
  induction dates as [|d dates IH]; intros st H; cbn [fold_left].
  - cbn zeta. lia.
  - cbn zeta. rewrite streakStep_cases.
    destruct (d - previousDate st <=? msPerDay).
    + specialize (IH (mkStreakState d (Z.max (longestSoFar st) (currentStreak st + 1))
                                     (currentStreak st + 1))).
      cbn [currentStreak longestSoFar] in IH. cbn zeta in IH.
      specialize (IH ltac:(lia)).
      cbn [List.length]. rewrite Nat2Z.inj_succ. lia.
    + specialize (IH (mkStreakState d (longestSoFar st) 0)).
      cbn [currentStreak longestSoFar] in IH. cbn zeta in IH.
      specialize (IH ltac:(lia)).
      cbn [List.length]. rewrite Nat2Z.inj_succ. lia.
Qed.

Lemma streak_loop_run dates : forall st,
  0 <= currentStreak st <= longestSoFar st ->
  dailyRun (previousDate st) dates ->
  let final := fold_left streakStep dates st in
  currentStreak final = currentStreak st + Z.of_nat (List.length dates) /\
  longestSoFar final
  = Z.max (longestSoFar st) (currentStreak st + Z.of_nat (List.length dates)).
Proof.
  induction dates as [|d dates IH]; intros st H R; cbn [fold_left]; cbn zeta.
  - cbn [List.length]. lia.
  - destruct R as [B R]. rewrite streakStep_cases.
    assert (E : (d - previousDate st <=? msPerDay) = true)
      by (apply Z.leb_le; lia).
    rewrite E.
    specialize (IH (mkStreakState d (Z.max (longestSoFar st) (currentStreak st + 1))
                                     (currentStreak st + 1))).
    cbn [currentStreak longestSoFar previousDate] in IH. cbn zeta in IH.
    specialize (IH ltac:(lia) R).
    cbn [List.length]. rewrite Nat2Z.inj_succ. lia.
Qed.

Lemma dateCompare_order a b : notAfter dateCompare a b <-> a <= b.
Proof.
  unfold notAfter, dateCompare.
  change 0%Q with (inject_Z 0). rewrite <- Zle_Qle. lia.
Qed.

Lemma dailyRun_sorted dates : forall previous,
  dailyRun previous dates ->
  StronglySorted (notAfter dateCompare) (previous :: dates).
Proof.
  assert (D : 0 <= msPerDay) by (unfold msPerDay; lia).
  induction dates as [|d dates IH]; intros previous R.
  - repeat constructor.
  - destruct R as [B R]. specialize (IH d R).
    constructor; [exact IH|].
    constructor; [apply (proj2 (dateCompare_order _ _)); lia|].
    apply StronglySorted_inv in IH. destruct IH as [_ F].
    eapply Forall_impl; [|exact F]. intros x Hx.
    apply (proj2 (dateCompare_order _ _)).
    apply (proj1 (dateCompare_order _ _)) in Hx. lia.
Qed.

(** X18. The longest streak of a year counts the steps between successive
    step records that are at most one day apart: it is never negative and
    at most the number of records minus one, and when the records are in
    ascending order with every one at most a day after the one before, it
    is exactly the number of records minus one (so a run of [n] daily
    records gives [n - 1], and a single record gives 0). *)
Theorem longestStreak_counts_steps_between_days stepDates :
  0 <= longestStreak stepDates /\
  longestStreak stepDates <= Z.max 0 (Z.of_nat (List.length stepDates) - 1) /\
  (isDailyRun stepDates ->
   longestStreak stepDates = Z.max 0 (Z.of_nat (List.length stepDates) - 1)).
Proof.
  assert (G : forall sorted,
             0 <= streakOfSorted sorted
             <= Z.max 0 (Z.of_nat (List.length sorted) - 1)).
  { intros [|first rest]; cbn [streakOfSorted List.length]; [lia|].
    pose proof (streak_loop_bounds rest (mkStreakState first 0 0)) as B.
    cbn [currentStreak longestSoFar] in B. cbn zeta in B.
    specialize (B ltac:(lia)). rewrite Nat2Z.inj_succ. lia. }
  unfold longestStreak.
  pose proof (Permutation_length (sortBy_perm dateCompare stepDates)) as L.
  split; [apply G|]. split; [rewrite L; apply G|].
  intros R. destruct stepDates as [|first rest]; [reflexivity|].
  cbn [isDailyRun] in R.
  rewrite (sortBy_sorted_id dateCompare (first :: rest))
    by (now apply (dailyRun_sorted rest first)).
  cbn [streakOfSorted].
  pose proof (streak_loop_run rest (mkStreakState first 0 0)) as B.
  cbn [currentStreak longestSoFar previousDate] in B. cbn zeta in B.
  specialize (B ltac:(lia) R).
  cbn [List.length]. rewrite Nat2Z.inj_succ. lia.
Qed.

Lemma longestStreak_counts_steps_between_days_witness :
  longestStreak januaryRun = 2.
Proof.
  apply (longestStreak_counts_steps_between_days januaryRun).
  cbn. unfold msPerDay. lia.
Defined.

Lemma streak_loop_last dates : forall st,
  previousDate (fold_left streakStep dates st)
  = lastDate (previousDate st) dates.
Proof.
  induction dates as [|d dates IH]; intros st; cbn [fold_left lastDate].
  - reflexivity.
  - rewrite IH, streakStep_cases.
    now destruct (d - previousDate st <=? msPerDay).
Qed.

(** The result of the loop from a larger [longestStreak] is the larger of
    that value and the result from the smallest one possible. *)
Lemma streak_loop_from dates : forall previous longest current,
  0 <= current <= longest ->
  longestSoFar (fold_left streakStep dates (mkStreakState previous longest current))
  = Z.max longest
      (longestSoFar (fold_left streakStep dates (mkStreakState previous current current))).
Proof.
  induction dates as [|d dates IH]; intros previous longest current H;
    cbn [fold_left].
  - cbn [longestSoFar]. lia.
  - rewrite !streakStep_cases. cbn [previousDate longestSoFar currentStreak].
    destruct (d - previous <=? msPerDay).
    + rewrite (IH d (Z.max longest (current + 1)) (current + 1)) by lia.
      replace (Z.max current (current + 1)) with (current + 1) by lia.
      pose proof (streak_loop_bounds dates
                    (mkStreakState d (current + 1) (current + 1))) as B.
      cbn [currentStreak longestSoFar] in B. cbn zeta in B.
      specialize (B ltac:(lia)). lia.
    + rewrite (IH d longest 0) by lia.
      rewrite (IH d current 0) by lia. lia.
Qed.

Lemma ascending_sorted dates :
  StronglySorted Z.le dates -> StronglySorted (notAfter dateCompare) dates.
Proof.
  induction 1 as [|d dates S IH F]; constructor; [exact IH|].
  eapply Forall_impl; [|exact F]. intros x Hx.
  now apply (proj2 (dateCompare_order _ _)).
Qed.

Lemma ascending_app (l1 l2 : list Z) :
  StronglySorted Z.le (l1 ++ l2) ->
  StronglySorted Z.le l1 /\ StronglySorted Z.le l2.
Proof.
  induction l1 as [|a l1 IH]; cbn [app]; intros S.
  - split; [constructor|exact S].
  - apply StronglySorted_inv in S. destruct S as [S F].
    destruct (IH S) as [S1 S2]. split; [|exact S2].
    constructor; [exact S1|].
    apply Forall_app in F. tauto.
Qed.

(** X19. A gap of more than one day restarts the count: when the records
    are in ascending order and the first record of the second part is more
    than a day after the last record of the first part, the longest streak
    of the whole is the larger of the longest streaks of the two parts. *)
Theorem longestStreak_restarts_after_a_gap first rest next later :
  StronglySorted Z.le ((first :: rest) ++ next :: later) ->
  lastDate first rest + msPerDay < next ->
  longestStreak ((first :: rest) ++ next :: later)
  = Z.max (longestStreak (first :: rest)) (longestStreak (next :: later)).
Proof.
  intros S G.
  destruct (ascending_app _ _ S) as [S1 S2].
  unfold longestStreak.
  rewrite !sortBy_sorted_id by (now apply ascending_sorted).
  cbn [app streakOfSorted]. rewrite fold_left_app. cbn [fold_left].
  pose proof (streak_loop_bounds rest (mkStreakState first 0 0)) as B.
  cbn [currentStreak longestSoFar] in B. cbn zeta in B.
  specialize (B ltac:(lia)).
  pose proof (streak_loop_last rest (mkStreakState first 0 0)) as L.
  cbn [previousDate] in L.
  destruct (fold_left streakStep rest (mkStreakState first 0 0))
    as [previous longest current].
  cbn [previousDate longestSoFar currentStreak] in *.
  rewrite streakStep_cases. cbn [previousDate longestSoFar currentStreak].
  assert (E : (next - previous <=? msPerDay) = false)
    by (apply Z.leb_gt; lia).
  rewrite E. apply streak_loop_from. lia.
Qed.

Lemma longestStreak_restarts_after_a_gap_witness :
  longestStreak januaryDates = 2.
Proof.
  change januaryDates
    with ((1704067200000 :: [1704153600000; 1704240000000])
          ++ 1704412800000 :: []).
  rewrite (longestStreak_restarts_after_a_gap
             1704067200000 [1704153600000; 1704240000000] 1704412800000 []).
  - reflexivity.
  - cbn [app]. repeat constructor; lia.
  - cbn. unfold msPerDay. lia.
Defined.

Lemma isLeap_period yearInt : isLeap (yearInt + 400) = isLeap yearInt.
Proof.
  assert (D : forall b k, b <> 0 -> 400 = b * k ->
              (Z.rem (yearInt + 400) b =? 0) = (Z.rem yearInt b =? 0)).
  { intros b k Hb Hk.
    apply Bool.eq_true_iff_eq. rewrite !Z.eqb_eq.
    rewrite !Z.rem_divide by exact Hb.
    split; intros [q Hq].
    - exists (q - k). lia.
    - exists (q + k). lia. }
  unfold isLeap.
  rewrite (D 4 100), (D 100 4), (D 400 1) by lia. reflexivity.
Qed.

Lemma calendarDays_snoc count : forall first,
  calendarDays first (S count)
  = calendarDays first count + yearLength (first + Z.of_nat count).
Proof.
  induction count as [|count IH]; intros first.
  - cbn [calendarDays]. replace (first + Z.of_nat 0) with first by lia. lia.
  - change (calendarDays first (S (S count)))
      with (yearLength first + calendarDays (first + 1) (S count)).
    rewrite IH. cbn [calendarDays].
    replace (first + 1 + Z.of_nat count) with (first + Z.of_nat (S count)) by lia.
    lia.
Qed.

(** The days of 400 successive years do not depend on the first of them. *)
Lemma calendarDays_shift first :
  calendarDays (first + 1) 400 = calendarDays first 400.
Proof.
  rewrite (calendarDays_snoc 399 (first + 1)).
  change (calendarDays first 400)
    with (yearLength first + calendarDays (first + 1) 399).
  replace (first + 1 + Z.of_nat 399) with (first + 400) by lia.
  unfold yearLength. rewrite isLeap_period. lia.
Qed.

Lemma calendarDays_cycle first : calendarDays first 400 = 146097.
Proof.
  assert (U : forall n : nat, calendarDays (Z.of_nat n) 400 = 146097).
  { induction n as [|n IH]; [now vm_compute|].
    rewrite Nat2Z.inj_succ. unfold Z.succ.
    now rewrite calendarDays_shift. }
  assert (D : forall n : nat, calendarDays (- Z.of_nat n) 400 = 146097).
  { induction n as [|n IH]; [now vm_compute|].
    rewrite <- IH, <- (calendarDays_shift (- Z.of_nat (S n))).
    f_equal. lia. }
  destruct (Z_le_gt_dec 0 first) as [P|N].
  - rewrite <- (Z2Nat.id first P). apply U.
  - replace first with (- Z.of_nat (Z.to_nat (- first))) by lia. apply D.
Qed.

Lemma daysOfYears_calendar currentYear ms count : forall first,
  currentYear < first \/ first + Z.of_nat count <= currentYear ->
  daysOfYears currentYear ms first count = calendarDays first count.
Proof.
  induction count as [|count IH]; intros first H;
    cbn [daysOfYears calendarDays]; [reflexivity|].
  rewrite IH by lia. unfold daysInYear.
  rewrite (proj2 (Z.eqb_neq first currentYear)) by lia. reflexivity.
Qed.

(** X20. The year lengths used for years other than the current one follow
    the Gregorian rule: any 400 successive such years have 146097 days,
    that is 97 leap years. *)
Theorem four_hundred_years_have_146097_days currentYear ms first :
  currentYear < first \/ first + 400 <= currentYear ->
  daysOfYears currentYear ms first 400 = 146097.
Proof.
  intros H. rewrite daysOfYears_calendar by (cbn; lia).
  apply calendarDays_cycle.
Qed.

Lemma four_hundred_years_have_146097_days_witness :
  daysOfYears 2026 26265600000 1601 400 = 146097.
Proof.
  apply (four_hundred_years_have_146097_days 2026 26265600000 1601).
  right. lia.
Defined.

Local Open Scope Q_scope.

Lemma mathRound_le x y : x <= y -> mathRound x <= mathRound y.
Proof.
  intros H. unfold mathRound. rewrite <- Zle_Qle.
  apply Qfloor_resp_le. lra.
Qed.

(** X21. For a step total that is not negative, [dailyAvg] is between 0 and
    the rounded total whatever the number of days, and when the number of
    days is 1 or less (January 1st of the current year gives 0 days) the
    divisor is 1 and [dailyAvg] is the rounded total itself. *)
Theorem dailyAvg_bounds totalSteps days :
  0 <= totalSteps ->
  0 <= dailyAvg totalSteps days /\
  dailyAvg totalSteps days <= mathRound totalSteps /\
  ((days <= 1)%Z -> dailyAvg totalSteps days = mathRound totalSteps).
Proof.
  intros H. unfold dailyAvg.
  assert (P : 0 < inject_Z (Z.max days 1)).
  { change 0 with (inject_Z 0). rewrite <- Zlt_Qlt. lia. }
  assert (O : 1 <= inject_Z (Z.max days 1)).
  { change 1 with (inject_Z 1). rewrite <- Zle_Qle. lia. }
  assert (L : 0 <= totalSteps / inject_Z (Z.max days 1)).
  { apply Qle_shift_div_l; [exact P|]. lra. }
  assert (U : totalSteps / inject_Z (Z.max days 1) <= totalSteps).
  { apply Qle_shift_div_r; [exact P|]. nra. }
  split; [|split].
  - change 0 with (mathRound 0). now apply mathRound_le.
  - now apply mathRound_le.
  - intros D. apply mathRound_comp.
    replace (Z.max days 1) with 1%Z by lia. field.
Qed.

Lemma dailyAvg_bounds_witness :
  0 <= dailyAvg 7300 0 /\ dailyAvg 7300 0 <= mathRound 7300 /\
  ((0 <= 1)%Z -> dailyAvg 7300 0 = mathRound 7300).
Proof. apply (dailyAvg_bounds 7300 0). lra. Defined.

End CalendarFacts.

Section SleepStatsFacts.

Import JsArray Sleep SleepStats Lqa.
Local Open Scope Q_scope.

Import JsArray Sleep SleepStats Lqa.
Local Open Scope Q_scope.

Lemma lengthQ_pos {A} (a : A) l : 0 < lengthQ (a :: l).
Proof.
  unfold lengthQ. change 0 with (inject_Z 0). rewrite <- Zlt_Qlt.
  cbn [List.length]. lia.
Qed.

Lemma lengthQ_cons {A} (a : A) l : lengthQ (a :: l) == 1 + lengthQ l.
Proof.
  unfold lengthQ. cbn [List.length]. rewrite Nat2Z.inj_succ.
  unfold Z.succ. rewrite inject_Z_plus. change (inject_Z 1) with 1. lra.
Qed.

Lemma total_lower {A} (f : A -> Q) lo l :
  Forall (fun a => lo <= f a) l -> lo * lengthQ l <= Years.total (map f l).
Proof.
  induction 1 as [|a l Ha _ IH]; cbn [map Years.total].
  - unfold lengthQ. cbn [List.length Z.of_nat].
    change (inject_Z 0) with 0. lra.
  - rewrite lengthQ_cons. lra.
Qed.

Lemma total_upper {A} (f : A -> Q) hi l :
  Forall (fun a => f a <= hi) l -> Years.total (map f l) <= hi * lengthQ l.
Proof.
  induction 1 as [|a l Ha _ IH]; cbn [map Years.total].
  - unfold lengthQ. cbn [List.length Z.of_nat].
    change (inject_Z 0) with 0. lra.
  - rewrite lengthQ_cons. lra.
Qed.

(** A guarded mean lies between bounds of its terms. *)
Lemma averageOr_lower {A} (f : A -> Q) default lo a l :
  Forall (fun a => lo <= f a) (a :: l) -> lo <= averageOr default f (a :: l).
Proof.
  intros F. apply (total_lower f) in F.
  unfold averageOr. rewrite fold_left_Qtotal.
  pose proof (lengthQ_pos a l) as P.
  apply Qle_shift_div_l; [exact P|]. lra.
Qed.

Lemma averageOr_upper {A} (f : A -> Q) default hi a l :
  Forall (fun a => f a <= hi) (a :: l) -> averageOr default f (a :: l) <= hi.
Proof.
  intros F. apply (total_upper f) in F.
  unfold averageOr. rewrite fold_left_Qtotal.
  pose proof (lengthQ_pos a l) as P.
  apply Qle_shift_div_r; [exact P|]. lra.
Qed.

Lemma averageOr_bounds {A} (f : A -> Q) default lo hi a l :
  Forall (fun a => lo <= f a <= hi) (a :: l) ->
  lo <= averageOr default f (a :: l) <= hi.
Proof.
  intros F. split.
  - apply averageOr_lower. eapply Forall_impl; [|exact F]. now intros x [].
  - apply averageOr_upper. eapply Forall_impl; [|exact F]. now intros x [].
Qed.

Lemma averageOr_map {A} (f : A -> Q) default l :
  averageOr default f l = averageOr default (fun q => q) (map f l).
Proof.
  unfold averageOr, lengthQ. rewrite length_map.
  assert (E : forall acc, fold_left (fun sum d => sum + f d) l acc
                          = fold_left (fun sum q => sum + q) (map f l) acc).
  { induction l as [|a l IH]; intros acc; cbn [fold_left map];
      [reflexivity|apply IH]. }
  rewrite E. now destruct l.
Qed.

Lemma minutesOfDay_range t : (0 <= minutesOfDay t < 1440)%Z.
Proof.
  unfold minutesOfDay, Calendar.msPerDay. cbn zeta.
  change (1000 * 60 * 60 * 24)%Z with 86400000%Z.
  pose proof (Z.mod_pos_bound t 86400000 ltac:(lia)) as B.
  generalize dependent (t mod 86400000)%Z. intros ms B.
  Z.div_mod_to_equations. lia.
Qed.

(** Every session asleep for some time leaves its bed time once. *)
Lemma updateDay_bedTimes day s entries :
  Permutation (allBedTimes (updateDay day s entries))
              (minutesOfDay (_start s) :: allBedTimes entries).
Proof.
  unfold allBedTimes.
  induction entries as [|[key d] entries IH]; cbn [updateDay].
  - cbn. reflexivity.
  - destruct (key =? day)%Z; cbn [map snd flat_map].
    + cbn [addSession bedTimes]. rewrite <- app_assoc. cbn [app].
      symmetry. apply Permutation_middle.
    + rewrite IH. symmetry. apply Permutation_middle.
Qed.

Lemma dailySleep_loop_bedTimes records : forall entries,
  Permutation
    (allBedTimes (fold_left recordSleep records entries))
    (allBedTimes entries
     ++ map (fun s => minutesOfDay (_start s)) (filter asleep records))%list.
Proof.
  induction records as [|s records IH]; intros entries;
    cbn [fold_left filter].
  - cbn [map]. now rewrite app_nil_r.
  - rewrite IH. unfold recordSleep, asleep.
    destruct (Qltb 0 (_duration s)); [|reflexivity].
    cbn [map]. rewrite updateDay_bedTimes.
    apply Permutation_cons_app. reflexivity.
Qed.

Lemma bedTimes_of_sessions records :
  Permutation (flat_map bedTimes (sleepDays records))
              (map (fun s => minutesOfDay (_start s)) (filter asleep records)).
Proof. apply (dailySleep_loop_bedTimes records []). Qed.

Lemma avgBedtimeHour_bound hi records :
  Forall (fun s => (minutesOfDay (_start s) < (hi + 1) * 60)%Z)
         (filter asleep records) ->
  filter asleep records <> [] ->
  0 <= avgBedtimeHour records <= inject_Z hi.
Proof.
  intros F N. unfold avgBedtimeHour, bedtimeHours.
  pose proof (bedTimes_of_sessions records) as P.
  assert (G : Forall (fun m => (0 <= m < (hi + 1) * 60)%Z)
                     (flat_map bedTimes (sleepDays records))).
  { apply Forall_forall. intros m Hm.
    apply (Permutation_in _ P) in Hm. apply in_map_iff in Hm.
    destruct Hm as [s [<- Hs]].
    rewrite Forall_forall in F. specialize (F s Hs).
    pose proof (minutesOfDay_range (_start s)). lia. }
  destruct (flat_map bedTimes (sleepDays records)) as [|m ms] eqn:E.
  - apply Permutation_nil in P. apply map_eq_nil in P. contradiction.
  - cbn [map]. apply averageOr_bounds.
    rewrite <- (map_cons (fun m => (m / 60)%Z)).
    apply Forall_map. eapply Forall_impl; [|exact G].
    intros k Hk. cbn beta in *. change 0 with (inject_Z 0).
    rewrite <- !Zle_Qle.
    split; [apply Z.div_pos; lia|].
    assert (k / 60 < hi + 1)%Z; [|lia].
    apply Z.div_lt_upper_bound; lia.
Qed.

(** X22. Whatever the sleep sessions of a year, the average bed-time hour is
    at most 23 (a bed time is an hour of the day from 0 to 23, and the
    value without sessions is 23), so the test [avgBedtimeHour > 23] never
    holds and the sleep archetype is never the night owl. *)
Theorem sleepArchetype_is_never_night_owl records :
  avgBedtimeHour records <= 23 /\ sleepArchetype records <> NightOwl.
Proof.
  assert (B : avgBedtimeHour records <= 23).
  { destruct (filter asleep records) as [|s l] eqn:E.
    - unfold avgBedtimeHour, bedtimeHours.
      pose proof (bedTimes_of_sessions records) as P. rewrite E in P.
      apply Permutation_sym, Permutation_nil in P. rewrite P. cbn. lra.
    - apply (avgBedtimeHour_bound 23).
      + apply Forall_forall. intros x _.
        pose proof (minutesOfDay_range (_start x)). lia.
      + rewrite E. discriminate. }
  split; [exact B|]. unfold sleepArchetype.
  destruct (Qltb 85 (avgEfficiency records)); [discriminate|].
  destruct (Qltb 23 (avgBedtimeHour records)) eqn:L.
  - apply Qltb_lt in L. lra.
  - destruct (Qltb (avgBedtimeHour records) 22); discriminate.
Qed.

(** X23. When the average efficiency is at most 85 and there are sessions
    with some asleep time, all of them starting before 22:00 on the clock
    the code reads (this includes every start after midnight), the sleep
    archetype is the early riser. *)
Theorem bed_times_before_22_make_an_early_riser records :
  avgEfficiency records <= 85 ->
  Exists (fun s => 0 < _duration s) records ->
  Forall (fun s => 0 < _duration s ->
                   (minutesOfDay (_start s) < 22 * 60)%Z) records ->
  sleepArchetype records = EarlyRiser.
Proof.
  intros E X F.
  assert (B : 0 <= avgBedtimeHour records <= inject_Z 21).
  { apply avgBedtimeHour_bound.
    - apply Forall_forall. intros s Hs. apply filter_In in Hs.
      destruct Hs as [Hs A]. rewrite Forall_forall in F.
      apply (F s Hs). now apply Qltb_lt.
    - apply Exists_exists in X. destruct X as [s [Hs A]].
      intros N. assert (I : In s (filter asleep records)).
      { apply filter_In. split; [exact Hs|]. now apply Qltb_lt. }
      rewrite N in I. exact I. }
  change (inject_Z 21) with 21 in B.
  unfold sleepArchetype.
  rewrite (proj2 (Qltb_ge 85 (avgEfficiency records)) E).
  rewrite (proj2 (Qltb_ge 23 (avgBedtimeHour records))) by lra.
  rewrite (proj2 (Qltb_lt (avgBedtimeHour records) 22)) by lra.
  reflexivity.
Qed.

Lemma bed_times_before_22_make_an_early_riser_witness :
  sleepArchetype [lateSession] = EarlyRiser.
Proof.
  apply (bed_times_before_22_make_an_early_riser [lateSession]).
  - vm_compute. discriminate.
  - constructor. reflexivity.
  - constructor; [|constructor]. intros _. vm_compute. reflexivity.
Defined.

Lemma sorted_app_order {A} (R : A -> A -> Prop) (l1 l2 : list A) :
  StronglySorted R (l1 ++ l2) ->
  forall a b, In a l1 -> In b l2 -> R a b.
Proof.
  induction l1 as [|x l1 IH]; cbn [app]; intros S a b Ha Hb; [destruct Ha|].
  apply StronglySorted_inv in S. destruct S as [S F].
  destruct Ha as [<-|Ha].
  - rewrite Forall_forall in F. apply F. apply in_or_app. now right.
  - now apply IH.
Qed.

Lemma sorted_weaken {A} (R R' : A -> A -> Prop) l :
  (forall a b, In a l -> In b l -> R a b -> R' a b) ->
  StronglySorted R l -> StronglySorted R' l.
Proof.
  intros W S. induction S as [|x l S IH F]; constructor.
  - apply IH. intros a b Ha Hb. apply W; now right.
  - apply Forall_forall. intros b Hb. rewrite Forall_forall in F.
    apply W; [now left|now right|now apply F].
Qed.

Lemma sorted_filter {A} (R : A -> A -> Prop) (p : A -> bool) l :
  StronglySorted R l -> StronglySorted R (filter p l).
Proof.
  induction 1 as [|x l S IH F]; cbn [filter]; [constructor|].
  destruct (p x); [|exact IH].
  constructor; [exact IH|].
  apply Forall_forall. intros b Hb. apply filter_In in Hb.
  rewrite Forall_forall in F. now apply F.
Qed.

Lemma sorted_map {A B} (f : A -> B) (R : B -> B -> Prop) l :
  StronglySorted (fun a b => R (f a) (f b)) l -> StronglySorted R (map f l).
Proof.
  induction 1 as [|x l S IH F]; cbn [map]; constructor; [exact IH|].
  now apply Forall_map.
Qed.

Lemma sorted_app_r {A} (R : A -> A -> Prop) (l1 l2 : list A) :
  StronglySorted R (l1 ++ l2) -> StronglySorted R l2.
Proof.
  induction l1 as [|x l1 IH]; cbn [app]; intros S; [exact S|].
  apply StronglySorted_inv in S. now apply IH.
Qed.

(** In a list of positive numbers in descending order the mean of the
    second half is at most the one of the first half, as soon as there is
    a first half. *)
Lemma trend_of_descending (ds : list Q) :
  StronglySorted descending ds ->
  Forall (fun q => 0 < q) ds ->
  Qltb (averageOr 0 (fun q => q) (firstn (half ds) ds) * (105 # 100))
       (averageOr 0 (fun q => q) (skipn (half ds) ds)) = true
  <-> List.length ds = 1%nat.
Proof.
  intros S P. unfold half.
  destruct ds as [|d [|d' ds]].
  - cbn. split; discriminate.
  - cbn [List.length Nat.div Nat.divmod fst firstn skipn].
    change (1 / 2)%nat with 0%nat. cbn [firstn skipn].
    split; [reflexivity|intros _].
    apply Qltb_lt. apply Forall_inv in P.
    assert (L : d <= averageOr 0 (fun q => q) [d]).
    { apply averageOr_lower. constructor; [lra|constructor]. }
    unfold averageOr at 1. lra.
  - split; [|discriminate]. intros T. exfalso. apply Qltb_lt in T.
    remember (d :: d' :: ds) as l eqn:El.
    assert (Hn : (2 <= List.length l)%nat) by (subst l; cbn; lia).
    pose proof (Nat.div_mod_eq (List.length l) 2) as Dm.
    pose proof (Nat.mod_upper_bound (List.length l) 2 ltac:(lia)) as Mu.
    set (h := (List.length l / 2)%nat) in *.
    assert (Hh : (1 <= h /\ h < List.length l)%nat) by lia.
    pose proof (firstn_skipn h l) as Eq.
    pose proof (length_firstn h l) as L1.
    pose proof (length_skipn h l) as L2.
    destruct (firstn h l) as [|a A] eqn:EA; [cbn [List.length] in L1; lia|].
    destruct (skipn h l) as [|x B] eqn:EB; [cbn [List.length] in L2; lia|].
    rewrite <- Eq in S, P.
    assert (Lo : x <= averageOr 0 (fun q => q) (a :: A)).
    { apply averageOr_lower. apply Forall_forall. intros y Hy.
      apply (sorted_app_order _ _ _ S y x Hy). now left. }
    assert (Hi : averageOr 0 (fun q => q) (x :: B) <= x).
    { apply averageOr_upper. constructor; [lra|].
      apply sorted_app_r in S.
      apply StronglySorted_inv in S. destruct S as [_ F].
      exact F. }
    assert (Px : 0 < x).
    { rewrite Forall_forall in P. apply P. apply in_or_app. right. now left. }
    lra.
Qed.

Lemma updateDay_keys day s entries :
  map fst (updateDay day s entries)
  = if existsb (Z.eqb day) (map fst entries) then map fst entries
    else (map fst entries ++ [day])%list.
Proof.
  induction entries as [|[key e] entries IH]; cbn [updateDay map fst existsb].
  - reflexivity.
  - rewrite (Z.eqb_sym day key).
    destruct (key =? day)%Z; cbn [map fst orb]; [reflexivity|].
    rewrite IH. now destruct (existsb (Z.eqb day) (map fst entries)).
Qed.

Lemma existsb_eqb day keys : existsb (Z.eqb day) keys = true <-> In day keys.
Proof.
  rewrite existsb_exists. split.
  - intros [k [Hk E]]. apply Z.eqb_eq in E. now subst.
  - intros H. exists day. split; [exact H|apply Z.eqb_refl].
Qed.

Lemma updateDay_distinct day s entries :
  NoDup (map fst entries) -> NoDup (map fst (updateDay day s entries)).
Proof.
  intros N. rewrite updateDay_keys.
  destruct (existsb (Z.eqb day) (map fst entries)) eqn:E; [exact N|].
  apply NoDup_app; [exact N|repeat constructor; intros []|].
  intros k Hk [<-|[]].
  apply existsb_eqb in Hk. congruence.
Qed.

Lemma updateDay_fresh day s entries :
  ~ In day (map fst entries) ->
  updateDay day s entries = (entries ++ [(day, addSession s emptyDay)])%list.
Proof.
  induction entries as [|[key e] entries IH]; cbn [updateDay map fst app];
    intros N; [reflexivity|].
  destruct (Z.eqb_spec key day) as [->|_].
  - exfalso. apply N. now left.
  - rewrite IH; [reflexivity|]. intros H. apply N. now right.
Qed.

Lemma dailySleep_loop_distinct records : forall entries,
  NoDup (map fst entries) ->
  NoDup (map fst (fold_left recordSleep records entries)).
Proof.
  induction records as [|s records IH]; intros entries N; cbn [fold_left];
    [exact N|].
  apply IH. unfold recordSleep.
  destruct (Qltb 0 (_duration s)); [now apply updateDay_distinct|exact N].
Qed.

Lemma dailySleep_loop_length records : forall entries,
  (List.length (fold_left recordSleep records entries)
   <= List.length entries + List.length (filter asleep records))%nat.
Proof.
  induction records as [|s records IH]; intros entries;
    cbn [fold_left filter]; [lia|].
  etransitivity; [apply IH|]. unfold recordSleep, asleep.
  destruct (Qltb 0 (_duration s)); cbn [List.length]; [|lia].
  rewrite <- (length_map fst (updateDay _ _ _)), updateDay_keys.
  destruct (existsb _ _); rewrite ?length_app, length_map; cbn [List.length]; lia.
Qed.

Lemma entryOf_updateDay_same day s entries :
  entryOf day (updateDay day s entries) = addSession s (entryOf day entries).
Proof.
  unfold entryOf.
  induction entries as [|[key e] entries IH]; cbn [updateDay find fst snd].
  - now rewrite Z.eqb_refl.
  - destruct (key =? day)%Z eqn:E; cbn [find fst snd]; rewrite E;
      [reflexivity|exact IH].
Qed.

Lemma entryOf_updateDay_other day day' s entries :
  day <> day' ->
  entryOf day' (updateDay day s entries) = entryOf day' entries.
Proof.
  intros N. unfold entryOf.
  induction entries as [|[key e] entries IH]; cbn [updateDay find fst snd].
  - now rewrite (proj2 (Z.eqb_neq day day') N).
  - destruct (key =? day)%Z eqn:E; cbn [find fst snd].
    + apply Z.eqb_eq in E. subst key.
      now rewrite (proj2 (Z.eqb_neq day day') N).
    + destruct (key =? day')%Z; [reflexivity|exact IH].
Qed.

Lemma entryOf_member day d entries :
  NoDup (map fst entries) -> In (day, d) entries -> entryOf day entries = d.
Proof.
  unfold entryOf.
  induction entries as [|[key e] entries IH]; cbn [map fst find snd];
    intros N H; [destruct H|].
  apply NoDup_cons_iff in N. destruct N as [Nk N].
  destruct H as [H|H].
  - injection H as -> ->. now rewrite Z.eqb_refl.
  - destruct (Z.eqb_spec key day) as [->|_]; [|now apply IH].
    exfalso. apply Nk. apply in_map_iff. now exists (day, d).
Qed.

(** The entry of a day after the loop: the bed times, wake times and count
    it had, followed by those of the sessions of the day in their order. *)
Lemma dailySleep_loop_entry day records : forall entries,
  let e := entryOf day (fold_left recordSleep records entries) in
  let e0 := entryOf day entries in
  bedTimes e
  = (bedTimes e0
     ++ map (fun s => minutesOfDay (_start s)) (sessionsOf day records))%list /\
  wakeTimes e
  = (wakeTimes e0
     ++ map (fun s => minutesOfDay (_end s)) (sessionsOf day records))%list /\
  count e = (count e0 + Z.of_nat (List.length (sessionsOf day records)))%Z.
Proof.
  induction records as [|s records IH]; intros entries; cbn zeta;
    cbn [fold_left].
  - cbn [sessionsOf filter map List.length]. rewrite !app_nil_r.
    repeat split. cbn. lia.
  - specialize (IH (recordSleep entries s)). cbn zeta in IH.
    destruct IH as (B & W & C). rewrite B, W, C.
    unfold sessionsOf at 2 4 6. cbn [filter]. fold (sessionsOf day records).
    unfold recordSleep, asleep at 1 2 3.
    destruct (Qltb 0 (_duration s)); cbn [andb]; [|repeat split].
    destruct (Z.eqb_spec (dayOf (_start s)) day) as [E|N].
    + rewrite E, entryOf_updateDay_same.
      cbn [addSession bedTimes wakeTimes count map List.length].
      rewrite <- !app_assoc. cbn [app]. repeat split.
      rewrite Nat2Z.inj_succ. lia.
    + rewrite entryOf_updateDay_other by exact N. repeat split.
Qed.

Lemma dailySleep_loop_keys day records : forall entries,
  In day (map fst (fold_left recordSleep records entries)) <->
  In day (map fst entries) \/
  exists s, In s records /\ asleep s = true /\ dayOf (_start s) = day.
Proof.
  induction records as [|s records IH]; intros entries; cbn [fold_left].
  - split; [now left|]. now intros [H|[s [[] _]]].
  - rewrite IH. unfold recordSleep at 1. unfold asleep at 2.
    destruct (Qltb 0 (_duration s)) eqn:A.
    + rewrite updateDay_keys.
      assert (K : In day (if existsb (Z.eqb (dayOf (_start s))) (map fst entries)
                         then map fst entries
                         else (map fst entries ++ [dayOf (_start s)])%list)
                  <-> In day (map fst entries) \/ dayOf (_start s) = day).
      { destruct (existsb _ _) eqn:X.
        - split; [now left|]. intros [H|<-]; [exact H|].
          now apply existsb_eqb.
        - rewrite in_app_iff. cbn [In]. tauto. }
      rewrite K. split.
      * intros [[H|H]|[x [Hx Px]]].
        -- now left.
        -- right. exists s. repeat split; [now left|exact A|exact H].
        -- right. exists x. split; [now right|exact Px].
      * intros [H|[x [[<-|Hx] [Ax Dx]]]].
        -- left. now left.
        -- left. now right.
        -- right. exists x. now repeat split.
    + split.
      * intros [H|[x [Hx Px]]]; [now left|].
        right. exists x. split; [now right|exact Px].
      * intros [H|[x [[<-|Hx] [Ax Dx]]]]; [now left| |].
        -- unfold asleep in Ax. congruence.
        -- right. exists x. now repeat split.
Qed.

(** X25.  Grouping the sessions of a year by day keeps the days
    distinct and gives at most one day per session with some asleep time;
    the days are exactly the days on which such a session starts; and the
    entry of a day lists the bed times and the wake times of the sessions
    of that day, in their order, and counts them. *)
Theorem dailySleep_groups_sessions_by_day records :
  NoDup (map fst (dailySleep records)) /\
  (List.length (sleepDays records) <= List.length (filter asleep records))%nat /\
  (forall day,
     In day (map fst (dailySleep records)) <->
     exists s, In s records /\ asleep s = true /\ dayOf (_start s) = day) /\
  (forall day d,
     In (day, d) (dailySleep records) ->
     bedTimes d
     = map (fun s => minutesOfDay (_start s)) (sessionsOf day records) /\
     wakeTimes d
     = map (fun s => minutesOfDay (_end s)) (sessionsOf day records) /\
     count d = Z.of_nat (List.length (sessionsOf day records))).
Proof.
  assert (N : NoDup (map fst (dailySleep records)))
    by (apply dailySleep_loop_distinct; constructor).
  split; [exact N|]. split; [|split].
  - unfold sleepDays. rewrite length_map.
    apply (dailySleep_loop_length records []).
  - intros day. unfold dailySleep. rewrite dailySleep_loop_keys.
    cbn [map In]. tauto.
  - intros day d H.
    pose proof (dailySleep_loop_entry day records []) as E. cbn zeta in E.
    fold (dailySleep records) in E.
    rewrite (entryOf_member day d _ N H) in E.
    exact E.
Qed.

Lemma dailySleep_groups_sessions_by_day_witness :
  NoDup (map fst (dailySleep threeNights)).
Proof. exact (proj1 (dailySleep_groups_sessions_by_day threeNights)). Defined.


Lemma map_filter_distinct {A B} (f : A -> B) (p : A -> bool) l :
  NoDup (map f l) -> NoDup (map f (filter p l)).
Proof.
  induction l as [|a l IH]; cbn [map filter]; intros N; [constructor|].
  apply NoDup_cons_iff in N. destruct N as [Na N].
  destruct (p a); [|now apply IH].
  cbn [map]. constructor; [|now apply IH].
  intros H. apply Na. apply in_map_iff in H. destruct H as [x [E Hx]].
  apply filter_In in Hx. apply in_map_iff. exists x. tauto.
Qed.

(** With every session on a day of its own, the entries are the sessions
    in their order. *)
Lemma dailySleep_loop_one_per_day records : forall entries,
  NoDup (map fst entries
         ++ map (fun s => dayOf (_start s)) (filter asleep records))%list ->
  fold_left recordSleep records entries
  = (entries
     ++ map (fun s => (dayOf (_start s), addSession s emptyDay))
            (filter asleep records))%list.
Proof.
  induction records as [|s records IH]; intros entries N;
    cbn [fold_left filter].
  - cbn [map]. now rewrite app_nil_r.
  - unfold recordSleep at 2. unfold asleep at 1 in N. unfold asleep at 1.
    cbn [filter] in N.
    destruct (Qltb 0 (_duration s)); [|now apply IH].
    cbn [map] in N. cbn [map].
    rewrite updateDay_fresh.
    + rewrite IH.
      * now rewrite <- app_assoc.
      * rewrite map_app. cbn [map fst]. now rewrite <- app_assoc.
    + intros H. apply NoDup_remove_2 in N. apply N.
      apply in_or_app. now left.
Qed.

(** X24. The two halves the sleep trend compares are halves of the days in
    the order of the kept sessions, which is the priority order of the
    dedup step and not the order of the dates.  For the sessions of a year
    that are all of one kind (all from combined files, or none) and each on
    a day of its own, the days are therefore in descending order of asleep
    time, and the trend is improving exactly when there is a single sleep
    day: with two days or more it is never improving, whatever the
    dates. *)
Theorem sleepQualityTrend_follows_priority_order inYear candidates :
  let records := sleepRecords inYear candidates in
  (forall a b, In a records -> In b records ->
               _isCombined a = _isCombined b) ->
  NoDup (map (fun s => dayOf (_start s)) records) ->
  (sleepQualityTrend records = Improving
   <-> List.length (sleepDays records) = 1%nat).
Proof.
  intros records K N.
  assert (S : StronglySorted (fun a b => descending (_duration a) (_duration b))
                             (filter asleep records)).
  { apply sorted_filter.
    apply (sorted_weaken hasPriority).
    - intros a b Ha Hb [[Ca Cb]|[_ H]]; [|exact H].
      specialize (K a b Ha Hb). congruence.
    - unfold records, sleepRecords. apply sorted_filter.
      unfold dedup. apply dedup_loop_sorted. cbn [app].
      apply sleep_sort_priority. }
  assert (E : sleepDays records
              = map (fun s => addSession s emptyDay) (filter asleep records)).
  { unfold sleepDays, dailySleep.
    rewrite dailySleep_loop_one_per_day.
    - cbn [app]. rewrite map_map. reflexivity.
    - cbn [map app]. now apply map_filter_distinct. }
  assert (D : map duration (sleepDays records)
              = map (fun s => 0 + _duration s) (filter asleep records)).
  { rewrite E, map_map. reflexivity. }
  assert (T : Qltb (firstHalfAvg records * (105 # 100)) (secondHalfAvg records)
              = true <-> List.length (sleepDays records) = 1%nat).
  { unfold firstHalfAvg, secondHalfAvg. cbn zeta.
    rewrite !(averageOr_map duration).
    rewrite <- firstn_map, <- skipn_map.
    replace (half (sleepDays records))
      with (half (map duration (sleepDays records)))
      by (unfold half; now rewrite length_map).
    rewrite <- (length_map duration (sleepDays records)).
    apply trend_of_descending; rewrite D.
    - apply sorted_map. eapply sorted_weaken; [|exact S].
      intros a b _ _ H. unfold descending in *. lra.
    - apply Forall_map. apply Forall_forall. intros s Hs.
      apply filter_In in Hs. destruct Hs as [_ Hs].
      apply Qltb_lt in Hs. lra. }
  unfold sleepQualityTrend. rewrite <- T.
  destruct (Qltb (firstHalfAvg records * (105 # 100)) (secondHalfAvg records)).
  - tauto.
  - split; [|discriminate].
    destruct (Qltb (secondHalfAvg records) (firstHalfAvg records * (95 # 100)));
      discriminate.
Qed.

Lemma sleepQualityTrend_follows_priority_order_witness :
  sleepQualityTrend (sleepRecords (fun _ => true) threeNights) <> Improving.
Proof.
  intros H.
  apply (sleepQualityTrend_follows_priority_order (fun _ => true) threeNights)
    in H.
  - vm_compute in H. discriminate H.
  - vm_compute. intros a b [<-|[<-|[<-|[]]]] [<-|[<-|[<-|[]]]]; reflexivity.
  - vm_compute. repeat constructor; cbn; intuition discriminate.
Defined.

End SleepStatsFacts.

Section WellnessSeriesFacts.

Import JsArray Wellness Series Lqa.
Local Open Scope Q_scope.

Import JsArray Wellness Series Lqa.
Local Open Scope Q_scope.

Lemma pushSamples_keys buckets day vals :
  map fst (pushSamples buckets day vals)
  = if existsb (String.eqb day) (map fst buckets) then map fst buckets
    else (map fst buckets ++ [day])%list.
Proof.
  induction buckets as [|[d vs] buckets IH]; cbn [pushSamples map fst existsb].
  - reflexivity.
  - rewrite (String.eqb_sym day d).
    destruct (String.eqb d day); cbn [map fst orb]; [reflexivity|].
    rewrite IH. now destruct (existsb (String.eqb day) (map fst buckets)).
Qed.

Lemma pushSamples_distinct buckets day vals :
  NoDup (map fst buckets) -> NoDup (map fst (pushSamples buckets day vals)).
Proof.
  intros N. rewrite pushSamples_keys.
  destruct (existsb (String.eqb day) (map fst buckets)) eqn:E; [exact N|].
  apply NoDup_app; [exact N|repeat constructor; intros []|].
  intros k Hk [<-|[]].
  assert (X : existsb (String.eqb day) (map fst buckets) = true).
  { apply existsb_exists. exists day. split; [exact Hk|apply String.eqb_refl]. }
  congruence.
Qed.

(** The day buckets have distinct keys. *)
Lemma collect_distinct samples rows :
  NoDup (map fst (collect samples rows)).
Proof.
  unfold collect.
  assert (G : forall buckets, NoDup (map fst buckets) ->
              NoDup (map fst (fold_left
                (fun buckets r => pushSamples buckets (day r) (samples r))
                rows buckets))).
  { induction rows as [|r rows IH]; intros buckets N; cbn [fold_left];
      [exact N|].
    apply IH. now apply pushSamples_distinct. }
  apply G. constructor.
Qed.

Lemma filter_keys_distinct {V} (p : string * V -> bool) (l : list (string * V)) :
  NoDup (map fst l) -> NoDup (map fst (filter p l)).
Proof.
  induction l as [|a l IH]; cbn [map filter]; intros N; [constructor|].
  apply NoDup_cons_iff in N. destruct N as [Na N].
  destruct (p a); [|now apply IH].
  cbn [map]. constructor; [|now apply IH].
  intros H. apply Na. apply in_map_iff in H. destruct H as [x [E Hx]].
  apply filter_In in Hx. apply in_map_iff. exists x. tauto.
Qed.

Lemma sorted_distinct_ascending {V} (l : list (string * V)) :
  StronglySorted Years.dateOrder l -> NoDup (map fst l) ->
  StronglySorted (fun a b => String.compare (fst a) (fst b) = Lt) l.
Proof.
  induction 1 as [|a l S IH F]; cbn [map]; intros N; constructor.
  - apply IH. now apply NoDup_cons_iff in N.
  - apply NoDup_cons_iff in N. destruct N as [Na _].
    apply Forall_forall. intros b Hb. rewrite Forall_forall in F.
    specialize (F b Hb). unfold Years.dateOrder in F.
    destruct (String.compare (fst a) (fst b)) eqn:C;
      [|reflexivity|congruence].
    apply String.compare_eq_iff in C. exfalso. apply Na.
    rewrite C. now apply in_map.
Qed.

(** X26. Each per-day wellness series (heart rate, HRV, stress, SpO2; here
    for any day value and any choice of samples) is in strictly ascending
    order of its dates, so no day occurs twice, every value of it passes
    the test [value > 0], and every point is the day value of one of the
    day buckets. *)
Theorem daily_series_are_ascending_distinct_and_positive value samples rows :
  let series := dailySeries value (collect samples rows) in
  StronglySorted (fun a b => String.compare (fst a) (fst b) = Lt) series /\
  NoDup (map fst series) /\
  Forall (fun d => positive (snd d) = true) series /\
  (forall d, In d series ->
     exists vals, In (fst d, vals) (collect samples rows)
                  /\ snd d = value vals).
Proof.
  intros series.
  set (entries := map (fun b : bucket => (fst b, value (snd b)))
                      (collect samples rows)).
  assert (P : Permutation (filter (fun d => positive (snd d)) entries) series)
    by apply sortBy_perm.
  assert (N : NoDup (map fst series)).
  { eapply Permutation_NoDup; [apply Permutation_map; exact P|].
    apply filter_keys_distinct. unfold entries. rewrite map_map. cbn [fst].
    apply collect_distinct. }
  split; [|split; [exact N|split]].
  - apply sorted_distinct_ascending; [apply sortBy_byDate_sorted|exact N].
  - apply Forall_forall. intros d Hd.
    apply (Permutation_in _ (Permutation_sym P)) in Hd.
    now apply filter_In in Hd.
  - intros d Hd.
    apply (Permutation_in _ (Permutation_sym P)) in Hd.
    apply filter_In in Hd. destruct Hd as [Hd _].
    apply in_map_iff in Hd. destruct Hd as [[k vals] [<- Hb]].
    exists vals. split; [exact Hb|reflexivity].
Qed.

Lemma daily_series_are_ascending_distinct_and_positive_witness :
  StronglySorted (fun a b => String.compare (fst a) (fst b) = Lt)
                 (dailyHRData heartRateRows).
Proof.
  apply (daily_series_are_ascending_distinct_and_positive
           restingValue samplesBinOrFlat heartRateRows).
Defined.

Lemma length_not_zero {A} (a : A) l :
  Qeq_bool (inject_Z (Z.of_nat (List.length (a :: l)))) 0 = false.
Proof.
  destruct (Qeq_bool _ 0) eqn:E; [|reflexivity].
  apply Qeq_bool_iff in E. change 0 with (inject_Z 0) in E.
  rewrite inject_Z_injective in E. cbn [List.length] in E. lia.
Qed.

(** The day value of heart rate is a number; the one of HRV and stress is
    a number or NaN. *)
Lemma restingValue_number vals : exists z, restingValue vals = Num (inject_Z z).
Proof. unfold restingValue. cbn zeta. eexists. reflexivity. Qed.

Lemma meanValue_number vals :
  meanValue vals = NaN \/ exists z, meanValue vals = Num (inject_Z z).
Proof.
  unfold meanValue, divide.
  destruct vals as [|v vals].
  - left. reflexivity.
  - right.
    assert (E : Qeq_bool (inject_Z (Z.of_nat (List.length (v :: vals)))) 0 = false).
    { apply length_not_zero. }
    rewrite E. cbn [round]. eexists. reflexivity.
Qed.

Lemma positive_whole x :
  (x = NaN \/ exists z, x = Num (inject_Z z)) ->
  positive x = true -> wholeAndPositive x.
Proof.
  intros [->|[z ->]] P; [discriminate|].
  exists z. split; [|reflexivity].
  cbn [positive] in P. apply Qltb_lt in P.
  change 0 with (inject_Z 0) in P. rewrite <- Zlt_Qlt in P. lia.
Qed.

Lemma series_sum (series : list point) : forall acc,
  Forall (fun d => wholeAndPositive (snd d)) series ->
  exists t, fold_left (fun s d => plus s (snd d)) series (Num acc) = Num t
            /\ acc + inject_Z (Z.of_nat (List.length series)) <= t.
Proof.
  induction series as [|d series IH]; intros acc F; cbn [fold_left].
  - exists acc. split; [reflexivity|]. cbn [List.length Z.of_nat].
    change (inject_Z 0) with 0. lra.
  - apply Forall_cons_iff in F. destruct F as [[z [Hz E]] F].
    rewrite E. cbn [plus].
    destruct (IH (acc + inject_Z z) F) as [t [Et Ht]].
    exists t. split; [exact Et|].
    cbn [List.length]. rewrite Nat2Z.inj_succ. unfold Z.succ.
    rewrite inject_Z_plus. change (inject_Z 1) with 1.
    assert (1 <= inject_Z z).
    { change 1 with (inject_Z 1). now rewrite <- Zle_Qle. }
    lra.
Qed.

Lemma seriesAverage_whole (series : list point) :
  Forall (fun d => wholeAndPositive (snd d)) series ->
  exists z, seriesAverage series = Num (inject_Z z) /\
            (series = [] -> z = 0%Z) /\ (series <> [] -> (1 <= z)%Z).
Proof.
  intros F. destruct series as [|d series].
  - exists 0%Z. cbn. repeat split. intros H. now contradiction H.
  - destruct (series_sum (d :: series) 0 F) as [t [Et Ht]].
    unfold seriesAverage. rewrite Et. cbn [over]. unfold divide.
    rewrite length_not_zero. cbn [round].
    exists (Qfloor (t / inject_Z (Z.of_nat (List.length (d :: series))) + (1 # 2))).
    split; [reflexivity|]. split; [discriminate|]. intros _.
    set (n := inject_Z (Z.of_nat (List.length (d :: series)))) in *.
    assert (Pn : 0 < n).
    { unfold n. change 0 with (inject_Z 0). rewrite <- Zlt_Qlt.
      cbn [List.length]. lia. }
    assert (Q1 : 1 <= t / n).
    { apply Qle_shift_div_l; [exact Pn|]. lra. }
    generalize dependent (t / n). intros x Hx.
    apply (Qfloor_resp_le 1). lra.
Qed.

(** X27. NaN never reaches the heart-rate, HRV and stress series: every
    value of them is a whole number that is at least 1 (a day bucket
    without sample, whose mean is NaN, is dropped by the filter), and the
    average of such a series is a whole number, 0 for the empty series and
    at least 1 otherwise. *)
Theorem heart_rate_hrv_and_stress_values_are_whole_numbers rows series :
  In series [dailyHRData rows; dailyHRVData rows; dailyStressData rows] ->
  Forall (fun d => wholeAndPositive (snd d)) series /\
  exists z, seriesAverage series = Num (inject_Z z) /\
            (series = [] -> z = 0%Z) /\ (series <> [] -> (1 <= z)%Z).
Proof.
  intros H.
  assert (F : Forall (fun d => wholeAndPositive (snd d)) series).
  { assert (G : forall value samples,
               (forall vals, value vals = NaN
                             \/ exists z, value vals = Num (inject_Z z)) ->
               Forall (fun d => wholeAndPositive (snd d))
                      (dailySeries value (collect samples rows))).
    { intros value samples V. apply Forall_forall. intros d Hd.
      unfold dailySeries in Hd.
      apply (Permutation_in _ (Permutation_sym (sortBy_perm _ _))) in Hd.
      apply filter_In in Hd. destruct Hd as [Hd P].
      apply in_map_iff in Hd. destruct Hd as [[k vals] [<- _]].
      apply positive_whole; [apply V|exact P]. }
    destruct H as [<-|[<-|[<-|[]]]]; apply G.
    - intros vals. right. apply restingValue_number.
    - apply meanValue_number.
    - apply meanValue_number. }
  split; [exact F|]. now apply seriesAverage_whole.
Qed.

Lemma heart_rate_hrv_and_stress_values_are_whole_numbers_witness :
  Forall (fun d => wholeAndPositive (snd d)) (dailyHRData heartRateRows).
Proof.
  apply (heart_rate_hrv_and_stress_values_are_whole_numbers
           heartRateRows (dailyHRData heartRateRows)).
  left. reflexivity.
Defined.

End WellnessSeriesFacts.

Section YearFacts.

Import JsArray Wellness Pipeline.

Import JsArray Wellness Pipeline.

Lemma addYear_member yearSet o y :
  In y (addYear yearSet o) <-> In y yearSet \/ o = Some y.
Proof.
  unfold addYear. destruct o as [x|].
  - destruct (existsb (Z.eqb x) yearSet) eqn:E.
    + split; [now left|]. intros [H|H]; [exact H|].
      injection H as ->. apply existsb_exists in E.
      destruct E as [k [Hk E]]. apply Z.eqb_eq in E. now subst.
    + rewrite in_app_iff. cbn [In]. split.
      * intros [H|[->|[]]]; [now left|now right].
      * intros [H|H]; [now left|]. injection H as ->. right. now left.
  - split; [now left|]. now intros [H|H].
Qed.

Lemma addYear_distinct yearSet o :
  NoDup yearSet -> NoDup (addYear yearSet o).
Proof.
  intros N. unfold addYear. destruct o as [x|]; [|exact N].
  destruct (existsb (Z.eqb x) yearSet) eqn:E; [exact N|].
  apply NoDup_app; [exact N|repeat constructor; intros []|].
  intros k Hk [<-|[]].
  assert (X : existsb (Z.eqb x) yearSet = true).
  { apply existsb_exists. exists x. split; [exact Hk|apply Z.eqb_refl]. }
  congruence.
Qed.

Lemma fold_addYear_member {A} (g : A -> option Z) rows y : forall yearSet,
  In y (fold_left (fun set r => addYear set (g r)) rows yearSet)
  <-> In y yearSet \/ exists r, In r rows /\ g r = Some y.
Proof.
  induction rows as [|r rows IH]; intros yearSet; cbn [fold_left].
  - split; [now left|]. now intros [H|[r [[] _]]].
  - rewrite IH, addYear_member. split.
    + intros [[H|H]|[r' [Hr E]]].
      * now left.
      * right. exists r. split; [now left|exact H].
      * right. exists r'. split; [now right|exact E].
    + intros [H|[r' [[<-|Hr] E]]].
      * left. now left.
      * left. now right.
      * right. exists r'. now split.
Qed.

Lemma fold_addYear_distinct {A} (g : A -> option Z) rows : forall yearSet,
  NoDup yearSet ->
  NoDup (fold_left (fun set r => addYear set (g r)) rows yearSet).
Proof.
  induction rows as [|r rows IH]; intros yearSet N; cbn [fold_left];
    [exact N|].
  apply IH. now apply addYear_distinct.
Qed.

Lemma yearLabel_injective a b : yearLabel a = yearLabel b -> a = b.
Proof.
  assert (P : forall z, Z.to_int z <> Decimal.Pos Decimal.Nil
                        /\ Z.to_int z <> Decimal.Neg Decimal.Nil).
  { intros [|p|p]; cbn; split; try discriminate; intros H;
      injection H as H; now apply DecimalPos.Unsigned.to_uint_nonnil in H. }
  unfold yearLabel. intros H.
  apply (f_equal NilZero.int_of_string) in H.
  rewrite !NilZero.isi in H by apply P.
  injection H as H. now apply DecimalZ.to_int_inj.
Qed.

Lemma yearLabel_not_all_time y : yearLabel y <> "All Time"%string.
Proof.
  unfold yearLabel.
  destruct (Z.to_int y) as [d|d]; [destruct d|]; discriminate.
Qed.

Lemma labels_distinct ys : NoDup ys -> NoDup (map yearLabel ys).
Proof.
  induction 1 as [|y ys Hy N IH]; cbn [map]; constructor; [|exact IH].
  intros H. apply in_map_iff in H. destruct H as [k [E Hk]].
  apply yearLabel_injective in E. now subst.
Qed.

Section WithCalendar.

Variable getFullYear : Z -> Z.
Variable buildYear : HealthData -> Z -> Years.YearStats.

Lemma discoverYears_distinct data : NoDup (discoverYears getFullYear data).
Proof.
  unfold discoverYears. cbn zeta.
  apply (fold_addYear_distinct (fun e => e)).
  repeat apply fold_addYear_distinct. constructor.
Qed.

(** X28. Year discovery collects every year once: the years have no
    duplicate, and a year is discovered exactly when it is the year of a
    step row, of a kept sleep session, of a heart-rate row, of an HRV row
    or of an exercise row.  Stress and oxygen-saturation rows discover no
    year. *)
Theorem discoverYears_collects_each_year_once data :
  NoDup (discoverYears getFullYear data) /\
  forall y,
    In y (discoverYears getFullYear data) <->
    (exists s, In s (steps data) /\ stepYear s = Some y) \/
    (exists s, In s (Sleep.processedSleep (sleep data))
               /\ getFullYear (Sleep._start s) = y) \/
    (exists r, In r (heartRate data) /\ startYear r = Some y) \/
    (exists r, In r (hrv data) /\ startYear r = Some y) \/
    In (Some y) (exercises data).
Proof.
  split; [apply discoverYears_distinct|].
  unfold discoverYears. cbn zeta.
  - intros y.
    rewrite (fold_addYear_member (fun e => e)).
    rewrite !fold_addYear_member. cbn [In].
    split.
    + intros [[[[[[]|H]|H]|H]|H]|[e [He E]]].
      * now left.
      * right. left. destruct H as [s [Hs E]]. exists s.
        split; [exact Hs|congruence].
      * right. right. now left.
      * right. right. right. now left.
      * right. right. right. right. now subst.
    + intros [H|[[s [Hs E]]|[H|[H|H]]]].
      * left. left. left. left. now right.
      * left. left. left. right. exists s. split; [exact Hs|congruence].
      * left. left. now right.
      * left. now right.
      * right. exists (Some y). now split.
Qed.

(** X29. The result maps distinct labels: the labels of the years are
    distinct decimal texts and none of them is the label of the All Time
    entry, so no assignment to the result overwrites another; every
    discovered year has its entry, and the result has one entry more than
    there are discovered years, or none when there is no year. *)
Theorem result_has_one_entry_per_label data :
  exists result,
    transformHealthData getFullYear buildYear data = Returns result /\
    NoDup (map fst result) /\
    (forall y, In y (discoverYears getFullYear data) ->
               In (yearLabel y, buildYear data y) result) /\
    (List.length result
     = match discoverYears getFullYear data with
       | [] => 0
       | ys => S (List.length ys)
       end).
Proof.
  pose proof (sortBy_perm (fun a b => localeCompare (yearLabel a) (yearLabel b))
                (discoverYears getFullYear data)) as P.
  fold (years getFullYear data) in P.
  unfold transformHealthData.
  destruct (years getFullYear data) as [|y ys] eqn:E.
  - apply Permutation_sym, Permutation_nil in P. rewrite P.
    exists []. repeat split; [constructor|intros y []].
  - eexists. split; [reflexivity|].
    assert (Ny : NoDup (y :: ys)).
    { eapply Permutation_NoDup; [exact P|].
      apply discoverYears_distinct. }
    split; [|split].
    + rewrite map_app, map_map. cbn [map fst].
      apply NoDup_app.
      * apply (labels_distinct (y :: ys)). exact Ny.
      * repeat constructor. intros [].
      * intros l Hl [<-|[]].
        change (In "All Time"%string (map yearLabel (y :: ys))) in Hl.
        apply in_map_iff in Hl.
        destruct Hl as [k [Hk _]]. now apply yearLabel_not_all_time in Hk.
    + intros k Hk. apply in_or_app. left.
      apply (Permutation_in _ P) in Hk.
      apply in_map_iff. exists k. now split.
    + rewrite length_app, length_map.
      rewrite <- (Permutation_length P). cbn [List.length].
      destruct (discoverYears getFullYear data) as [|d ds].
      * apply Permutation_nil in P. discriminate P.
      * cbn [List.length]. lia.
Qed.

End WithCalendar.

Lemma discoverYears_collects_each_year_once_witness :
  In 2024%Z (discoverYears utcYearApprox stepsOnlyData).
Proof.
  apply (discoverYears_collects_each_year_once utcYearApprox stepsOnlyData).
  left. exists (mkStepRow (Some 2024%Z) true 100). split; [|reflexivity].
  left. reflexivity.
Defined.

Lemma result_has_one_entry_per_label_witness :
  exists result,
    transformHealthData utcYearApprox stepsOnlyYear stepsOnlyData
    = Returns result /\
    NoDup (map fst result) /\
    (forall y, In y (discoverYears utcYearApprox stepsOnlyData) ->
               In (yearLabel y, stepsOnlyYear stepsOnlyData y) result) /\
    List.length result = 2%nat.
Proof.
  apply (result_has_one_entry_per_label utcYearApprox stepsOnlyYear
                                        stepsOnlyData).
Defined.

End YearFacts.

Section PercentileFacts.

Import JsArray Wellness Samples Lqa.
Local Open Scope Q_scope.

Import JsArray Wellness Samples Lqa.
Local Open Scope Q_scope.

Lemma filter_length_perm {A} (p : A -> bool) l l' :
  Permutation l l' ->
  List.length (filter p l) = List.length (filter p l').
Proof.
  induction 1 as [|a l l' _ IH|a b l|l l' l'' _ IH1 _ IH2]; cbn [filter].
  - reflexivity.
  - destruct (p a); cbn [List.length]; now rewrite IH.
  - destruct (p a), (p b); reflexivity.
  - now rewrite IH1.
Qed.

Lemma filter_none {A} (p : A -> bool) l :
  (forall x, In x l -> p x = false) -> filter p l = [].
Proof.
  induction l as [|a l IH]; cbn [filter]; intros H; [reflexivity|].
  rewrite (H a (or_introl eq_refl)). apply IH. intros x Hx. apply H. now right.
Qed.

Lemma filter_all {A} (p : A -> bool) l :
  (forall x, In x l -> p x = true) -> filter p l = l.
Proof.
  induction l as [|a l IH]; cbn [filter]; intros H; [reflexivity|].
  rewrite (H a (or_introl eq_refl)). f_equal. apply IH.
  intros x Hx. apply H. now right.
Qed.

Lemma filter_shorter {A} (p : A -> bool) l :
  (List.length (filter p l) <= List.length l)%nat.
Proof.
  induction l as [|a l IH]; cbn [filter List.length]; [lia|].
  destruct (p a); cbn [List.length]; lia.
Qed.

Lemma tenth_index (n : nat) :
  Z.to_nat (Qfloor (inject_Z (Z.of_nat n) * (1 # 10))) = Nat.div n 10.
Proof.
  unfold Qfloor, inject_Z, Qmult. cbn [Qnum Qden].
  rewrite Z.mul_1_r. change (Z.pos (1 * 10)) with (Z.of_nat 10).
  rewrite <- Nat2Z.inj_div. apply Nat2Z.id.
Qed.

Lemma numeric_order a b : notAfter (fun a b : Q => a - b) a b <-> a <= b.
Proof. unfold notAfter. split; intros H; lra. Qed.

Lemma numeric_sorted vals :
  StronglySorted Qle (sortBy (fun a b : Q => a - b) vals).
Proof.
  apply (sorted_weaken (notAfter (fun a b : Q => a - b))).
  - intros a b _ _. apply numeric_order.
  - apply sortBy_sorted.
    + intros a b. unfold notAfter. destruct (Qlt_le_dec a b); [left|right]; lra.
    + intros a b c. unfold notAfter. lra.
Qed.

(** X30. The day value of heart rate is the rounded tenth percentile of
    the samples of the day: for a day with samples it is the rounding of
    one of them, chosen so that at most a tenth of the samples (rounded
    down) are below it and more than that many are at most it. *)
Theorem resting_value_is_the_tenth_percentile vals :
  vals <> [] ->
  exists v,
    In v vals /\
    restingValue vals = Num (mathRound v) /\
    (List.length (filter (fun x => Qltb x v) vals)
     <= Nat.div (List.length vals) 10
     < List.length (filter (fun x => Qle_bool x v) vals))%nat.
Proof.
  intros N.
  set (sorted := sortBy (fun a b : Q => a - b) vals).
  pose proof (sortBy_perm (fun a b : Q => a - b) vals) as P.
  fold sorted in P.
  pose proof (numeric_sorted vals) as S. fold sorted in S.
  set (k := Nat.div (List.length vals) 10).
  assert (K : (k < List.length sorted)%nat).
  { rewrite <- (Permutation_length P). unfold k.
    destruct vals as [|x l]; [now contradiction N|].
    apply Nat.div_lt; cbn [List.length]; lia. }
  destruct (nth_split sorted 0 K) as [l1 [l2 [E L]]].
  set (v := nth k sorted 0) in *.
  exists v. split; [|split].
  - apply (Permutation_in _ (Permutation_sym P)). rewrite E.
    apply in_or_app. right. now left.
  - unfold restingValue. cbn zeta. rewrite tenth_index. reflexivity.
  - rewrite !(filter_length_perm _ _ _ P), E.
    rewrite E in S.
    assert (B : forall x, In x (v :: l2) -> v <= x).
    { apply sorted_app_r in S. apply StronglySorted_inv in S.
      destruct S as [_ F]. rewrite Forall_forall in F.
      intros x [<-|Hx]; [lra|now apply F]. }
    assert (Fl : forall x, In x l1 -> x <= v).
    { intros x Hx. apply (sorted_app_order _ _ _ S x v Hx). now left. }
    rewrite !filter_app, !length_app. split.
    + assert (Z0 : filter (fun x => Qltb x v) (v :: l2) = []).
      { apply filter_none. intros x Hx. apply B in Hx.
        now apply Qltb_ge. }
      rewrite Z0. cbn [List.length].
      pose proof (filter_shorter (fun x => Qltb x v) l1). lia.
    + assert (A1 : filter (fun x => Qle_bool x v) l1 = l1).
      { apply filter_all. intros x Hx.
        apply Qle_bool_iff. now apply Fl. }
      rewrite A1. cbn [filter].
      rewrite (proj2 (Qle_bool_iff v v)) by lra. cbn [List.length]. lia.
Qed.

Lemma resting_value_is_the_tenth_percentile_witness :
  exists v,
    In v heartRateSamples /\
    restingValue heartRateSamples = Num (mathRound v) /\
    (List.length (filter (fun x => Qltb x v) heartRateSamples)
     <= Nat.div (List.length heartRateSamples) 10
     < List.length (filter (fun x => Qle_bool x v) heartRateSamples))%nat.
Proof.
  apply (resting_value_is_the_tenth_percentile heartRateSamples).
  discriminate.
Defined.

End PercentileFacts.

(** ** The range of the correlation on doubles *)

Section DoublesMoreFacts.

Import PrimFloat Doubles.
Local Open Scope float_scope.

(** X13.  On doubles the correlation is not confined to the interval
    from -1 to 1: there are series of equal length for which it is above 1,
    below -1, and NaN. *)
Theorem correlation_can_leave_the_interval :
  (exists x y, List.length x = List.length y
               /\ ltb 1 (calculateCorrelation x y) = true) /\
  (exists x y, List.length x = List.length y
               /\ ltb (calculateCorrelation x y) (-1) = true) /\
  (exists x y, List.length x = List.length y
               /\ is_nan (calculateCorrelation x y) = true).
Proof.
  split; [|split].
  - exists shortSeries, longSeries. split; vm_compute; reflexivity.
  - exists shortSeries, (map opp longSeries). split; vm_compute; reflexivity.
  - exists constantSeries, risingSeries. split; vm_compute; reflexivity.
Qed.

End DoublesMoreFacts.
